(** * Castle of Bugs: the session orchestration core of adventure_debug_bot.py

    A shallow embedding of the bot's session store, state machine and message
    router, followed by the properties of the specification that were checked
    against it.

    Modelling conventions.
    - A Python [str] is the list of its code points ([pystr]); a Python [int]
      is a [Z]; the [RoomSession] dataclass is a record whose fields carry the
      types the dataclass annotates.
    - The two global dicts [user_sessions] and [user_processing_status] are
      finite maps keyed by the user id.
    - A handler is a computation in a state-and-exception monad over [world]:
      the two dicts, the session file, the log, the messages delivered to the
      chat, the calls made to the generator, and an oracle saying which of the
      coming transport calls fail.  An exception leaves the mutations made
      before it in place, as in Python.
    - [call_groq_api] is an adapter around an HTTP call; it catches every
      exception and returns the decoded answer or [None].  Its answer is an
      input of the model ([env]).
    - Values that come from outside (the generator's answer, the session
      file) are taken to have the type of the field they are stored in.
      Integers are unbounded, and the interpreter refuses to turn an integer
      of more than 4300 decimal digits into text or to read one from text. *)

From Stdlib Require Import ZArith NArith Lia DecimalZ.
From Stdlib Require Ascii String.
From stdpp Require Import base option list gmap fin_maps.

Import String.StringSyntax.

Local Open Scope Z_scope.
Local Open Scope string_scope.

(** ** Python strings *)

Module PyStr.

Abbreviation code_point := N (only parsing).
Abbreviation pystr := (list N) (only parsing).

(** [str.isspace] on one code point: the table [str.split()] uses to find the
    separators when it is called without an argument. *)
Definition is_space (c : code_point) : bool :=
  ((9 <=? c) && (c <=? 13) || (28 <=? c) && (c <=? 32)
   || (c =? 133) || (c =? 160) || (c =? 5760)
   || (8192 <=? c) && (c <=? 8202)
   || (c =? 8232) || (c =? 8233) || (c =? 8239) || (c =? 8287)
   || (c =? 12288))%N.

(** [code.split()]: the maximal runs of non-space code points, in order.
    [word] is the run being read. *)
Fixpoint split_from (word : pystr) (code : pystr) : list pystr :=
  match code with
  | [] => match word with [] => [] | _ => [word] end
  | c :: rest =>
      if is_space c
      then match word with
           | [] => split_from [] rest
           | _ => word :: split_from [] rest
           end
      else split_from (word ++ [c]) rest
  end.

Definition split (code : pystr) : list pystr := split_from [] code.

(** ["".join(words)] *)
Definition join_empty (words : list pystr) : pystr := concat words.

(** [normalize_code] *)
Definition normalize_code (code : pystr) : pystr := join_empty (split code).

(** What the specification says [normalize_code] computes: the text with
    every whitespace code point removed. *)
Definition remove_whitespace (code : pystr) : pystr :=
  filter (fun c => is_space c = false) code.

(** A string can be written to a file opened with [encoding="utf-8"] when it
    holds no surrogate code point. *)
Definition is_surrogate (c : code_point) : bool :=
  ((55296 <=? c) && (c <=? 57343))%N.

Definition encodable (s : pystr) : bool := forallb (fun c => negb (is_surrogate c)) s.

(** ASCII text as a Python string. *)
Definition of_ascii (s : String.string) : pystr :=
  map Ascii.N_of_ascii (String.list_ascii_of_string s).

End PyStr.
Import PyStr.

(** ** Integers as text: [str(n)] and [int(text)]

    [json.dump] writes the integer keys of the session dict as decimal text,
    and [load_sessions_from_file] reads them back with [int(uid)].  Both
    conversions refuse an integer of more than 4300 decimal digits. *)

Module PyInt.

Fixpoint digits_of_uint (d : Decimal.uint) : pystr :=
  match d with
  | Decimal.Nil => []
  | Decimal.D0 d => 48%N :: digits_of_uint d
  | Decimal.D1 d => 49%N :: digits_of_uint d
  | Decimal.D2 d => 50%N :: digits_of_uint d
  | Decimal.D3 d => 51%N :: digits_of_uint d
  | Decimal.D4 d => 52%N :: digits_of_uint d
  | Decimal.D5 d => 53%N :: digits_of_uint d
  | Decimal.D6 d => 54%N :: digits_of_uint d
  | Decimal.D7 d => 55%N :: digits_of_uint d
  | Decimal.D8 d => 56%N :: digits_of_uint d
  | Decimal.D9 d => 57%N :: digits_of_uint d
  end.

(** [str(n)]: a minus sign for a negative number, then the decimal digits. *)
Definition py_str (n : Z) : pystr :=
  match Z.to_int n with
  | Decimal.Pos d => digits_of_uint d
  | Decimal.Neg d => 45%N :: digits_of_uint d
  end.

(** The limit of the interpreter on the decimal digits of an integer that is
    written as text or read from text ([sys.get_int_max_str_digits()]). *)
Definition MAX_STR_DIGITS : nat := 4300.

(** The number of decimal digits of [n], the sign left out. *)
Definition str_digits (n : Z) : nat :=
  match Z.to_int n with
  | Decimal.Pos d | Decimal.Neg d => Decimal.nb_digits d
  end.

(** [str(n)] and [repr(n)] raise [ValueError] beyond the limit. *)
Definition int_writable (n : Z) : bool := (str_digits n <=? MAX_STR_DIGITS)%nat.

(** The code points of the digit zero of every script that has decimal
    digits (Unicode 14.0); the nine code points after each are the digits
    one to nine. *)
Definition DECIMAL_ZEROS : list code_point :=
  [48; 1632; 1776; 1984; 2406; 2534; 2662; 2790; 2918; 3046; 3174; 3302; 3430; 3558;
   3664; 3792; 3872; 4160; 4240; 6112; 6160; 6470; 6608; 6784; 6800; 6992; 7088; 7232;
   7248; 42528; 43216; 43264; 43472; 43504; 43600; 44016; 65296; 66720; 68912; 69734;
   69872; 69942; 70096; 70384; 70736; 70864; 71248; 71360; 71472; 71904; 72016; 72784;
   73040; 73120; 92768; 92864; 93008; 120782; 120792; 120802; 120812; 120822; 123200;
   123632; 125264; 130032]%N.

(** The value of [c] as a decimal digit, if it is one. *)
Definition to_decimal (c : code_point) : option N :=
  (fun zero => c - zero)%N <$>
  List.find (fun zero => (zero <=? c) && (c <? zero + 10))%N DECIMAL_ZEROS.

(** What [int] makes of one code point before it reads the text: below 127
    the code point itself, above that a space for whitespace, the ASCII
    digit for a decimal digit, and a question mark for anything else. *)
Definition to_ascii (c : code_point) : code_point :=
  if (c <? 127)%N then c
  else if is_space c then 32%N
  else match to_decimal c with
       | Some d => (48 + d)%N
       | None => 63%N
       end.

(** Whitespace for the reader of the literal: the six ASCII characters. *)
Definition is_ascii_space (c : code_point) : bool :=
  ((9 <=? c) && (c <=? 13) || (c =? 32))%N.

Definition digit_of (c : code_point) : option (Decimal.uint -> Decimal.uint) :=
  match c with
  | 48%N => Some Decimal.D0 | 49%N => Some Decimal.D1 | 50%N => Some Decimal.D2
  | 51%N => Some Decimal.D3 | 52%N => Some Decimal.D4 | 53%N => Some Decimal.D5
  | 54%N => Some Decimal.D6 | 55%N => Some Decimal.D7 | 56%N => Some Decimal.D8
  | 57%N => Some Decimal.D9
  | _ => None
  end.

(** The digits after the first one; a single underscore may stand between two
    digits. *)
Fixpoint digits_tail (s : pystr) : option Decimal.uint :=
  match s with
  | [] => Some Decimal.Nil
  | c :: rest =>
      match digit_of c with
      | Some k => k <$> digits_tail rest
      | None =>
          if (c =? 95)%N
          then match rest with
               | d :: rest' =>
                   match digit_of d with
                   | Some k => k <$> digits_tail rest'
                   | None => None
                   end
               | [] => None
               end
          else None
      end
  end.

Definition digits (s : pystr) : option Decimal.uint :=
  match s with
  | c :: rest =>
      match digit_of c with
      | Some k => k <$> digits_tail rest
      | None => None
      end
  | [] => None
  end.

Fixpoint lstrip (s : pystr) : pystr :=
  match s with
  | c :: rest => if is_ascii_space c then lstrip rest else s
  | [] => []
  end.
Definition strip (s : pystr) : pystr := reverse (lstrip (reverse (lstrip s))).

(** The number a sign and the digits read stand for; more digits than the
    limit allows are refused, leading zeros counted. *)
Definition read_int (sign : Decimal.uint -> Decimal.int) (ds : pystr) : option Z :=
  match digits ds with
  | Some d =>
      if (Decimal.nb_digits d <=? MAX_STR_DIGITS)%nat then Some (Z.of_int (sign d)) else None
  | None => None
  end.

(** [int(text)]: whitespace around the literal is dropped, one sign is
    allowed, then come the digits, of any script.  [None] stands for the
    [ValueError] Python raises. *)
Definition py_int (s : pystr) : option Z :=
  match strip (to_ascii <$> s) with
  | 45%N :: ds => read_int Decimal.Neg ds
  | 43%N :: ds => read_int Decimal.Pos ds
  | ds => read_int Decimal.Pos ds
  end.

End PyInt.
Import PyInt.

(** ** Sessions *)

(** [@dataclass class RoomSession] *)
Record RoomSession := mkRoomSession {
  user_id : Z;
  room_number : Z;
  description : pystr;
  buggy_snippet : pystr;
  correct_snippet : pystr;
  attempts : Z;
  is_complete : bool
}.

#[export] Instance RoomSession_eq_dec : EqDecision RoomSession.
Proof. solve_decision. Defined.

(** [session.field = v] *)
Definition set_room_number (v : Z) (s : RoomSession) : RoomSession :=
  mkRoomSession (user_id s) v (description s) (buggy_snippet s) (correct_snippet s)
                (attempts s) (is_complete s).
Definition set_description (v : pystr) (s : RoomSession) : RoomSession :=
  mkRoomSession (user_id s) (room_number s) v (buggy_snippet s) (correct_snippet s)
                (attempts s) (is_complete s).
Definition set_buggy_snippet (v : pystr) (s : RoomSession) : RoomSession :=
  mkRoomSession (user_id s) (room_number s) (description s) v (correct_snippet s)
                (attempts s) (is_complete s).
Definition set_correct_snippet (v : pystr) (s : RoomSession) : RoomSession :=
  mkRoomSession (user_id s) (room_number s) (description s) (buggy_snippet s) v
                (attempts s) (is_complete s).
Definition set_attempts (v : Z) (s : RoomSession) : RoomSession :=
  mkRoomSession (user_id s) (room_number s) (description s) (buggy_snippet s)
                (correct_snippet s) v (is_complete s).

(** One entry of a dict that is unpacked into the keyword arguments of
    [RoomSession] or produced by [asdict]: a key that names a field of the
    dataclass, with a value of the type the field is annotated with, or a key
    that names no field. *)
Inductive kwarg :=
| KUserId (v : Z)
| KRoomNumber (v : Z)
| KDescription (v : pystr)
| KBuggySnippet (v : pystr)
| KCorrectSnippet (v : pystr)
| KAttempts (v : Z)
| KIsComplete (v : bool)
| KOther.

(** A dict decoded from a JSON object, as the list of its members in reading
    order; when a key occurs twice the later member wins, as in [json.loads]. *)
Definition kwargs := list kwarg.

Definition get_user_id (d : kwargs) : option Z :=
  last (omap (fun k => match k with KUserId v => Some v | _ => None end) d).
Definition get_room_number (d : kwargs) : option Z :=
  last (omap (fun k => match k with KRoomNumber v => Some v | _ => None end) d).
Definition get_description (d : kwargs) : option pystr :=
  last (omap (fun k => match k with KDescription v => Some v | _ => None end) d).
Definition get_buggy_snippet (d : kwargs) : option pystr :=
  last (omap (fun k => match k with KBuggySnippet v => Some v | _ => None end) d).
Definition get_correct_snippet (d : kwargs) : option pystr :=
  last (omap (fun k => match k with KCorrectSnippet v => Some v | _ => None end) d).
Definition get_attempts (d : kwargs) : option Z :=
  last (omap (fun k => match k with KAttempts v => Some v | _ => None end) d).
Definition get_is_complete (d : kwargs) : option bool :=
  last (omap (fun k => match k with KIsComplete v => Some v | _ => None end) d).
Definition has_other_key (d : kwargs) : bool :=
  existsb (fun k => match k with KOther => true | _ => false end) d.

(** [asdict(session)] *)
Definition asdict (s : RoomSession) : kwargs :=
  [ KUserId (user_id s); KRoomNumber (room_number s);
    KDescription (description s); KBuggySnippet (buggy_snippet s);
    KCorrectSnippet (correct_snippet s); KAttempts (attempts s);
    KIsComplete (is_complete s) ].

(** Python exceptions that the modelled code can raise. *)
Inductive exn :=
| TypeError
| AttributeError
| ValueError
| JSONDecodeError
| FileNotFoundError
| UnicodeDecodeError
| UnicodeEncodeError
| TransportError.

#[export] Instance exn_eq_dec : EqDecision exn.
Proof. solve_decision. Defined.

(** [RoomSession] called with the dict [d] unpacked as keyword arguments:
    the generated [__init__] rejects a key that names no field and a missing
    [user_id]; every other field has a default. *)
Definition RoomSession_of_kwargs (d : kwargs) : exn + RoomSession :=
  if has_other_key d then inl TypeError
  else match get_user_id d with
       | None => inl TypeError
       | Some uid =>
           inr {| user_id := uid;
                  room_number := default 1 (get_room_number d);
                  description := default [] (get_description d);
                  buggy_snippet := default [] (get_buggy_snippet d);
                  correct_snippet := default [] (get_correct_snippet d);
                  attempts := default 0 (get_attempts d);
                  is_complete := default false (get_is_complete d) |}
       end.

(** [RoomSession] called with [user_id=uid] and the dict [d] unpacked: a
    [user_id] key in [d] now clashes with the explicit argument. *)
Definition RoomSession_for_user (uid : Z) (d : kwargs) : exn + RoomSession :=
  match get_user_id d with
  | Some _ => inl TypeError
  | None => RoomSession_of_kwargs (KUserId uid :: d)
  end.

(** ** The world the handlers run in *)

(** The contents of [user_sessions.json].  The file is read as UTF-8 text and
    decoded by [json.load]; a decoded object is kept as the list of its
    members, a member value being a dict or something else. *)
Inductive file_entry :=
| EntryOther
| EntryDict (d : kwargs).

Inductive storage :=
| Missing                                   (* no such file *)
| NotUtf8                                   (* bytes that are not UTF-8 text *)
| NotJson                                   (* text that is not a JSON document *)
| JsonOther                                 (* a JSON document that is not an object *)
| JsonObject (members : list (pystr * file_entry)).

Inductive log_entry :=
| InfoSaved
| ErrorSaveFailed
| InfoLoaded (n : nat)
| ErrorLoadFailed
| InfoCleanedUp (uid : Z)
| ErrorNoValidRoom
| ErrorInvalidStructure (room : Z).

(** What the transport is asked to deliver to the user's chat. *)
Inductive reply :=
| Typing                                    (* send_chat_action *)
| Welcome                                   (* the answer to /start *)
| GodModeAnswer (answer : pystr)           (* the answer to /godmode *)
| NotInCastle                               (* /godmode without a session *)
| StillProcessing                           (* the gate's notice *)
| WelcomeBack
| RoomMessage (room : Z) (description snippet : pystr)   (* format_room_message *)
| GateLocked                                (* the first room could not be generated *)
| GhostsOnlyInside                          (* hint asked without a session *)
| HintWhisper (hint : pystr)
| GhostsSilent                              (* hint unavailable *)
| LeftCastle
| OutsideCastle                             (* no active session *)
| ProgressScroll (room attempts : Z)
| EchoLost                                  (* free text without a session *)
| Victory
| RoomComplete (message : nat) (room : Z)   (* one of ROOM_COMPLETE_MESSAGES *)
| CastleCollapsing                          (* fatal failure of the session *)
| StillBugged.                              (* incorrect submission *)

#[export] Instance reply_eq_dec : EqDecision reply.
Proof. solve_decision. Defined.

(** A call of [call_groq_api]. *)
Inductive request :=
| GenerateRoom (room : Z)
| GenerateHint (buggy correct : pystr).

Record world := mkWorld {
  user_sessions : gmap Z RoomSession;
  user_processing_status : gmap Z bool;
  session_file : storage;
  logged : list log_entry;
  sent : list (Z * reply);
  requested : list request;
  transport : list bool      (* outcome of the coming transport calls; all
                                succeed once the list is used up *)
}.

Definition with_sessions (f : gmap Z RoomSession -> gmap Z RoomSession) (w : world) : world :=
  mkWorld (f (user_sessions w)) (user_processing_status w) (session_file w)
          (logged w) (sent w) (requested w) (transport w).
Definition with_status (f : gmap Z bool -> gmap Z bool) (w : world) : world :=
  mkWorld (user_sessions w) (f (user_processing_status w)) (session_file w)
          (logged w) (sent w) (requested w) (transport w).
Definition with_file (f : storage) (w : world) : world :=
  mkWorld (user_sessions w) (user_processing_status w) f
          (logged w) (sent w) (requested w) (transport w).
Definition with_log (e : log_entry) (w : world) : world :=
  mkWorld (user_sessions w) (user_processing_status w) (session_file w)
          (logged w ++ [e]) (sent w) (requested w) (transport w).
Definition with_sent (uid : Z) (r : reply) (w : world) : world :=
  mkWorld (user_sessions w) (user_processing_status w) (session_file w)
          (logged w) (sent w ++ [(uid, r)]) (requested w) (transport w).
Definition with_request (q : request) (w : world) : world :=
  mkWorld (user_sessions w) (user_processing_status w) (session_file w)
          (logged w) (sent w) (requested w ++ [q]) (transport w).
Definition with_transport (t : list bool) (w : world) : world :=
  mkWorld (user_sessions w) (user_processing_status w) (session_file w)
          (logged w) (sent w) (requested w) t.

(** What the generator answers to the one call a handler makes. *)
Inductive api_json :=
| ApiNone                     (* the call failed, or the answer was no JSON *)
| ApiNotDict                  (* a JSON value that is not an object *)
| ApiDict (d : kwargs).

Record env := mkEnv {
  answer_json : api_json;             (* call_groq_api(..., expect_json=True) *)
  answer_text : option pystr;         (* call_groq_api(..., expect_json=False) *)
  choice : nat                        (* the draw of random.choice *)
}.

(** ** The handler monad: state and exceptions *)

Inductive outcome (A : Type) :=
| Returned (a : A)
| Raised (e : exn).
Arguments Returned {A} a.
Arguments Raised {A} e.

Definition M (A : Type) : Type := world -> outcome A * world.

Definition bind {A B} (m : M A) (f : A -> M B) : M B := fun w =>
  match m w with
  | (Returned a, w') => f a w'
  | (Raised e, w') => (Raised e, w')
  end.

#[export] Instance M_ret : MRet M := fun A a w => (Returned a, w).
#[export] Instance M_bind : MBind M := fun A B f m => bind m f.

Notation "'let*' x ':=' m 'in' f" := (bind m (fun x => f))
  (at level 10, x name, m at level 100, f at level 200).

Definition raise {A} (e : exn) : M A := fun w => (Raised e, w).
Definition gets {A} (f : world -> A) : M A := fun w => (Returned (f w), w).
Definition modify (f : world -> world) : M unit := fun w => (Returned tt, f w).

(** [try: body finally: cleanup] *)
Definition try_finally {A} (body : M A) (cleanup : M unit) : M A := fun w =>
  match body w with
  | (Returned a, w') =>
      match cleanup w' with
      | (Returned _, w'') => (Returned a, w'')
      | (Raised e, w'') => (Raised e, w'')
      end
  | (Raised e, w') =>
      match cleanup w' with
      | (Returned _, w'') => (Raised e, w'')
      | (Raised e', w'') => (Raised e', w'')
      end
  end.

(** [try: body except (classes) as e: handler], [caught] telling which
    exceptions the clause names. *)
Definition try_except {A} (body : M A) (caught : exn -> bool) (handler : M A) : M A := fun w =>
  match body w with
  | (Returned a, w') => (Returned a, w')
  | (Raised e, w') => if caught e then handler w' else (Raised e, w')
  end.

Definition exception {A} (r : outcome A) : option exn :=
  match r with Returned _ => None | Raised e => Some e end.
Definition world_after {A} (r : outcome A * world) : world := r.2.
Definition returned {A} (r : outcome A * world) : bool :=
  match r.1 with Returned _ => true | Raised _ => false end.

(** ** Transport and generator *)

(** One call of the chat transport: it may raise, and otherwise delivers. *)
Definition transport_call (uid : Z) (r : reply) : M unit := fun w =>
  match transport w with
  | false :: rest => (Raised TransportError, with_transport rest w)
  | true :: rest => (Returned tt, with_sent uid r (with_transport rest w))
  | [] => (Returned tt, with_sent uid r w)
  end.

Definition reply_text (uid : Z) (r : reply) : M unit := transport_call uid r.
Definition send_chat_action (uid : Z) : M unit := transport_call uid Typing.

Definition call_groq_api_json (e : env) (q : request) : M api_json :=
  modify (with_request q) ;; mret (answer_json e).
Definition call_groq_api_text (e : env) (q : request) : M (option pystr) :=
  modify (with_request q) ;; mret (answer_text e).

(** [all(k in response for k in ("description", "buggy_snippet",
    "correct_snippet"))] *)
Definition has_room_keys (d : kwargs) : bool :=
  match get_description d, get_buggy_snippet d, get_correct_snippet d with
  | Some _, Some _, Some _ => true
  | _, _, _ => false
  end.

(** ** Persistence *)

(** A Python dict built from the members of a JSON object: a repeated key
    keeps its first position and takes the later value. *)
Fixpoint dict_set {V} (k : pystr) (v : V) (d : list (pystr * V)) : list (pystr * V) :=
  match d with
  | [] => [(k, v)]
  | (k', v') :: rest =>
      if decide (k = k') then (k, v) :: rest else (k', v') :: dict_set k v rest
  end.

Definition dict_items {V} (members : list (pystr * V)) : list (pystr * V) :=
  foldl (fun d kv => dict_set kv.1 kv.2 d) [] members.

(** What stops [json.dump] at one entry of a session dict: an integer of
    more digits than the interpreter turns into text ([ValueError]), or a
    text that cannot be encoded as UTF-8 ([UnicodeEncodeError]).  An entry
    whose key names no field is not looked into; [asdict] makes none. *)
Definition kwarg_unwritable (k : kwarg) : option exn :=
  match k with
  | KUserId v | KRoomNumber v | KAttempts v =>
      if int_writable v then None else Some ValueError
  | KDescription v | KBuggySnippet v | KCorrectSnippet v =>
      if encodable v then None else Some UnicodeEncodeError
  | KIsComplete _ | KOther => None
  end.

Fixpoint dict_unwritable (d : kwargs) : option exn :=
  match d with
  | [] => None
  | k :: rest =>
      match kwarg_unwritable k with
      | Some x => Some x
      | None => dict_unwritable rest
      end
  end.

(** The exception that stops the write, if any: the members are written in
    order, the key first. *)
Fixpoint dump_error (sessions_to_save : list (Z * kwargs)) : option exn :=
  match sessions_to_save with
  | [] => None
  | (key, d) :: rest =>
      if int_writable key
      then match dict_unwritable d with
           | Some x => Some x
           | None => dump_error rest
           end
      else Some ValueError
  end.

(** [json.dump(sessions_to_save, f, ensure_ascii=False, indent=4)] on the
    file just opened with mode "w" and UTF-8 encoding: the integer keys are
    written as text; an integer that is too long or a string that cannot be
    encoded raises in the middle of the write and leaves a truncated
    document behind. *)
Definition json_dump (sessions_to_save : list (Z * kwargs)) : M unit :=
  match dump_error sessions_to_save with
  | None =>
      modify (with_file
        (JsonObject ((fun kv => (py_str kv.1, EntryDict kv.2)) <$> sessions_to_save)))
  | Some x => modify (with_file NotJson) ;; raise x
  end.

(** [save_sessions_to_file]: [except Exception] catches everything. *)
Definition save_sessions_to_file : M unit :=
  try_except
    (let* sessions := gets user_sessions in
     json_dump (map_to_list (asdict <$> sessions)) ;;
     modify (with_log InfoSaved))
    (fun _ => true)
    (modify (with_log ErrorSaveFailed)).

Inductive json_document :=
| DocOther
| DocObject (items : list (pystr * file_entry)).

(** [json.load] reads an integer literal with [int], which refuses one of
    more digits than the limit.  A value that is not looked into is taken to
    hold no such literal. *)
Definition kwarg_readable (k : kwarg) : bool :=
  match k with
  | KUserId v | KRoomNumber v | KAttempts v => int_writable v
  | _ => true
  end.

Definition entry_readable (session_data : file_entry) : bool :=
  match session_data with
  | EntryDict d => forallb kwarg_readable d
  | EntryOther => true
  end.

(** [open(USER_SESSIONS_FILE, "r", encoding="utf-8")] and [json.load(f)] *)
Definition json_load : M json_document := fun w =>
  match session_file w with
  | Missing => (Raised FileNotFoundError, w)
  | NotUtf8 => (Raised UnicodeDecodeError, w)
  | NotJson => (Raised JSONDecodeError, w)
  | JsonOther => (Returned DocOther, w)
  | JsonObject members =>
      if forallb (fun member : pystr * file_entry => entry_readable member.2) members
      then (Returned (DocObject (dict_items members)), w)
      else (Raised ValueError, w)
  end.

Definition path_exists (w : world) : bool :=
  match session_file w with Missing => false | _ => true end.

(** [RoomSession] applied to one member value of the file. *)
Definition session_of_entry (session_data : file_entry) : M RoomSession :=
  match session_data with
  | EntryOther => raise TypeError
  | EntryDict d =>
      match RoomSession_of_kwargs d with
      | inl err => raise err
      | inr s => mret s
      end
  end.

(** [int(uid)] *)
Definition int_of_key (uid : pystr) : M Z :=
  match py_int uid with
  | None => raise ValueError
  | Some k => mret k
  end.

(** The loop [for uid, session_data in sessions_from_file.items()].  In
    [user_sessions[int(uid)] = RoomSession(...)] Python evaluates the right
    side first. *)
Fixpoint load_items (items : list (pystr * file_entry)) : M unit :=
  match items with
  | [] => mret tt
  | (uid, session_data) :: rest =>
      let* session := session_of_entry session_data in
      let* key := int_of_key uid in
      modify (with_sessions <[key := session]>) ;;
      load_items rest
  end.

(** [load_sessions_from_file]: only [FileNotFoundError] and
    [json.JSONDecodeError] are caught. *)
Definition load_sessions_from_file : M unit :=
  try_except
    (let* present := gets path_exists in
     if present
     then let* sessions_from_file := json_load in
          match sessions_from_file with
          | DocOther => raise AttributeError
          | DocObject items =>
              load_items items ;;
              let* n := gets (fun w => size (user_sessions w)) in
              modify (with_log (InfoLoaded n))
          end
     else mret tt)
    (fun e => match e with
              | FileNotFoundError | JSONDecodeError => true
              | _ => false
              end)
    (modify (with_log ErrorLoadFailed) ;;
     modify (with_sessions (fun _ => ∅))).

(** [cleanup_session] *)
Definition cleanup_session (uid : Z) : M unit :=
  modify (with_sessions (delete uid)) ;;
  save_sessions_to_file ;;
  modify (with_log (InfoCleanedUp uid)).

(** ** The handler tasks *)

(** The assignments [session.field = ...] act on the object that
    [user_sessions] holds for the user. *)
Definition update_session (uid : Z) (f : RoomSession -> RoomSession) : M unit :=
  modify (with_sessions (alter f uid)).

Definition lookup_session (uid : Z) : M (option RoomSession) :=
  gets (fun w => user_sessions w !! uid).

(** Reading an attribute of [session]: [None] has none. *)
Definition attribute_of (session : option RoomSession) : M RoomSession :=
  match session with
  | Some s => mret s
  | None => raise AttributeError
  end.

Definition answer_is_room (response : api_json) : option kwargs :=
  match response with
  | ApiDict d => if has_room_keys d then Some d else None
  | _ => None
  end.

(** [enter_castle_task] *)
Definition enter_castle_task (e : env) (uid : Z) : M unit :=
  send_chat_action uid ;;
  let* response := call_groq_api_json e (GenerateRoom 1) in
  match answer_is_room response with
  | Some d =>
      match RoomSession_for_user uid d with
      | inl err => raise err
      | inr session =>
          modify (with_sessions <[uid := session]>) ;;
          save_sessions_to_file ;;
          reply_text uid (RoomMessage (room_number session) (description session)
                                      (buggy_snippet session))
      end
  | None =>
      modify (with_log ErrorNoValidRoom) ;;
      reply_text uid GateLocked
  end.

(** [hint_task] *)
Definition hint_task (e : env) (uid : Z) : M unit :=
  let* session := lookup_session uid in
  send_chat_action uid ;;
  let* s := attribute_of session in
  let* hint_text := call_groq_api_text e (GenerateHint (buggy_snippet s) (correct_snippet s)) in
  match hint_text with
  | Some (c :: hint) => reply_text uid (HintWhisper (c :: hint))
  | _ => reply_text uid GhostsSilent
  end.

Definition FINAL_ROOM : Z := 5.

(** [code_submission_task] *)
Definition code_submission_task (e : env) (uid : Z) (text : pystr) : M unit :=
  let* session := lookup_session uid in
  let user_code := normalize_code text in
  let* s := attribute_of session in
  let correct_code := normalize_code (correct_snippet s) in
  if decide (user_code = correct_code) then
    let room := room_number s + 1 in
    update_session uid (fun s => set_room_number (room_number s + 1) s) ;;
    update_session uid (set_attempts 0) ;;
    if FINAL_ROOM <? room then
      reply_text uid Victory ;;
      cleanup_session uid
    else
      send_chat_action uid ;;
      reply_text uid (RoomComplete (choice e `mod` 10)%nat room) ;;
      let* response := call_groq_api_json e (GenerateRoom room) in
      match answer_is_room response with
      | Some d =>
          update_session uid (set_description (default [] (get_description d))) ;;
          update_session uid (set_buggy_snippet (default [] (get_buggy_snippet d))) ;;
          update_session uid (set_correct_snippet (default [] (get_correct_snippet d))) ;;
          save_sessions_to_file ;;
          reply_text uid (RoomMessage room (default [] (get_description d))
                                      (default [] (get_buggy_snippet d)))
      | None =>
          modify (with_log (ErrorInvalidStructure room)) ;;
          reply_text uid CastleCollapsing ;;
          cleanup_session uid
      end
  else
    update_session uid (fun s => set_attempts (attempts s + 1) s) ;;
    save_sessions_to_file ;;
    reply_text uid StillBugged.

(** ** The message router *)

(** The texts of the four keyboard buttons. *)
Definition ENTER_CASTLE : pystr :=
  [127918; 32; 1608; 1585; 1608; 1583; 32; 1576; 1607; 32; 1602; 1604; 1593; 1607]%N.
Definition GET_HINT : pystr :=
  [128161; 32; 1583; 1585; 1740; 1575; 1601; 1578; 32; 1585; 1575; 1607; 1606; 1605;
   1575; 1740; 1740]%N.
Definition LEAVE_GAME : pystr :=
  [128682; 32; 1578; 1585; 1705; 32; 1576; 1575; 1586; 1740]%N.
Definition MY_PROGRESS : pystr :=
  [128202; 32; 1662; 1740; 1588; 1585; 1601; 1578; 32; 1605; 1606]%N.

(** The coroutine the router decides to run. *)
Inductive task :=
| EnterCastle
| Hint
| CodeSubmission (text : pystr).

Definition run_task (e : env) (uid : Z) (t : task) : M unit :=
  match t with
  | EnterCastle => enter_castle_task e uid
  | Hint => hint_task e uid
  | CodeSubmission text => code_submission_task e uid text
  end.

(** [session and not session.is_complete] *)
Definition active (session : option RoomSession) : bool :=
  match session with
  | Some s => negb (is_complete s)
  | None => false
  end.

(** The [if]/[elif] chain of [message_router]: it answers at once or names
    the task to run. *)
Definition select_task (uid : Z) (text : pystr) : M (option task) :=
  let* session := lookup_session uid in
  if decide (text = ENTER_CASTLE) then
    match session with
    | Some s =>
        if negb (is_complete s) then
          reply_text uid WelcomeBack ;;
          reply_text uid (RoomMessage (room_number s) (description s) (buggy_snippet s)) ;;
          mret None
        else mret (Some EnterCastle)
    | None => mret (Some EnterCastle)
    end
  else if decide (text = GET_HINT) then
    if active session then mret (Some Hint)
    else reply_text uid GhostsOnlyInside ;; mret None
  else if decide (text = LEAVE_GAME) then
    match session with
    | Some _ => cleanup_session uid ;; reply_text uid LeftCastle ;; mret None
    | None => reply_text uid OutsideCastle ;; mret None
    end
  else if decide (text = MY_PROGRESS) then
    match session with
    | Some s =>
        if is_complete s then reply_text uid OutsideCastle ;; mret None
        else reply_text uid (ProgressScroll (room_number s) (attempts s)) ;; mret None
    | None => reply_text uid OutsideCastle ;; mret None
    end
  else
    if active session then mret (Some (CodeSubmission text))
    else reply_text uid EchoLost ;; mret None.

(** [user_processing_status.get(user_id)] as a condition *)
Definition is_busy (uid : Z) (w : world) : bool :=
  default false (user_processing_status w !! uid).

Definition mark_busy (uid : Z) (b : bool) : M unit :=
  modify (with_status <[uid := b]>).

(** The tail of [message_router]: the flag is set, the task awaited inside
    [try], and the flag cleared in [finally]. *)
Definition run_gated (e : env) (uid : Z) (t : task) : M unit :=
  mark_busy uid true ;;
  try_finally (run_task e uid t) (mark_busy uid false).

(** [message_router] *)
Definition message_router (e : env) (uid : Z) (text : pystr) : M unit :=
  let* busy := gets (is_busy uid) in
  if busy then reply_text uid StillProcessing
  else
    let* task_to_run := select_task uid text in
    match task_to_run with
    | Some t => run_gated e uid t
    | None => mret tt
    end.

(** ** The command handlers *)

(** [start_command] *)
Definition start_command (uid : Z) : M unit := reply_text uid Welcome.

(** [god_mode_command] *)
Definition god_mode_command (uid : Z) : M unit :=
  let* session := lookup_session uid in
  match session with
  | Some s =>
      if negb (is_complete s) then reply_text uid (GodModeAnswer (correct_snippet s))
      else reply_text uid NotInCastle
  | None => reply_text uid NotInCastle
  end.

(** ** Runs of the bot *)

(** What [main] registers a handler for: text that is not a command, and the
    two commands. *)
Inductive update :=
| TextMessage (text : pystr)
| StartCommand
| GodModeCommand.

Definition handle_update (e : env) (uid : Z) (u : update) : M unit :=
  match u with
  | TextMessage text => message_router e uid text
  | StartCommand => start_command uid
  | GodModeCommand => god_mode_command uid
  end.

(** One inbound event: what the generator and the random draw will answer
    while it is handled, who sent it, and the update. *)
Definition event : Type := env * Z * update.

Definition handle (ev : event) (w : world) : world :=
  world_after (handle_update ev.1.1 ev.1.2 ev.2 w).

Fixpoint run (evs : list event) (w : world) : world :=
  match evs with
  | [] => w
  | ev :: rest => run rest (handle ev w)
  end.

Definition stage (u : Z) (w : world) : option Z :=
  room_number <$> user_sessions w !! u.

(** The user's session is there, and not marked complete, in [w] and after
    every event of [evs]: one life of one session. *)
Fixpoint alive_throughout (u : Z) (evs : list event) (w : world) : Prop :=
  active (user_sessions w !! u) = true /\
  match evs with
  | [] => True
  | ev :: rest => alive_throughout u rest (handle ev w)
  end.

(** ** Tasks in flight

    Under the event loop a task that awaits the generator is suspended while
    other events are handled.  In the branches that select a task the router
    runs without suspension from its first line to the assignment that sets
    the flag; the other branches read or change the sessions before their
    first suspension and are taken as one step.  So an event either is
    answered at once or leaves a task in flight, which completes later. *)

(** [message_router] up to [user_processing_status[user_id] = True]. *)
Definition arrive (uid : Z) (text : pystr) : M (option task) :=
  let* busy := gets (is_busy uid) in
  if busy then reply_text uid StillProcessing ;; mret None
  else
    let* task_to_run := select_task uid text in
    match task_to_run with
    | Some t => mark_busy uid true ;; mret (Some t)
    | None => mret None
    end.

(** [try: await task_to_run finally: user_processing_status[user_id] = False] *)
Definition complete (e : env) (uid : Z) (t : task) : M unit :=
  try_finally (run_task e uid t) (mark_busy uid false).

Record system := mkSystem {
  sys_world : world;
  in_flight : list (Z * task)
}.

Definition launched (uid : Z) (r : outcome (option task)) : list (Z * task) :=
  match r with
  | Returned (Some t) => [(uid, t)]
  | _ => []
  end.

Inductive sys_step : system -> system -> Prop :=
| step_arrive uid text sys r w' :
    arrive uid text (sys_world sys) = (r, w') ->
    sys_step sys (mkSystem w' (launched uid r ++ in_flight sys))
| step_complete e uid t before after sys r w' :
    in_flight sys = before ++ (uid, t) :: after ->
    complete e uid t (sys_world sys) = (r, w') ->
    sys_step sys (mkSystem w' (before ++ after))
| step_start uid sys r w' :
    start_command uid (sys_world sys) = (r, w') ->
    sys_step sys (mkSystem w' (in_flight sys))
| step_god_mode uid sys r w' :
    god_mode_command uid (sys_world sys) = (r, w') ->
    sys_step sys (mkSystem w' (in_flight sys)).

(** At start-up nothing is in flight and no flag is set. *)
Definition sys_initial (sys : system) : Prop :=
  in_flight sys = [] /\ forall u, is_busy u (sys_world sys) = false.

Definition sys_reachable (sys : system) : Prop :=
  exists sys0, sys_initial sys0 /\ rtc sys_step sys0 sys.

(** ** The process across a restart *)

(** A fresh process: empty dicts, the file as it was left. *)
Definition startup (file : storage) : world :=
  mkWorld ∅ ∅ file [] [] [] [].

(** The mapping a fresh process holds after [load_sessions_from_file], when
    the previous process stopped in [w]. *)
Definition reloaded (w : world) : gmap Z RoomSession :=
  user_sessions (world_after (load_sessions_from_file (startup (session_file w)))).

(** The same when the previous process held [sessions] and ran
    [save_sessions_to_file]. *)
Definition save_then_load (sessions : gmap Z RoomSession) : gmap Z RoomSession :=
  reloaded
    (world_after (save_sessions_to_file (with_sessions (fun _ => sessions) (startup Missing)))).

(** A session that [json.dump] can write: its integers are within the
    digit limit and its texts hold no surrogate code point. *)
Definition session_writable (s : RoomSession) : bool :=
  int_writable (user_id s) && int_writable (room_number s)
  && encodable (description s) && encodable (buggy_snippet s)
  && encodable (correct_snippet s) && int_writable (attempts s).

(** What [save_sessions_to_file] leaves in the file and in the log when the
    process holds [sessions]. *)
Definition writable (sessions : gmap Z RoomSession) : bool :=
  match dump_error (map_to_list (asdict <$> sessions)) with
  | None => true
  | Some _ => false
  end.

Definition written_file (sessions : gmap Z RoomSession) : storage :=
  if writable sessions
  then JsonObject ((fun kv : Z * kwargs => (py_str kv.1, EntryDict kv.2))
                     <$> map_to_list (asdict <$> sessions))
  else NotJson.

Definition save_report (sessions : gmap Z RoomSession) : log_entry :=
  if writable sessions then InfoSaved else ErrorSaveFailed.

(** Every key and every session of the mapping can be written; some key or
    session cannot. *)
Definition all_writable (sessions : gmap Z RoomSession) : Prop :=
  forall u s, sessions !! u = Some s -> int_writable u = true /\ session_writable s = true.

Definition some_unwritable (sessions : gmap Z RoomSession) : Prop :=
  exists u s, sessions !! u = Some s /\
              (int_writable u = false \/ session_writable s = false).

(** What a save of [sessions] has left for the next start, [after] being a
    world reached without another write to the file: the mapping when all of
    it can be written, and otherwise a truncated file and an empty start. *)
Definition saved_or_lost (sessions : gmap Z RoomSession) (after : world) : Prop :=
  (all_writable sessions -> reloaded after = sessions) /\
  (some_unwritable sessions -> session_file after = NotJson /\ reloaded after = ∅).

(** The session a dict of the file stands for, when it stands for one. *)
Definition session_of_dict (d : kwargs) : RoomSession :=
  match RoomSession_of_kwargs d with
  | inr s => s
  | inl _ => mkRoomSession 0 1 [] [] [] 0 false
  end.

(** ** Vocabulary of the properties *)

(** A text that is none of the four buttons. *)
Definition free_text (text : pystr) : Prop :=
  text <> ENTER_CASTLE /\ text <> GET_HINT /\ text <> LEAVE_GAME /\ text <> MY_PROGRESS.

(** The generator failed or answered something that is not a room. *)
Definition invalid_answer (response : api_json) : Prop :=
  match response with
  | ApiNone | ApiNotDict => True
  | ApiDict d =>
      get_description d = None \/ get_buggy_snippet d = None \/ get_correct_snippet d = None
  end.

(** The generator's answer carries no [is_complete] key. *)
Definition no_completion_key (response : api_json) : Prop :=
  match response with
  | ApiDict d => get_is_complete d = None
  | _ => True
  end.

(** The submission was reported as incorrect. *)
Definition judged_incorrect (uid : Z) (before after : world) : Prop :=
  sent after = sent before ++ [(uid, StillBugged)].

(** The session after a wrong answer, after a right one, and with the content
    of the next room. *)
Definition failed_once (s : RoomSession) : RoomSession :=
  set_attempts (attempts s + 1) s.

Definition next_room (s : RoomSession) : RoomSession :=
  set_attempts 0 (set_room_number (room_number s + 1) s).

Definition with_content (d : kwargs) (s : RoomSession) : RoomSession :=
  set_correct_snippet (default [] (get_correct_snippet d))
    (set_buggy_snippet (default [] (get_buggy_snippet d))
       (set_description (default [] (get_description d)) s)).

(** The event is a right answer of user [u], holder of session [s], that the
    router lets through. *)
Definition successful_submission (u : Z) (s : RoomSession) (ev : event) (w : world) : Prop :=
  ev.1.2 = u /\ is_busy u w = false /\
  exists text, ev.2 = TextMessage text /\ free_text text /\
               normalize_code text = normalize_code (correct_snippet s).

Definition no_session_complete (w : world) : Prop :=
  forall u s, user_sessions w !! u = Some s -> is_complete s = false.

(** A computation that never writes [user_processing_status]. *)
Definition keeps_status {A} (m : M A) : Prop :=
  forall w, user_processing_status (world_after (m w)) = user_processing_status w.

(** What the gate guarantees about the tasks in flight: no user has two, and
    a user's flag is set exactly while one of that user's tasks is in flight. *)
Definition gate_invariant (sys : system) : Prop :=
  NoDup (in_flight sys).*1 /\
  forall u, is_busy u (sys_world sys) = true <-> u ∈ (in_flight sys).*1.

(** Every hint or submission task in flight still has its user's session. *)
Definition in_flight_alive (sys : system) : Prop :=
  forall uid t, (uid, t) ∈ in_flight sys -> t <> EnterCastle ->
    active (user_sessions (sys_world sys) !! uid) = true.

(** A computation that never ends in the [AttributeError] of an attribute
    read on [None]. *)
Definition no_attribute_error {A} (m : M A) : Prop :=
  forall w, exception (m w).1 <> Some AttributeError.

(** A computation whose effect on [user_sessions] stays within [R]. *)
Definition relates (R : relation (gmap Z RoomSession)) {A} (m : M A) : Prop :=
  forall w, R (user_sessions w) (user_sessions (world_after (m w))).

(** Only the session of [uid] is touched: it is deleted, or it is the old one
    changed within [keep]. *)
Definition touches_only (uid : Z) (keep : relation RoomSession)
    : relation (gmap Z RoomSession) :=
  fun before after =>
    (forall u, u <> uid -> after !! u = before !! u) /\
    (forall s', after !! uid = Some s' -> exists s, before !! uid = Some s /\ keep s s').

(** Every session but the one of [uid] is as it was. *)
Definition frame (uid : Z) : relation (gmap Z RoomSession) :=
  fun before after => forall u, u <> uid -> after !! u = before !! u.

(** The completion flag is the same in both sessions. *)
Definition same_flag : relation RoomSession :=
  fun s s' => is_complete s' = is_complete s.

(** Stage index and failed-attempt count are the same in both sessions. *)
Definition same_stage : relation RoomSession :=
  fun s s' => room_number s' = room_number s /\ attempts s' = attempts s.

(** If no session was complete before, none is after. *)
Definition keeps_incomplete : relation (gmap Z RoomSession) :=
  fun before after =>
    (forall u s, before !! u = Some s -> is_complete s = false) ->
    (forall u s, after !! u = Some s -> is_complete s = false).

(** ** Statements of the specification that the code does not meet *)

(** Section 4.4: every event of a user who is not busy is handled under the
    busy flag.  Read at its weakest: whenever the router changes the session
    store, it has set and cleared the user's flag. *)
Definition every_operation_is_gated : Prop :=
  forall e uid text w,
    is_busy uid w = false ->
    user_sessions (world_after (message_router e uid text w)) <> user_sessions w ->
    user_processing_status (world_after (message_router e uid text w)) !! uid = Some false.

(** Section 8: [saveAll] followed by [loadAll] reproduces the mapping, for any
    set of sessions. *)
Definition round_trip_for_any_sessions : Prop :=
  forall sessions, save_then_load sessions = sessions.

(** Section 4.3: on a mismatch the session is persisted: after an incorrect
    submission a fresh process finds the session with its new count. *)
Definition incorrect_submission_is_persisted : Prop :=
  forall e uid text w s,
    user_sessions w !! uid = Some s ->
    normalize_code text <> normalize_code (correct_snippet s) ->
    transport w = [] ->
    reloaded (world_after (code_submission_task e uid text w)) !! uid = Some (failed_once s).




(** No event ever leaves a session whose completion flag is set. *)
Definition completion_flag_never_set : Prop :=
  forall e uid text w,
    no_session_complete w ->
    no_session_complete (world_after (message_router e uid text w)).

(** ** The scenarios of the specification: user 42, content P1, C1, S1 *)

Definition scenario_session (room : Z) : RoomSession :=
  mkRoomSession 42 room (of_ascii "P1") (of_ascii "C1") (of_ascii "S1") 0 false.

Definition scenario_world (room : Z) : world :=
  mkWorld {[ 42 := scenario_session room ]} ∅ Missing [] [] [] [].

Definition scenario_room : kwargs :=
  [ KDescription (of_ascii "P2"); KBuggySnippet (of_ascii "C2");
    KCorrectSnippet (of_ascii "S2") ].

Definition scenario_env (answer : api_json) : env := mkEnv answer None 0.

(** The least count that has one digit more than the interpreter converts. *)
Definition overlong_count : Z := 10 ^ 4300.

(** ** Vocabulary of the properties of the remaining handlers *)

(** A computation that leaves one component of the world as it was. *)
Definition keeps {B} (field : world -> B) {A} (m : M A) : Prop :=
  forall w, field (world_after (m w)) = field w.

(** The session that [RoomSession(user_id=uid, ...)] builds from the
    answer [d] unpacked: the fields the answer names, and the defaults of the
    dataclass for the others. *)
Definition session_from_answer (uid : Z) (d : kwargs) : RoomSession :=
  {| user_id := uid;
     room_number := default 1 (get_room_number d);
     description := default [] (get_description d);
     buggy_snippet := default [] (get_buggy_snippet d);
     correct_snippet := default [] (get_correct_snippet d);
     attempts := default 0 (get_attempts d);
     is_complete := default false (get_is_complete d) |}.

(** An answer whose keys all name fields of the dataclass other than
    [user_id]. *)
Definition fits_session (d : kwargs) : Prop :=
  has_other_key d = false /\ get_user_id d = None.

(** What the router answers to a user who has no session and presses
    anything but the button that starts a game. *)
Definition no_session_reply (text : pystr) : reply :=
  if decide (text = GET_HINT) then GhostsOnlyInside
  else if decide (text = LEAVE_GAME) then OutsideCastle
  else if decide (text = MY_PROGRESS) then OutsideCastle
  else EchoLost.



(** A computation that calls the generator once at most. *)
Definition asks_at_most_once {A} (m : M A) : Prop :=
  forall w, requested (world_after (m w)) = requested w \/
            exists q, requested (world_after (m w)) = requested w ++ [q].

(** With a transport that delivers, the computation leaves the transport
    delivering and either leaves mapping and file alone or ends with the
    file holding what [save_sessions_to_file] writes for the mapping it
    leaves. *)
Definition settled {A} (m : M A) : Prop :=
  forall w, transport w = [] ->
    transport (world_after (m w)) = [] /\
    ((user_sessions (world_after (m w)) = user_sessions w /\
      session_file (world_after (m w)) = session_file w) \/
     session_file (world_after (m w)) = written_file (user_sessions (world_after (m w)))).

(** A process that stops in [w] and is started again finds the mapping it
    held. *)
Definition durable (w : world) : Prop := reloaded w = user_sessions w.

(** Every session is stored under the user it names. *)
Definition owned (sessions : gmap Z RoomSession) : Prop :=
  forall u s, sessions !! u = Some s -> user_id s = u.

Definition same_user : relation RoomSession :=
  fun s s' => user_id s' = user_id s.

Definition keeps_owned : relation (gmap Z RoomSession) :=
  fun before after => owned before -> owned after.

(** The stage is one of the rooms 1 to 5 and the count of failed attempts is
    not negative. *)
Definition in_bounds (s : RoomSession) : Prop :=
  1 <= room_number s <= FINAL_ROOM /\ 0 <= attempts s.

Definition all_in_bounds (sessions : gmap Z RoomSession) : Prop :=
  forall u s, sessions !! u = Some s -> in_bounds s.

(** The generator's answer names no stage outside 1 to 5 and no negative
    count of attempts; an answer without these two keys is of this kind. *)
Definition answer_in_bounds (response : api_json) : Prop :=
  match response with
  | ApiDict d =>
      1 <= default 1 (get_room_number d) <= FINAL_ROOM /\ 0 <= default 0 (get_attempts d)
  | _ => True
  end.

(** The answer to [/godmode]. *)
Definition god_mode_reply (session : option RoomSession) : reply :=
  match session with
  | Some s => if is_complete s then NotInCastle else GodModeAnswer (correct_snippet s)
  | None => NotInCastle
  end.

(** The event is a text of user [uid] that is no button and differs from the
    solution of [s] after normalisation. *)
Definition wrong_answer (uid : Z) (s : RoomSession) (ev : event) : Prop :=
  ev.1.2 = uid /\
  exists text, ev.2 = TextMessage text /\ free_text text /\
               normalize_code text <> normalize_code (correct_snippet s).

(** A member of the session file that [load_sessions_from_file] can turn
    into an entry of the mapping: its value is a dict whose keys all name
    fields of the dataclass, [user_id] among them, and its key is text that
    [int] reads. *)
Definition loadable (member : pystr * file_entry) : bool :=
  match member.2 with
  | EntryDict d =>
      negb (has_other_key d) && bool_decide (is_Some (get_user_id d))
      && bool_decide (is_Some (py_int member.1))
  | EntryOther => false
  end.

(** ** The content gateway

    [call_groq_api] itself, which the handlers above take as an oracle.  The
    HTTP exchange is an input: what [client.post] and [raise_for_status] do,
    and what [response.json()] returns.  [json.loads] and the floating-point
    numbers of JSON are parameters.  Only exceptions below [Exception] are
    considered. *)

Module Gateway.

(** What is raised inside the [try] block. *)
Inductive error :=
| HTTPStatusError
| RequestError
| AttributeError
| KeyError
| IndexError
| TypeError
| JSONDecodeError
| OtherError.

(** The lines [call_groq_api] writes to the log. *)
Inductive log_line :=
| UnexpectedStructure
| ParseFailed
| HttpError
| RequestFailed
| UnexpectedError.

Section Gateway.

Context {float : Type} (float_is_zero : float -> bool).

(** A value decoded from JSON; [JNull] is Python's [None].  A dict is the
    list of its members, the last one winning when a key is repeated. *)
#[warnings="-register-all"] Inductive json :=
| JNull
| JBool (b : bool)
| JInt (n : Z)
| JFloat (f : float)
| JStr (s : pystr)
| JList (items : list json)
| JDict (members : list (pystr * json)).

(** The truth value of [v] in a condition. *)
Definition truthy (v : json) : bool :=
  match v with
  | JNull => false
  | JBool b => b
  | JInt n => negb (n =? 0)
  | JFloat f => negb (float_is_zero f)
  | JStr [] | JList [] | JDict [] => false
  | JStr _ | JList _ | JDict _ => true
  end.

Definition dict_lookup (key : pystr) (members : list (pystr * json)) : option json :=
  last (omap (fun kv : pystr * json => if decide (kv.1 = key) then Some kv.2 else None)
             members).

(** [v.get(key)] *)
Definition get (v : json) (key : pystr) : error + json :=
  match v with
  | JDict members => inr (default JNull (dict_lookup key members))
  | _ => inl AttributeError
  end.

(** [v[key]] for a key that is a string *)
Definition item (v : json) (key : pystr) : error + json :=
  match v with
  | JDict members =>
      match dict_lookup key members with
      | Some x => inr x
      | None => inl KeyError
      end
  | _ => inl TypeError
  end.

(** [v[0]] *)
Definition first (v : json) : error + json :=
  match v with
  | JList (x :: _) => inr x
  | JStr (c :: _) => inr (JStr [c])
  | JList [] | JStr [] => inl IndexError
  | JDict _ => inl KeyError
  | _ => inl TypeError
  end.

(** The exchange with the service. *)
Inductive exchange :=
| PostRaises (x : error)                       (* [client.post] raised *)
| Answered (success : bool)                    (* whether [raise_for_status] returns *)
           (body : error + json).              (* what [response.json()] does *)

(** [json.loads] applied to a string. *)
Context (loads : pystr -> error + json).

(** [json.loads(v)]: anything but a string is a [TypeError]. *)
Definition json_loads (v : json) : error + json :=
  match v with
  | JStr s => loads s
  | _ => inl TypeError
  end.

Definition and_then {A B} (r : error + A) (k : A -> error + B) : error + B :=
  match r with
  | inl x => inl x
  | inr a => k a
  end.

(** The body of the [try] block: the lines logged and the value returned, or
    the exception that reaches the [except] clauses. *)
Definition attempt (expect_json : bool) (x : exchange) : error + (list log_line * json) :=
  match x with
  | PostRaises err => inl err
  | Answered success body =>
      if negb success then inl HTTPStatusError
      else
        and_then body (fun data =>
        and_then (get data (of_ascii "choices")) (fun choices =>
        if negb (truthy choices) then inr ([UnexpectedStructure], JNull)
        else
          and_then (item data (of_ascii "choices")) (fun choices =>
          and_then (first choices) (fun choice =>
          and_then (get choice (of_ascii "message")) (fun message =>
          if negb (truthy message) then inr ([UnexpectedStructure], JNull)
          else
            and_then (item data (of_ascii "choices")) (fun choices =>
            and_then (first choices) (fun choice =>
            and_then (item choice (of_ascii "message")) (fun message =>
            and_then (item message (of_ascii "content")) (fun message_content =>
            if expect_json then
              match json_loads message_content with
              | inr v => inr ([], v)
              | inl JSONDecodeError => inr ([ParseFailed], JNull)
              | inl err => inl err
              end
            else inr ([], message_content))))))))))
  end.

(** [call_groq_api]: the three [except] clauses log and fall through to
    [return None]. *)
Definition call_groq_api (expect_json : bool) (x : exchange) : list log_line * json :=
  match attempt expect_json x with
  | inr result => result
  | inl HTTPStatusError => ([HttpError], JNull)
  | inl RequestError => ([RequestFailed], JNull)
  | inl _ => ([UnexpectedError], JNull)
  end.

End Gateway.

Arguments json : clear implicits.
Arguments exchange : clear implicits.

End Gateway.

(** * Properties *)

(** ** Normalisation *)

Lemma join_split_from (code word : pystr) :
  join_empty (split_from word code) = word ++ remove_whitespace code.
Proof.
  revert word. induction code as [|c rest IH]; intros word; cbn [split_from].
  - destruct word; cbn; [reflexivity|]. by rewrite !app_nil_r.
  - unfold remove_whitespace in *. rewrite filter_cons.
    destruct (is_space c) eqn:Hc.
    + rewrite decide_False by discriminate.
      destruct word as [|a word'].
      * apply IH.
      * unfold join_empty in *. cbn [concat]. rewrite IH. reflexivity.
    + rewrite decide_True by reflexivity.
      rewrite IH, <- app_assoc. reflexivity.
Qed.

Lemma normalize_code_removes_whitespace (code : pystr) :
  normalize_code code = remove_whitespace code.
Proof. unfold normalize_code, split. by rewrite join_split_from. Qed.

(** ** Integers written as text are read back *)

Lemma digits_tail_of_uint (d : Decimal.uint) : digits_tail (digits_of_uint d) = Some d.
Proof. induction d; cbn; [reflexivity | by rewrite IHd ..]. Qed.

Lemma digits_of_uint_read (d : Decimal.uint) :
  d <> Decimal.Nil -> digits (digits_of_uint d) = Some d.
Proof. destruct d; [done | intros _; cbn; by rewrite digits_tail_of_uint ..]. Qed.

Lemma digits_of_uint_inj (d d' : Decimal.uint) :
  digits_of_uint d = digits_of_uint d' -> d = d'.
Proof.
  intros Heq. apply (f_equal digits_tail) in Heq.
  rewrite !digits_tail_of_uint in Heq. congruence.
Qed.

Lemma digits_of_uint_no_space (d : Decimal.uint) :
  Forall (fun c => is_ascii_space c = false) (digits_of_uint d).
Proof. induction d; cbn; by constructor. Qed.

Lemma digits_of_uint_ascii (d : Decimal.uint) :
  to_ascii <$> digits_of_uint d = digits_of_uint d.
Proof. induction d; cbn; [reflexivity | by rewrite IHd ..]. Qed.

Lemma lstrip_no_space (s : pystr) :
  Forall (fun c => is_ascii_space c = false) s -> lstrip s = s.
Proof. destruct 1 as [|c rest Hc _]; cbn; [reflexivity | by rewrite Hc]. Qed.

Lemma strip_no_space (s : pystr) :
  Forall (fun c => is_ascii_space c = false) s -> strip s = s.
Proof.
  intros Hs. unfold strip. rewrite (lstrip_no_space s Hs).
  rewrite lstrip_no_space by (by apply Forall_reverse).
  apply reverse_involutive.
Qed.

Lemma to_int_nonnil (n : Z) (d : Decimal.uint) :
  Z.to_int n = Decimal.Pos d \/ Z.to_int n = Decimal.Neg d -> d <> Decimal.Nil.
Proof.
  intros [Hn | Hn]; destruct n; cbn in Hn; try discriminate; injection Hn as <-;
    first [discriminate | apply DecimalPos.Unsigned.to_uint_nonnil].
Qed.

(** An integer within the digit limit is read back from its text. *)
Lemma py_int_py_str (n : Z) : int_writable n = true -> py_int (py_str n) = Some n.
Proof.
  intros Hn.
  transitivity (Some (Z.of_int (Z.to_int n))); [|by rewrite DecimalZ.of_to].
  unfold py_int, py_str, int_writable, str_digits in *.
  destruct (Z.to_int n) as [d|d] eqn:Hd.
  - pose proof (to_int_nonnil n d (or_introl Hd)) as Hnil.
    rewrite digits_of_uint_ascii.
    rewrite strip_no_space by apply digits_of_uint_no_space.
    pose proof (digits_of_uint_read d Hnil) as Hread.
    assert (read_int Decimal.Pos (digits_of_uint d) = Some (Z.of_int (Decimal.Pos d))) as Hint
      by (unfold read_int; by rewrite Hread, Hn).
    destruct d; [done | cbn in *; exact Hint ..].
  - pose proof (to_int_nonnil n d (or_intror Hd)) as Hnil.
    rewrite fmap_cons, digits_of_uint_ascii. change (to_ascii 45) with 45%N.
    rewrite strip_no_space by (constructor; [done | apply digits_of_uint_no_space]).
    unfold read_int. by rewrite (digits_of_uint_read d Hnil), Hn.
Qed.

Lemma py_str_inj (n n' : Z) : py_str n = py_str n' -> n = n'.
Proof.
  intros Heq.
  rewrite <- (DecimalZ.of_to n), <- (DecimalZ.of_to n'). f_equal.
  unfold py_str in Heq.
  destruct (Z.to_int n) as [d|d], (Z.to_int n') as [d'|d'].
  - f_equal. by apply digits_of_uint_inj.
  - destruct d; discriminate.
  - destruct d'; discriminate.
  - injection Heq as Heq. f_equal. by apply digits_of_uint_inj.
Qed.

(** ** Running the primitives *)

Lemma alter_found {V} (m : gmap Z V) (k : Z) (f : V -> V) (v : V) :
  m !! k = Some v -> alter f k m = <[k := f v]> m.
Proof.
  intros Hk. apply map_eq. intros j. rewrite lookup_alter, lookup_insert.
  destruct (decide (k = j)) as [<-|]; [by rewrite Hk | done].
Qed.

Lemma delete_alter_same {V} (m : gmap Z V) (k : Z) (f : V -> V) :
  delete k (alter f k m) = delete k m.
Proof.
  apply map_eq. intros j. rewrite !lookup_delete, lookup_alter.
  destruct (decide (k = j)); done.
Qed.

Lemma save_sessions_to_file_run (w : world) :
  save_sessions_to_file w =
  (Returned tt,
   with_log (save_report (user_sessions w)) (with_file (written_file (user_sessions w)) w)).
Proof.
  unfold save_sessions_to_file, try_except, bind, gets, json_dump, mbind, M_bind, bind,
    save_report, written_file, writable.
  cbn beta iota.
  destruct (dump_error _); reflexivity.
Qed.

Lemma cleanup_session_run (uid : Z) (w : world) :
  cleanup_session uid w =
  (Returned tt,
   with_log (InfoCleanedUp uid)
     (with_log (save_report (delete uid (user_sessions w)))
        (with_file (written_file (delete uid (user_sessions w)))
           (with_sessions (delete uid) w)))).
Proof.
  unfold cleanup_session, mbind, M_bind, bind, modify.
  rewrite save_sessions_to_file_run. reflexivity.
Qed.

Lemma transport_call_delivers (uid : Z) (r : reply) (w : world) :
  transport w = [] -> transport_call uid r w = (Returned tt, with_sent uid r w).
Proof. unfold transport_call. by intros ->. Qed.

(** Unfolds the monadic glue of a handler applied to a world. *)
Ltac unfold_handler :=
  unfold lookup_session, update_session, reply_text, send_chat_action,
    call_groq_api_json, call_groq_api_text, mark_busy,
    mbind, M_bind, bind, gets, modify, mret, M_ret, raise.

Ltac open_world w :=
  destruct w;
  cbv beta iota delta
    [with_sent with_log with_file with_sessions with_status with_request with_transport
     user_sessions user_processing_status session_file logged sent requested transport]
    in *;
  subst.

(** Reads the fields of a world that is given by its constructor or by the
    field updates. *)
Ltac fields :=
  unfold world_after;
  cbn [fst snd with_sent with_log with_file with_sessions with_status with_request
       with_transport user_sessions user_processing_status session_file logged sent
       requested transport].

(** ** Saving and loading *)

Lemma RoomSession_of_asdict (s : RoomSession) : RoomSession_of_kwargs (asdict s) = inr s.
Proof. by destruct s. Qed.

Lemma session_of_asdict (s : RoomSession) : session_of_dict (asdict s) = s.
Proof. unfold session_of_dict. by rewrite RoomSession_of_asdict. Qed.

Lemma dict_unwritable_asdict (s : RoomSession) :
  dict_unwritable (asdict s) = None <-> session_writable s = true.
Proof.
  unfold session_writable. cbn.
  destruct (int_writable (user_id s)), (int_writable (room_number s)),
    (encodable (description s)), (encodable (buggy_snippet s)),
    (encodable (correct_snippet s)), (int_writable (attempts s)); cbn; by split.
Qed.

Lemma dict_unwritable_readable (d : kwargs) :
  dict_unwritable d = None -> forallb kwarg_readable d = true.
Proof.
  induction d as [|k d IH]; [done|]. cbn.
  destruct k; cbn; try exact IH;
    (destruct (int_writable v) || destruct (encodable v)); cbn; done || exact IH.
Qed.

Lemma dump_error_none (l : list (Z * kwargs)) :
  dump_error l = None <->
  Forall (fun kv => int_writable kv.1 = true /\ dict_unwritable kv.2 = None) l.
Proof.
  induction l as [|[key d] l IH]; cbn; [by split|].
  rewrite Forall_cons, <- IH. cbn.
  destruct (int_writable key); [|split; [done | by intros [[? _] _]]].
  destruct (dict_unwritable d); [split; [done | by intros [[_ ?] _]]|].
  tauto.
Qed.

Lemma dict_set_fresh {V} (k : pystr) (v : V) (d : list (pystr * V)) :
  k ∉ d.*1 -> dict_set k v d = d ++ [(k, v)].
Proof.
  induction d as [|[k' v'] d IH]; cbn; [done|].
  intros Hk. apply not_elem_of_cons in Hk as [Hne Hk].
  rewrite decide_False by done. by rewrite IH.
Qed.

Lemma dict_items_from {V} (l acc : list (pystr * V)) :
  NoDup (acc ++ l).*1 ->
  foldl (fun d kv => dict_set kv.1 kv.2 d) acc l = acc ++ l.
Proof.
  revert acc. induction l as [|[k v] l IH]; intros acc Hnd; cbn.
  - by rewrite app_nil_r.
  - rewrite dict_set_fresh.
    + rewrite IH; rewrite <- app_assoc; [done|exact Hnd].
    + rewrite fmap_app in Hnd. apply NoDup_app in Hnd as (_ & Hsep & _).
      intros Hin. apply (Hsep k Hin). cbn. by left.
Qed.

Lemma dict_items_nodup {V} (l : list (pystr * V)) : NoDup l.*1 -> dict_items l = l.
Proof. intros Hnd. unfold dict_items. by rewrite dict_items_from. Qed.

Lemma with_sessions_twice (f g : gmap Z RoomSession -> gmap Z RoomSession) (w : world) :
  with_sessions f (with_sessions g w) = with_sessions (fun m => f (g m)) w.
Proof. by destruct w. Qed.

Lemma load_items_written (l : list (Z * kwargs)) (w : world) :
  Forall (fun kv => int_writable kv.1 = true /\ exists s, kv.2 = asdict s) l ->
  load_items ((fun kv : Z * kwargs => (py_str kv.1, EntryDict kv.2)) <$> l) w =
  (Returned tt,
   with_sessions
     (fun m0 => foldl (fun acc kv => <[kv.1 := session_of_dict kv.2]> acc) m0 l) w).
Proof.
  intros Hl. revert w. induction Hl as [|[k d] l (Hk & s & Hd) _ IH]; intros w.
  - by destruct w.
  - cbn [fmap list_fmap load_items fst snd foldl] in *. subst d.
    unfold session_of_entry, int_of_key, mbind, M_bind, bind, modify.
    rewrite RoomSession_of_asdict, (py_int_py_str _ Hk). cbn [mret M_ret].
    rewrite IH, with_sessions_twice. by rewrite session_of_asdict.
Qed.

Lemma foldl_insert_list_to_map {V V'} (f : V -> V') (l : list (Z * V)) (m0 : gmap Z V') :
  NoDup l.*1 ->
  foldl (fun acc kv => <[kv.1 := f kv.2]> acc) m0 l = (f <$> list_to_map l) ∪ m0.
Proof.
  revert m0. induction l as [|[k v] l IH]; intros m0 Hnd.
  - cbn. by rewrite fmap_empty, (left_id_L ∅ (∪)).
  - rewrite fmap_cons in Hnd. apply NoDup_cons in Hnd as [Hk Hnd].
    cbn [foldl list_to_map foldr fst snd uncurry] in *. rewrite IH by done.
    change (list_to_map ((k, v) :: l)) with (<[k := v]> (list_to_map l : gmap Z V)).
    rewrite fmap_insert, <- insert_union_l.
    symmetry. apply insert_union_r. rewrite lookup_fmap.
    by rewrite (not_elem_of_list_to_map_1 _ _ Hk).
Qed.

(** The save succeeds exactly when every key and every session of the
    mapping can be written. *)
Lemma writable_sessions (sessions : gmap Z RoomSession) :
  writable sessions = true <->
  forall u s, sessions !! u = Some s -> int_writable u = true /\ session_writable s = true.
Proof.
  unfold writable.
  transitivity (dump_error (map_to_list (asdict <$> sessions)) = None);
    [by destruct (dump_error _)|].
  rewrite dump_error_none, Forall_forall. split.
  - intros Hall u s Hs. specialize (Hall (u, asdict s)). cbn [fst snd] in Hall.
    rewrite dict_unwritable_asdict in Hall. apply Hall.
    apply elem_of_map_to_list. by rewrite lookup_fmap, Hs.
  - intros Hall [k d] Hkd. apply elem_of_map_to_list in Hkd.
    rewrite lookup_fmap in Hkd.
    destruct (sessions !! k) as [s|] eqn:Hs; [|done]. cbn in Hkd. injection Hkd as <-.
    cbn [fst snd]. rewrite dict_unwritable_asdict. by apply Hall.
Qed.

Lemma not_writable_sessions (sessions : gmap Z RoomSession) (u : Z) (s : RoomSession) :
  sessions !! u = Some s ->
  int_writable u = false \/ session_writable s = false ->
  writable sessions = false.
Proof.
  intros Hs Hbad. destruct (writable sessions) eqn:Hw; [|reflexivity].
  destruct (proj1 (writable_sessions sessions) Hw u s Hs) as [Hu Hsession].
  destruct Hbad; congruence.
Qed.

Lemma written_members_are_sessions (sessions : gmap Z RoomSession) :
  writable sessions = true ->
  Forall (fun kv : Z * kwargs => int_writable kv.1 = true /\ exists s, kv.2 = asdict s)
         (map_to_list (asdict <$> sessions)).
Proof.
  intros Hw. apply Forall_forall. intros [k d] Hkd. apply elem_of_map_to_list in Hkd.
  rewrite lookup_fmap in Hkd.
  destruct (sessions !! k) as [s|] eqn:Hs; [|done]. cbn in *. split.
  - by destruct (proj1 (writable_sessions sessions) Hw k s Hs).
  - exists s. congruence.
Qed.

Lemma written_members_readable (sessions : gmap Z RoomSession) :
  writable sessions = true ->
  forallb (fun member : pystr * file_entry => entry_readable member.2)
    ((fun kv : Z * kwargs => (py_str kv.1, EntryDict kv.2))
       <$> map_to_list (asdict <$> sessions)) = true.
Proof.
  intros Hw. apply forallb_forall. intros member Hin.
  apply list_elem_of_In, list_elem_of_fmap in Hin as ([k d] & -> & Hkd). cbn.
  apply dict_unwritable_readable.
  unfold writable in Hw. destruct (dump_error _) eqn:Herr; [done|].
  apply dump_error_none in Herr. rewrite Forall_forall in Herr.
  by destruct (Herr _ Hkd).
Qed.

Lemma written_keys_nodup (l : list (Z * kwargs)) :
  NoDup l.*1 ->
  NoDup ((fun kv : Z * kwargs => (py_str kv.1, EntryDict kv.2)) <$> l).*1.
Proof.
  intros Hnd. rewrite <- list_fmap_compose.
  assert ((fst ∘ (fun kv : Z * kwargs => (py_str kv.1, EntryDict kv.2))) <$> l
          = py_str <$> l.*1) as ->
    by (rewrite <- list_fmap_compose; by apply list_fmap_ext).
  apply NoDup_fmap_2; [|done]. intros n n'. apply py_str_inj.
Qed.

Lemma load_written_file (sessions : gmap Z RoomSession) :
  writable sessions = true ->
  user_sessions (world_after (load_sessions_from_file (startup (written_file sessions))))
  = sessions.
Proof.
  intros Hw. unfold written_file. rewrite Hw.
  unfold load_sessions_from_file, try_except, bind, gets, path_exists, json_load, startup.
  cbn [session_file].
  rewrite (written_members_readable _ Hw).
  rewrite dict_items_nodup by apply written_keys_nodup, NoDup_fst_map_to_list.
  unfold mbind, M_bind, bind.
  rewrite load_items_written by (by apply written_members_are_sessions).
  unfold modify, world_after. cbn [snd with_log with_sessions user_sessions].
  rewrite foldl_insert_list_to_map by apply NoDup_fst_map_to_list.
  rewrite list_to_map_to_list, (right_id_L ∅ (∪)), <- map_fmap_compose.
  rewrite <- (map_fmap_id sessions) at 2. apply map_fmap_ext.
  intros k s _. apply session_of_asdict.
Qed.

Lemma reloaded_written (w : world) (sessions : gmap Z RoomSession) :
  session_file w = written_file sessions ->
  reloaded w = if writable sessions then sessions else ∅.
Proof.
  intros Hf. unfold reloaded. rewrite Hf.
  destruct (writable sessions) eqn:Hw; [by apply load_written_file|].
  unfold written_file. by rewrite Hw.
Qed.

Lemma reloaded_without (w : world) (sessions : gmap Z RoomSession) (uid : Z) :
  session_file w = written_file (delete uid sessions) ->
  reloaded w !! uid = None.
Proof.
  intros Hf. rewrite (reloaded_written _ _ Hf).
  destruct (writable _); [apply lookup_delete_eq | apply lookup_empty].
Qed.

Lemma save_then_load_unfold (sessions : gmap Z RoomSession) :
  save_then_load sessions = if writable sessions then sessions else ∅.
Proof.
  unfold save_then_load. apply reloaded_written.
  by rewrite save_sessions_to_file_run.
Qed.

Lemma all_writable_writable (sessions : gmap Z RoomSession) :
  all_writable sessions <-> writable sessions = true.
Proof. symmetry. apply writable_sessions. Qed.

Lemma some_unwritable_writable (sessions : gmap Z RoomSession) :
  some_unwritable sessions -> writable sessions = false.
Proof. intros (u & s & Hs & Hbad). by apply (not_writable_sessions _ u s). Qed.

Lemma written_file_outcome (sessions : gmap Z RoomSession) (w : world) :
  session_file w = written_file sessions -> saved_or_lost sessions w.
Proof.
  intros Hf. split.
  - intros Hall. rewrite (reloaded_written _ _ Hf).
    by rewrite (proj1 (all_writable_writable _) Hall).
  - intros Hbad. apply some_unwritable_writable in Hbad.
    rewrite (reloaded_written _ _ Hf), Hf. unfold written_file. by rewrite Hbad.
Qed.

Lemma save_report_outcome (sessions : gmap Z RoomSession) :
  (all_writable sessions -> save_report sessions = InfoSaved) /\
  (some_unwritable sessions -> save_report sessions = ErrorSaveFailed).
Proof.
  unfold save_report. split.
  - intros Hall. by rewrite (proj1 (all_writable_writable _) Hall).
  - intros Hbad. by rewrite (some_unwritable_writable _ Hbad).
Qed.

(** C7 as the code has it.  When every key and every session of the mapping
    can be written (the user ids, stage indices and attempt counts have 4300
    decimal digits at most, and the prompt, challenge and solution texts
    hold no surrogate code point), saving the mapping and loading the file
    in a fresh process gives back the same mapping: same keys, and every
    field of every session.  When some key or session cannot be written,
    the write stops there, and the fresh process starts with an empty
    mapping. *)
Theorem C7_round_trip_of_writable_sessions (sessions : gmap Z RoomSession) :
  (all_writable sessions -> save_then_load sessions = sessions) /\
  (some_unwritable sessions -> save_then_load sessions = ∅).
Proof.
  rewrite save_then_load_unfold. split.
  - intros Hall. by rewrite (proj1 (all_writable_writable _) Hall).
  - intros Hbad. by rewrite (some_unwritable_writable _ Hbad).
Qed.

Lemma C7_round_trip_witness :
  save_then_load {[ 42 := scenario_session 1 ]} = {[ 42 := scenario_session 1 ]}.
Proof.
  apply (C7_round_trip_of_writable_sessions {[ 42 := scenario_session 1 ]}).
  intros u s Hs. apply lookup_singleton_Some in Hs as [<- <-]. by vm_compute.
Defined.

(** C7 as stated does not hold: a session whose prompt holds a lone surrogate
    (as [json.loads] produces from the escape \ud83d) cannot be written, and
    the mapping is lost. *)
Lemma C7_surrogate_breaks_round_trip : ~ round_trip_for_any_sessions.
Proof.
  intros Hround.
  specialize (Hround {[ 42 := mkRoomSession 42 1 [55357%N] (of_ascii "C1") (of_ascii "S1") 0 false ]}).
  apply (f_equal (fun m => m !! 42)) in Hround.
  vm_compute in Hround. discriminate.
Qed.

(** Such a mapping arises in the running bot: the generator's answer is
    decoded by [json.loads], which accepts the escape of a lone surrogate. *)
Lemma surrogate_answer_is_lost_at_restart :
  let answer := ApiDict [ KDescription [55357%N]; KBuggySnippet (of_ascii "C1");
                          KCorrectSnippet (of_ascii "S1") ] in
  let w := handle (scenario_env answer, 42, TextMessage ENTER_CASTLE) (startup Missing) in
  stage 42 w = Some 1 /\ session_file w = NotJson /\ reloaded w !! 42 = None.
Proof. by vm_compute. Qed.

(** An integer that is too long for the interpreter to write has the same
    effect: one more wrong answer on a count of 4300 nines, and the mapping
    is lost. *)
Lemma overlong_count_is_lost_at_restart :
  save_then_load {[ 42 := set_attempts overlong_count (scenario_session 1) ]} = ∅.
Proof.
  assert (session_writable (set_attempts overlong_count (scenario_session 1)) = false) as Hbad
    by (by vm_compute).
  rewrite save_then_load_unfold.
  pose proof (not_writable_sessions _ 42 _ (lookup_singleton_eq _ _) (or_intror Hbad)) as Hw.
  by rewrite Hw.
Qed.

(** ** Loading the session file *)






(** Bytes that are not UTF-8 text, a JSON document that is not an object, and
    a member that is not a session all make the loader raise: the [except]
    clause names two exception classes only. *)
Lemma load_raises_on_other_damage :
  (load_sessions_from_file (startup NotUtf8)).1 = Raised UnicodeDecodeError /\
  (load_sessions_from_file (startup JsonOther)).1 = Raised AttributeError /\
  (load_sessions_from_file (startup (JsonObject [(of_ascii "42", EntryOther)]))).1
    = Raised TypeError /\
  (load_sessions_from_file
     (startup (JsonObject [(of_ascii "x", EntryDict (asdict (scenario_session 1)))]))).1
    = Raised ValueError.
Proof. repeat split. Qed.

(** ** The four paths of a submission, when the transport delivers *)

Lemma submission_incorrect (e : env) (uid : Z) (text : pystr) (w : world) (s : RoomSession) :
  user_sessions w !! uid = Some s ->
  normalize_code text <> normalize_code (correct_snippet s) ->
  transport w = [] ->
  code_submission_task e uid text w =
  (Returned tt,
   let sessions := <[uid := failed_once s]> (user_sessions w) in
   mkWorld sessions (user_processing_status w) (written_file sessions)
           (logged w ++ [save_report sessions]) (sent w ++ [(uid, StillBugged)])
           (requested w) []).
Proof.
  intros Hs Hne Ht.
  unfold code_submission_task. unfold_handler.
  rewrite Hs. cbn [attribute_of mret M_ret].
  rewrite decide_False by exact Hne.
  rewrite save_sessions_to_file_run.
  rewrite transport_call_delivers by (destruct w; exact Ht).
  open_world w.
  rewrite (alter_found _ _ _ _ Hs). reflexivity.
Qed.

Lemma submission_victory (e : env) (uid : Z) (text : pystr) (w : world) (s : RoomSession) :
  user_sessions w !! uid = Some s ->
  normalize_code text = normalize_code (correct_snippet s) ->
  FINAL_ROOM <= room_number s ->
  transport w = [] ->
  code_submission_task e uid text w =
  (Returned tt,
   let sessions := delete uid (user_sessions w) in
   mkWorld sessions (user_processing_status w) (written_file sessions)
           (logged w ++ [save_report sessions; InfoCleanedUp uid])
           (sent w ++ [(uid, Victory)]) (requested w) []).
Proof.
  intros Hs Heq Hfinal Ht.
  unfold code_submission_task. unfold_handler.
  rewrite Hs. cbn [attribute_of mret M_ret].
  rewrite decide_True by exact Heq.
  replace (FINAL_ROOM <? room_number s + 1) with true by (symmetry; apply Z.ltb_lt; lia).
  rewrite transport_call_delivers by (destruct w; exact Ht).
  rewrite cleanup_session_run.
  open_world w.
  rewrite !delete_alter_same, <- app_assoc. reflexivity.
Qed.

Lemma submission_advance (e : env) (uid : Z) (text : pystr) (w : world) (s : RoomSession)
    (d : kwargs) :
  user_sessions w !! uid = Some s ->
  normalize_code text = normalize_code (correct_snippet s) ->
  room_number s < FINAL_ROOM ->
  answer_is_room (answer_json e) = Some d ->
  transport w = [] ->
  code_submission_task e uid text w =
  (Returned tt,
   let room := room_number s + 1 in
   let sessions := <[uid := with_content d (next_room s)]> (user_sessions w) in
   mkWorld sessions (user_processing_status w) (written_file sessions)
           (logged w ++ [save_report sessions])
           (sent w ++ [(uid, Typing); (uid, RoomComplete (choice e `mod` 10)%nat room);
                       (uid, RoomMessage room (default [] (get_description d))
                                              (default [] (get_buggy_snippet d)))])
           (requested w ++ [GenerateRoom room]) []).
Proof.
  intros Hs Heq Hroom Hd Ht.
  unfold code_submission_task. unfold_handler.
  rewrite Hs. cbn [attribute_of mret M_ret].
  rewrite decide_True by exact Heq.
  replace (FINAL_ROOM <? room_number s + 1) with false by (symmetry; apply Z.ltb_ge; lia).
  rewrite !transport_call_delivers by (destruct w; exact Ht).
  rewrite Hd.
  rewrite save_sessions_to_file_run.
  rewrite !transport_call_delivers by (destruct w; exact Ht).
  open_world w.
  rewrite (alter_found _ _ _ _ Hs).
  rewrite !(alter_found _ _ _ _ (lookup_insert_eq _ _ _)), !insert_insert_eq.
  rewrite <- !app_assoc. reflexivity.
Qed.

Lemma submission_collapse (e : env) (uid : Z) (text : pystr) (w : world) (s : RoomSession) :
  user_sessions w !! uid = Some s ->
  normalize_code text = normalize_code (correct_snippet s) ->
  room_number s < FINAL_ROOM ->
  answer_is_room (answer_json e) = None ->
  transport w = [] ->
  code_submission_task e uid text w =
  (Returned tt,
   let room := room_number s + 1 in
   let sessions := delete uid (user_sessions w) in
   mkWorld sessions (user_processing_status w) (written_file sessions)
           (logged w ++ [ErrorInvalidStructure room; save_report sessions; InfoCleanedUp uid])
           (sent w ++ [(uid, Typing); (uid, RoomComplete (choice e `mod` 10)%nat room);
                       (uid, CastleCollapsing)])
           (requested w ++ [GenerateRoom room]) []).
Proof.
  intros Hs Heq Hroom Hd Ht.
  unfold code_submission_task. unfold_handler.
  rewrite Hs. cbn [attribute_of mret M_ret].
  rewrite decide_True by exact Heq.
  replace (FINAL_ROOM <? room_number s + 1) with false by (symmetry; apply Z.ltb_ge; lia).
  rewrite !transport_call_delivers by (destruct w; exact Ht).
  rewrite Hd.
  rewrite !transport_call_delivers by (destruct w; exact Ht).
  rewrite cleanup_session_run.
  open_world w.
  rewrite !delete_alter_same, <- !app_assoc. reflexivity.
Qed.

Lemma invalid_answer_is_no_room (response : api_json) :
  invalid_answer response -> answer_is_room response = None.
Proof.
  destruct response as [| |d]; cbn; try done.
  unfold has_room_keys. intros [-> | [-> | ->]]; repeat case_match; done.
Qed.

(** ** The verdict on a submission *)

(** C1. [normalize_code] removes exactly the whitespace code points, and
    [code_submission_task] reports a submission as incorrect if and only if
    the submitted text and the stored solution differ after all whitespace
    is removed from both (the comparison is exact on code points, hence
    case-sensitive); "x = 1\n" is accepted for the solution "x=1" and "X=1"
    is not. *)
Theorem C1_verdict_is_whitespace_stripped_equality
    (e : env) (uid : Z) (text : pystr) (w : world) (s : RoomSession) :
  user_sessions w !! uid = Some s ->
  transport w = [] ->
  normalize_code text = remove_whitespace text /\
  normalize_code (correct_snippet s) = remove_whitespace (correct_snippet s) /\
  (judged_incorrect uid w (world_after (code_submission_task e uid text w)) <->
   remove_whitespace text <> remove_whitespace (correct_snippet s)) /\
  normalize_code (of_ascii "x = 1" ++ [10%N]) = normalize_code (of_ascii "x=1") /\
  normalize_code (of_ascii "X=1") <> normalize_code (of_ascii "x=1").
Proof.
  intros Hs Ht.
  split; [apply normalize_code_removes_whitespace|].
  split; [apply normalize_code_removes_whitespace|].
  split; [|split; [reflexivity | by vm_compute]].
  rewrite <- !normalize_code_removes_whitespace. unfold judged_incorrect.
  destruct (decide (normalize_code text = normalize_code (correct_snippet s))) as [Heq|Hne].
  - split; [|done]. intros Hsent. exfalso.
    destruct (decide (room_number s < FINAL_ROOM)) as [Hlt|Hge].
    + destruct (answer_is_room (answer_json e)) as [d|] eqn:Hd.
      * rewrite (submission_advance e uid text w s d Hs Heq Hlt Hd Ht) in Hsent.
        cbn in Hsent. apply app_inv_head in Hsent. discriminate.
      * rewrite (submission_collapse e uid text w s Hs Heq Hlt Hd Ht) in Hsent.
        cbn in Hsent. apply app_inv_head in Hsent. discriminate.
    + rewrite (submission_victory e uid text w s Hs Heq ltac:(lia) Ht) in Hsent.
      cbn in Hsent. apply app_inv_head in Hsent. discriminate.
  - split; [done|]. intros _.
    by rewrite (submission_incorrect e uid text w s Hs Hne Ht).
Qed.

Lemma C1_verdict_witness :
  judged_incorrect 42 (scenario_world 1)
    (world_after (code_submission_task (scenario_env ApiNone) 42 (of_ascii "WRONG")
                    (scenario_world 1))) <->
  remove_whitespace (of_ascii "WRONG") <> remove_whitespace (correct_snippet (scenario_session 1)).
Proof.
  apply (C1_verdict_is_whitespace_stripped_equality
           (scenario_env ApiNone) 42 (of_ascii "WRONG") (scenario_world 1) (scenario_session 1)).
  - reflexivity.
  - reflexivity.
Defined.

(** ** Outcomes of a submission *)

Lemma submission_incorrect_saved (e : env) (uid : Z) (text : pystr) (w : world)
    (s : RoomSession) :
  user_sessions w !! uid = Some s ->
  normalize_code text <> normalize_code (correct_snippet s) ->
  code_submission_task e uid text w =
  reply_text uid StillBugged
    (let sessions := <[uid := failed_once s]> (user_sessions w) in
     mkWorld sessions (user_processing_status w) (written_file sessions)
             (logged w ++ [save_report sessions]) (sent w) (requested w) (transport w)).
Proof.
  intros Hs Hne.
  unfold code_submission_task. unfold_handler.
  rewrite Hs. cbn [attribute_of mret M_ret].
  rewrite decide_False by exact Hne.
  rewrite save_sessions_to_file_run.
  open_world w.
  rewrite (alter_found _ _ _ _ Hs). reflexivity.
Qed.

(** C6 as the code has it.  An incorrect submission adds exactly one to the
    failed-attempt count of the user's session and changes nothing else in
    it (stage index and prompt, challenge and solution stay), leaves every
    other session as it was and makes no call to the generator, whatever the
    transport does.  It then writes the whole mapping to the session file:
    when every key and session of the mapping can be written, a fresh
    process that loads the file finds the updated mapping and the save is
    logged; when one cannot (a text with a surrogate code point, an integer
    of more than 4300 digits), the failure is logged, the file is left
    truncated and a fresh process starts empty.  When the transport delivers,
    the task returns after reporting the incorrect outcome. *)
Theorem C6_incorrect_submission_counts_one_attempt
    (e : env) (uid : Z) (text : pystr) (w : world) (s : RoomSession) :
  user_sessions w !! uid = Some s ->
  normalize_code text <> normalize_code (correct_snippet s) ->
  let r := code_submission_task e uid text w in
  let s' := failed_once s in
  let sessions' := <[uid := s']> (user_sessions w) in
  user_sessions (world_after r) = sessions' /\
  attempts s' = attempts s + 1 /\
  room_number s' = room_number s /\
  description s' = description s /\
  buggy_snippet s' = buggy_snippet s /\
  correct_snippet s' = correct_snippet s /\
  requested (world_after r) = requested w /\
  (all_writable sessions' ->
   reloaded (world_after r) = sessions' /\
   logged (world_after r) = logged w ++ [InfoSaved]) /\
  (some_unwritable sessions' ->
   session_file (world_after r) = NotJson /\
   reloaded (world_after r) = ∅ /\
   logged (world_after r) = logged w ++ [ErrorSaveFailed]) /\
  (transport w = [] ->
   r.1 = Returned tt /\ sent (world_after r) = sent w ++ [(uid, StillBugged)]).
Proof.
  intros Hs Hne. cbn zeta.
  rewrite (submission_incorrect_saved e uid text w s Hs Hne). cbn zeta.
  set (sessions' := <[uid := failed_once s]> (user_sessions w)).
  destruct (save_report_outcome sessions') as [Hsaved Hfailed].
  assert (forall after,
            session_file after = written_file sessions' ->
            saved_or_lost sessions' after) as Hfile
    by (intros after; apply written_file_outcome).
  unfold reply_text, transport_call. cbn [transport].
  destruct (transport w) as [|[] rest]; fields.
  all: destruct (Hfile (mkWorld sessions' (user_processing_status w) (written_file sessions')
                                (logged w ++ [save_report sessions']) (sent w) (requested w) []))
         as [Hkept Hlost]; [reflexivity|].
  all: unfold reloaded in *; cbn [session_file] in *.
  all: repeat (split; [reflexivity|]).
  all: split; [intros Hall; split; [by apply Hkept | by rewrite (Hsaved Hall)]|].
  all: split; [intros Hbad; destruct (Hlost Hbad) as [Hf Hr];
               split; [exact Hf | split; [exact Hr | by rewrite (Hfailed Hbad)]]|].
  all: try discriminate.
  intros _. by split.
Qed.

Lemma C6_incorrect_submission_witness :
  let r := code_submission_task (scenario_env ApiNone) 42 (of_ascii "WRONG") (scenario_world 1) in
  (room_number <$> user_sessions (world_after r) !! 42) = Some 1 /\
  (attempts <$> user_sessions (world_after r) !! 42) = Some 1 /\
  reloaded (world_after r) = {[ 42 := failed_once (scenario_session 1) ]} /\
  sent (world_after r) = [(42, StillBugged)].
Proof.
  destruct (C6_incorrect_submission_counts_one_attempt
              (scenario_env ApiNone) 42 (of_ascii "WRONG") (scenario_world 1)
              (scenario_session 1))
    as (Hm & _ & _ & _ & _ & _ & _ & Hsaved & _ & Hsent).
  - reflexivity.
  - by vm_compute.
  - cbn zeta. destruct Hsaved as [Hreload _].
    { intros u s Hs. apply lookup_insert_Some in Hs as [[<- <-] | [Hne Hs]]; [by vm_compute|].
      unfold scenario_world in Hs. cbn [user_sessions] in Hs.
      by apply lookup_singleton_Some in Hs as [<- _]. }
    destruct Hsent as [_ Hsent]; [reflexivity|].
    rewrite Hreload, Hm, Hsent. rewrite lookup_insert_eq.
    repeat split; reflexivity.
Defined.

(** C6 as stated does not hold: the session is not persisted when a session
    of the mapping holds a lone surrogate, as the generator's answer can put
    one there ([surrogate_answer_is_lost_at_restart]); the save fails and a
    fresh process finds nothing. *)
Lemma C6_unwritable_session_is_not_persisted : ~ incorrect_submission_is_persisted.
Proof.
  intros Hpersisted.
  specialize (Hpersisted (scenario_env ApiNone) 42 (of_ascii "WRONG")
                (mkWorld {[ 42 := mkRoomSession 42 1 [55357%N] (of_ascii "C1") (of_ascii "S1")
                                                0 false ]}
                         ∅ Missing [] [] [] [])
                (mkRoomSession 42 1 [55357%N] (of_ascii "C1") (of_ascii "S1") 0 false)
                eq_refl ltac:(by vm_compute) eq_refl).
  by vm_compute in Hpersisted.
Qed.

(** When the notice of the fatal failure is delivered, the session is
    removed from the mapping and the session file is rewritten without it: a
    fresh process that loads the file finds no session for the user. *)
Lemma generation_failure_deletes_session
    (e : env) (uid : Z) (text : pystr) (w : world) (s : RoomSession) :
  user_sessions w !! uid = Some s ->
  normalize_code text = normalize_code (correct_snippet s) ->
  room_number s < FINAL_ROOM ->
  invalid_answer (answer_json e) ->
  transport w = [] ->
  let r := code_submission_task e uid text w in
  r.1 = Returned tt /\
  user_sessions (world_after r) !! uid = None /\
  user_sessions (world_after r) = delete uid (user_sessions w) /\
  session_file (world_after r) = written_file (delete uid (user_sessions w)) /\
  reloaded (world_after r) !! uid = None /\
  last (sent (world_after r)) = Some (uid, CastleCollapsing).
Proof.
  intros Hs Heq Hlt Hbad Ht. cbn zeta.
  rewrite (submission_collapse e uid text w s Hs Heq Hlt
             (invalid_answer_is_no_room _ Hbad) Ht).
  fields. repeat split; try reflexivity.
  - apply lookup_delete_eq.
  - by apply (reloaded_without _ (user_sessions w)).
  - by rewrite last_app.
Qed.

(** C3 on an input where the code does not do what the claim says.  The
    notice of the fatal failure is sent before [cleanup_session] is called,
    where the branch that leaves the game calls [cleanup_session] first.
    User 42 is at stage 1 and sends the solution; the generator fails; the
    transport delivers the typing notice and the room-complete line and
    raises on the notice of the fatal failure.  The exception leaves the
    router, [cleanup_session] is never reached, and the session stays in
    the mapping, half advanced: stage 2 with no failed attempt and the texts
    of stage 1; the file is not rewritten. *)
Theorem C3_lost_notice_leaves_session_half_advanced :
  let w := with_transport [true; true; false] (scenario_world 1) in
  let r := message_router (scenario_env ApiNone) 42 (of_ascii "S1") w in
  r.1 = Raised TransportError /\
  user_sessions (world_after r) !! 42 =
    Some (mkRoomSession 42 2 (of_ascii "P1") (of_ascii "C1") (of_ascii "S1") 0 false) /\
  session_file (world_after r) = session_file w /\
  requested (world_after r) = [GenerateRoom 2] /\
  sent (world_after r) = [(42, Typing); (42, RoomComplete 0 2)].
Proof. by vm_compute. Qed.

(** ** What the router does with an event *)

Lemma router_rejects_busy (e : env) (uid : Z) (text : pystr) (w : world) :
  is_busy uid w = true ->
  message_router e uid text w = reply_text uid StillProcessing w.
Proof. intros Hb. unfold message_router, bind, gets. by rewrite Hb. Qed.

Lemma router_runs_selected (e : env) (uid : Z) (text : pystr) (w : world) :
  is_busy uid w = false ->
  message_router e uid text w =
  match select_task uid text w with
  | (Returned (Some t), w1) => run_gated e uid t w1
  | (Returned None, w1) => (Returned tt, w1)
  | (Raised x, w1) => (Raised x, w1)
  end.
Proof.
  intros Hb. unfold message_router, bind, gets. rewrite Hb.
  destruct (select_task uid text w) as [[[t|]|x] w1]; reflexivity.
Qed.

Lemma select_task_submission (uid : Z) (text : pystr) (w : world) (s : RoomSession) :
  free_text text ->
  user_sessions w !! uid = Some s ->
  is_complete s = false ->
  select_task uid text w = (Returned (Some (CodeSubmission text)), w).
Proof.
  intros (H1 & H2 & H3 & H4) Hs Hc.
  unfold select_task. unfold_handler. rewrite Hs.
  rewrite !decide_False by assumption.
  cbn. by rewrite Hc.
Qed.

Lemma select_task_dispatches (uid : Z) (text : pystr) (w w1 : world) (t : task) :
  select_task uid text w = (Returned (Some t), w1) ->
  w1 = w /\
  match t with
  | EnterCastle => active (user_sessions w !! uid) = false
  | Hint | CodeSubmission _ => active (user_sessions w !! uid) = true
  end.
Proof.
  unfold select_task, lookup_session. unfold bind at 1. unfold gets.
  unfold reply_text, mbind, M_bind, bind, mret, M_ret.
  intros Hsel.
  repeat (case_match; simplify_eq; cbn [active negb] in * ); try done;
    split; try done; by destruct (is_complete _).
Qed.

Lemma select_task_text (uid : Z) (text : pystr) (w w1 : world) (t : task) :
  select_task uid text w = (Returned (Some t), w1) ->
  match t with
  | EnterCastle => text = ENTER_CASTLE
  | Hint => text = GET_HINT
  | CodeSubmission text' => text' = text /\ free_text text
  end.
Proof.
  unfold select_task, lookup_session. unfold bind at 1. unfold gets.
  unfold reply_text, mbind, M_bind, bind, mret, M_ret.
  intros Hsel.
  repeat (case_match; simplify_eq); done.
Qed.

Lemma run_gated_unfold (e : env) (uid : Z) (t : task) (w : world) :
  run_gated e uid t w =
  match run_task e uid t (with_status <[uid := true]> w) with
  | (r, w') => (r, with_status <[uid := false]> w')
  end.
Proof.
  unfold run_gated, try_finally. unfold_handler.
  destruct (run_task e uid t _) as [[[]|x] w']; reflexivity.
Qed.

(** When the victory message is delivered, a correct submission for a
    session at the final stage, 5, deletes the session (from the mapping and
    from the rewritten file: a fresh process that loads the file finds no
    session for the user) without any call to the generator, and a progress
    request that follows is answered with "no active session". *)
Lemma final_stage_victory
    (e e' : env) (uid : Z) (text : pystr) (w : world) (s : RoomSession) :
  is_busy uid w = false ->
  user_sessions w !! uid = Some s ->
  is_complete s = false ->
  room_number s = FINAL_ROOM ->
  free_text text ->
  normalize_code text = normalize_code (correct_snippet s) ->
  transport w = [] ->
  let r := message_router e uid text w in
  r.1 = Returned tt /\
  sent (world_after r) = sent w ++ [(uid, Victory)] /\
  user_sessions (world_after r) = delete uid (user_sessions w) /\
  session_file (world_after r) = written_file (delete uid (user_sessions w)) /\
  reloaded (world_after r) !! uid = None /\
  requested (world_after r) = requested w /\
  sent (world_after (message_router e' uid MY_PROGRESS (world_after r))) =
    sent (world_after r) ++ [(uid, OutsideCastle)].
Proof.
  intros Hb Hs Hc Hroom Hfree Heq Ht. cbn zeta.
  rewrite (router_runs_selected _ _ _ _ Hb).
  rewrite (select_task_submission _ _ _ _ Hfree Hs Hc).
  rewrite run_gated_unfold. cbn [run_task].
  rewrite (submission_victory e uid text (with_status <[uid := true]> w) s);
    [ | by destruct w | exact Heq | lia | by destruct w ].
  fields.
  repeat split; try (destruct w; reflexivity).
  { apply (reloaded_without _ (user_sessions w)). by destruct w. }
  rewrite router_runs_selected by (unfold is_busy; fields; by rewrite lookup_insert_eq).
  unfold select_task. unfold_handler. fields.
  rewrite lookup_delete_eq.
  rewrite !(decide_False (P := MY_PROGRESS = _)) by discriminate.
  rewrite decide_True by reflexivity.
  rewrite transport_call_delivers by reflexivity.
  reflexivity.
Qed.

(** C4 on an input where the code does not do what the claim says.  The
    victory message is sent before [cleanup_session] is called, and it is
    sent as MarkdownV2 with its exclamation mark and full stops unescaped,
    where the welcome, god-mode and room messages escape theirs; a transport
    that refuses the message raises.  User 42 is at stage 5 and sends the
    solution; the reply raises.  The exception leaves the router,
    [cleanup_session] is never reached, no victory is reported, and the
    session stays in the mapping at stage 6; the file is not rewritten, and
    a progress request that follows reports stage 6 with no failed attempt
    instead of "no active session". *)
Theorem C4_refused_victory_message_keeps_session :
  let w := with_transport [false] (scenario_world 5) in
  let r := message_router (scenario_env ApiNone) 42 (of_ascii "S1") w in
  let inspected := message_router (scenario_env ApiNone) 42 MY_PROGRESS (world_after r) in
  r.1 = Raised TransportError /\
  user_sessions (world_after r) !! 42 =
    Some (mkRoomSession 42 6 (of_ascii "P1") (of_ascii "C1") (of_ascii "S1") 0 false) /\
  session_file (world_after r) = session_file w /\
  sent (world_after r) = [] /\
  is_busy 42 (world_after r) = false /\
  sent (world_after inspected) = [(42, ProgressScroll 6 0)].
Proof. by vm_compute. Qed.

(** ** The busy flag is written by the router only *)

Lemma keeps_status_bind {A B} (m : M A) (k : A -> M B) :
  keeps_status m -> (forall a, keeps_status (k a)) -> keeps_status (bind m k).
Proof.
  intros Hm Hk w. unfold bind. specialize (Hm w). unfold world_after in *.
  destruct (m w) as [[a|x] w1]; cbn [snd] in *; [|done].
  rewrite <- Hm. apply Hk.
Qed.

Lemma keeps_status_ret {A} (a : A) : keeps_status (mret a).
Proof. by intros w. Qed.

Lemma keeps_status_raise {A} (x : exn) : keeps_status (@raise A x).
Proof. by intros w. Qed.

Lemma keeps_status_gets {A} (f : world -> A) : keeps_status (gets f).
Proof. by intros w. Qed.

Lemma keeps_status_modify (f : world -> world) :
  (forall w, user_processing_status (f w) = user_processing_status w) ->
  keeps_status (modify f).
Proof. intros Hf w. apply Hf. Qed.

Lemma keeps_status_try_except {A} (body handler : M A) (caught : exn -> bool) :
  keeps_status body -> keeps_status handler ->
  keeps_status (try_except body caught handler).
Proof.
  intros Hb Hh w. unfold try_except. specialize (Hb w). unfold world_after in *.
  destruct (body w) as [[a|x] w1]; cbn [snd] in *; [done|].
  destruct (caught x); cbn [snd]; [|done]. rewrite <- Hb. apply Hh.
Qed.

Lemma keeps_status_transport_call (uid : Z) (r : reply) :
  keeps_status (transport_call uid r).
Proof. intros [? ? ? ? ? ? [|[] ?]]; reflexivity. Qed.

Ltac keeps_status_step :=
  match goal with
  | |- keeps_status (bind _ _) => apply keeps_status_bind; [|intros ?]
  | |- keeps_status (mret _) => apply keeps_status_ret
  | |- keeps_status (raise _) => apply keeps_status_raise
  | |- keeps_status (gets _) => apply keeps_status_gets
  | |- keeps_status (modify _) => apply keeps_status_modify; by intros []
  | |- keeps_status (try_except _ _ _) => apply keeps_status_try_except
  | |- keeps_status (transport_call _ _) => apply keeps_status_transport_call
  | |- keeps_status (match ?x with _ => _ end) => destruct x
  | H : keeps_status ?m |- keeps_status ?m => exact H
  end.

Ltac keeps_status_tac :=
  unfold lookup_session, update_session, reply_text, send_chat_action,
    call_groq_api_json, call_groq_api_text, attribute_of, mbind, M_bind;
  repeat keeps_status_step.

Lemma keeps_status_save : keeps_status save_sessions_to_file.
Proof. unfold save_sessions_to_file, json_dump. keeps_status_tac. Qed.

Lemma keeps_status_cleanup (uid : Z) : keeps_status (cleanup_session uid).
Proof.
  pose proof keeps_status_save. unfold cleanup_session. keeps_status_tac.
Qed.

Lemma keeps_status_run_task (e : env) (uid : Z) (t : task) : keeps_status (run_task e uid t).
Proof.
  pose proof keeps_status_save. pose proof (keeps_status_cleanup uid).
  destruct t; cbn [run_task].
  - unfold enter_castle_task. keeps_status_tac.
  - unfold hint_task. keeps_status_tac.
  - unfold code_submission_task. keeps_status_tac.
Qed.

Lemma keeps_status_select_task (uid : Z) (text : pystr) : keeps_status (select_task uid text).
Proof.
  pose proof (keeps_status_cleanup uid).
  unfold select_task. keeps_status_tac.
Qed.

Lemma keeps_status_start (uid : Z) : keeps_status (start_command uid).
Proof. unfold start_command. keeps_status_tac. Qed.

Lemma keeps_status_god_mode (uid : Z) : keeps_status (god_mode_command uid).
Proof. unfold god_mode_command. keeps_status_tac. Qed.

(** ** The gate *)

Lemma is_busy_insert (uid u : Z) (b : bool) (w : world) :
  is_busy u (with_status <[uid := b]> w) = if decide (uid = u) then b else is_busy u w.
Proof.
  unfold is_busy, with_status. cbn. rewrite lookup_insert.
  destruct (decide (uid = u)); reflexivity.
Qed.

Lemma is_busy_same_status (u : Z) (w w' : world) :
  user_processing_status w' = user_processing_status w -> is_busy u w' = is_busy u w.
Proof. unfold is_busy. by intros ->. Qed.

Lemma router_is_arrive_then_complete (e : env) (uid : Z) (text : pystr) (w : world) :
  message_router e uid text w =
  (let* launched := arrive uid text in
   match launched with
   | Some t => complete e uid t
   | None => mret tt
   end) w.
Proof.
  unfold message_router, arrive, complete, run_gated. unfold_handler.
  destruct (is_busy uid w).
  - unfold transport_call. destruct (transport w) as [|[] ?]; reflexivity.
  - destruct (select_task uid text w) as [[[t|]|x] w1]; reflexivity.
Qed.

Lemma arrive_spec (uid : Z) (text : pystr) (w : world) :
  let r := arrive uid text w in
  (launched uid r.1 = [] /\
   user_processing_status (world_after r) = user_processing_status w) \/
  (exists t, r.1 = Returned (Some t) /\ is_busy uid w = false /\
   user_processing_status (world_after r) = <[uid := true]> (user_processing_status w)).
Proof.
  cbn zeta. unfold arrive. unfold_handler.
  destruct (is_busy uid w) eqn:Hb.
  - left. pose proof (keeps_status_transport_call uid StillProcessing w) as Hk.
    unfold world_after in *.
    destruct (transport_call uid StillProcessing w) as [[[]|x] w1]; cbn in *; by split.
  - pose proof (keeps_status_select_task uid text w) as Hk. unfold world_after in *.
    destruct (select_task uid text w) as [[[t|]|x] w1]; cbn in *.
    + right. exists t. by rewrite Hk.
    + left. by split.
    + left. by split.
Qed.

Lemma complete_status (e : env) (uid : Z) (t : task) (w : world) :
  user_processing_status (world_after (complete e uid t w)) =
  <[uid := false]> (user_processing_status w).
Proof.
  unfold complete, try_finally. unfold_handler.
  pose proof (keeps_status_run_task e uid t w) as Hk. unfold world_after in *.
  destruct (run_task e uid t w) as [[[]|x] w1]; cbn in *; by rewrite Hk.
Qed.

Lemma gate_invariant_initial (sys : system) : sys_initial sys -> gate_invariant sys.
Proof.
  intros [Hnil Hfree]. split; rewrite Hnil; cbn.
  - constructor.
  - intros u. rewrite Hfree. split; [done | by intros ?%elem_of_nil].
Qed.

Lemma gate_invariant_step (sys sys' : system) :
  sys_step sys sys' -> gate_invariant sys -> gate_invariant sys'.
Proof.
  intros Hstep [Hnd Hflag].
  destruct Hstep as [uid text sys r w' Harr | e uid t before after sys r w' Hin Hcomp
                    | uid sys r w' Hcmd | uid sys r w' Hcmd].
  - pose proof (arrive_spec uid text (sys_world sys)) as Hspec.
    rewrite Harr in Hspec. cbn in Hspec. unfold world_after in Hspec. cbn in Hspec.
    destruct Hspec as [[-> Hst] | (t & -> & Hb & Hst)]; split; cbn.
    + exact Hnd.
    + intros u. rewrite (is_busy_same_status u _ _ Hst). apply Hflag.
    + constructor; [|exact Hnd]. rewrite <- Hflag, Hb. done.
    + intros u. unfold is_busy. rewrite Hst, lookup_insert.
      destruct (decide (uid = u)) as [->|Hne]; cbn.
      * split; [intros _; by left | done].
      * fold (is_busy u (sys_world sys)). rewrite Hflag.
        split; [by right | by intros [?|?]%elem_of_cons].
  - pose proof (complete_status e uid t (sys_world sys)) as Hst.
    rewrite Hcomp in Hst. unfold world_after in Hst. cbn in Hst.
    rewrite Hin, fmap_app, fmap_cons in Hnd. cbn in Hnd.
    apply NoDup_app in Hnd as (Hb & Hsep & Ha).
    apply NoDup_cons in Ha as [Hnotin Ha].
    split; cbn.
    + rewrite fmap_app. apply NoDup_app. split; [exact Hb|]. split; [|exact Ha].
      intros u Hu Hu'. apply (Hsep u Hu). by right.
    + intros u. unfold is_busy. rewrite Hst, lookup_insert.
      destruct (decide (uid = u)) as [<-|Hne]; cbn.
      * split; [done|]. rewrite fmap_app. intros [Hu|Hu]%elem_of_app; [|done].
        exfalso. apply (Hsep uid Hu). by left.
      * fold (is_busy u (sys_world sys)). rewrite Hflag, Hin, !fmap_app, fmap_cons. cbn.
        rewrite !elem_of_app, elem_of_cons.
        split.
        -- intros [?|[?|?]]; [by left | congruence | by right].
        -- intros [?|?]; [by left | by right; right].
  - pose proof (keeps_status_start uid (sys_world sys)) as Hst.
    rewrite Hcmd in Hst. unfold world_after in Hst. cbn [snd] in Hst.
    split; [exact Hnd|]. cbn [sys_world in_flight].
    intros u. rewrite (is_busy_same_status u _ _ Hst). apply Hflag.
  - pose proof (keeps_status_god_mode uid (sys_world sys)) as Hst.
    rewrite Hcmd in Hst. unfold world_after in Hst. cbn [snd] in Hst.
    split; [exact Hnd|]. cbn [sys_world in_flight].
    intros u. rewrite (is_busy_same_status u _ _ Hst). apply Hflag.
Qed.

Lemma gate_invariant_run (sys0 sys : system) :
  rtc sys_step sys0 sys -> gate_invariant sys0 -> gate_invariant sys.
Proof.
  induction 1 as [sys|sys1 sys2 sys3 Hstep _ IH]; [done|].
  intros Hinv. apply IH. by eapply gate_invariant_step.
Qed.

Lemma router_keeps_flags_when_inline (e : env) (uid : Z) (text : pystr) (w : world) :
  is_busy uid w = false ->
  (forall t, (select_task uid text w).1 <> Returned (Some t)) ->
  user_processing_status (world_after (message_router e uid text w)) =
  user_processing_status w.
Proof.
  intros Hb Hnone. rewrite (router_runs_selected _ _ _ _ Hb).
  pose proof (keeps_status_select_task uid text w) as Hk. unfold world_after in *.
  destruct (select_task uid text w) as [[[t|]|x] w1]; cbn [fst snd] in *; try exact Hk.
  by destruct (Hnone t).
Qed.

Lemma router_releases_flag (e : env) (uid : Z) (text : pystr) (w : world) :
  is_busy uid w = false ->
  is_busy uid (world_after (message_router e uid text w)) = false.
Proof.
  intros Hb. rewrite (router_runs_selected _ _ _ _ Hb).
  pose proof (keeps_status_select_task uid text w) as Hk. unfold world_after in *.
  destruct (select_task uid text w) as [[[t|]|x] w1]; cbn [fst snd] in *.
  - rewrite run_gated_unfold.
    destruct (run_task e uid t _) as [r w2]. cbn [snd].
    rewrite is_busy_insert. by rewrite decide_True.
  - by rewrite (is_busy_same_status uid _ _ Hk).
  - by rewrite (is_busy_same_status uid _ _ Hk).
Qed.

(** C2 as the code has it.  A busy user gets the "still processing" notice
    and nothing else happens.  Otherwise, when the event selects one of the
    three tasks (entering without an active session, a hint or a free-text
    submission with an active session), the router sets the user's flag
    before the task starts, the task never writes the flag, and the flag is
    cleared when the task returns or raises; an event that is answered inline
    (leaving the game, progress, re-entering an active session, requests
    without a session) leaves every flag as it was.  So the user's flag is
    clear after every event that was not rejected, and among the tasks in
    flight no user has two: a flag is set exactly while that user's task is
    in flight. *)
Theorem C2_gate_around_tasks (e : env) (uid : Z) (text : pystr) (w : world) :
  (is_busy uid w = true ->
     let r := message_router e uid text w in
     r = reply_text uid StillProcessing w /\
     user_sessions (world_after r) = user_sessions w /\
     user_processing_status (world_after r) = user_processing_status w /\
     session_file (world_after r) = session_file w /\
     requested (world_after r) = requested w) /\
  (is_busy uid w = false ->
     forall t w1, select_task uid text w = (Returned (Some t), w1) ->
       let started := with_status <[uid := true]> w1 in
       let finished := run_task e uid t started in
       is_busy uid started = true /\
       is_busy uid (world_after finished) = true /\
       message_router e uid text w =
         (finished.1, with_status <[uid := false]> (world_after finished))) /\
  (forall t w1, select_task uid text w = (Returned (Some t), w1) ->
     w1 = w /\
     match t with
     | EnterCastle => text = ENTER_CASTLE /\ active (user_sessions w !! uid) = false
     | Hint => text = GET_HINT /\ active (user_sessions w !! uid) = true
     | CodeSubmission text' =>
         text' = text /\ free_text text /\ active (user_sessions w !! uid) = true
     end) /\
  (is_busy uid w = false ->
     (forall t, (select_task uid text w).1 <> Returned (Some t)) ->
     user_processing_status (world_after (message_router e uid text w)) =
     user_processing_status w) /\
  (is_busy uid w = false ->
     is_busy uid (world_after (message_router e uid text w)) = false) /\
  (message_router e uid text w =
   (let* launched := arrive uid text in
    match launched with
    | Some t => complete e uid t
    | None => mret tt
    end) w) /\
  (forall sys, sys_reachable sys -> gate_invariant sys).
Proof.
  split; [|split; [|split; [|split; [|split; [|split]]]]].
  - intros Hb. cbn zeta. rewrite (router_rejects_busy _ _ _ _ Hb).
    split; [reflexivity|]. unfold reply_text, transport_call, world_after.
    destruct w as [? ? ? ? ? ? [|[] ?]]; repeat split.
  - intros Hb t w1 Hsel. cbn zeta.
    split; [by rewrite is_busy_insert, decide_True|].
    split.
    + rewrite (is_busy_same_status uid _ _ (keeps_status_run_task e uid t _)).
      by rewrite is_busy_insert, decide_True.
    + rewrite (router_runs_selected _ _ _ _ Hb), Hsel, run_gated_unfold.
      unfold world_after. by destruct (run_task e uid t _).
  - intros t w1 Hsel. pose proof (select_task_text _ _ _ _ _ Hsel) as Htext.
    apply select_task_dispatches in Hsel as [-> Hact].
    split; [reflexivity|]. destruct t; [done | done |]. by destruct Htext.
  - apply router_keeps_flags_when_inline.
  - apply router_releases_flag.
  - apply router_is_arrive_then_complete.
  - intros sys (sys0 & Hinit & Hrun).
    eapply gate_invariant_run; [exact Hrun|]. by apply gate_invariant_initial.
Qed.

Lemma C2_gate_witness :
  is_busy 42 (scenario_world 1) = false /\
  is_busy 42 (world_after (message_router (scenario_env ApiNone) 42 (of_ascii "S1")
                             (scenario_world 1))) = false.
Proof.
  split; [reflexivity|].
  apply (C2_gate_around_tasks (scenario_env ApiNone) 42 (of_ascii "S1") (scenario_world 1)).
  reflexivity.
Defined.

(** C2 as the specification states it does not hold: leaving the game
    deletes the session and rewrites the file while the user's flag is never
    set. *)
Lemma C2_leave_game_runs_outside_the_gate : ~ every_operation_is_gated.
Proof.
  intros Hgate.
  specialize (Hgate (scenario_env ApiNone) 42 LEAVE_GAME (scenario_world 1) eq_refl).
  assert (user_sessions (world_after (message_router (scenario_env ApiNone) 42 LEAVE_GAME
                                        (scenario_world 1)))
          <> user_sessions (scenario_world 1)) as Hchanged.
  { intros Heq. apply (f_equal (fun m => m !! 42)) in Heq. vm_compute in Heq. discriminate. }
  specialize (Hgate Hchanged). vm_compute in Hgate. discriminate.
Qed.

(** ** The session looked up by a dispatched task *)

Lemma no_attribute_error_bind {A B} (m : M A) (k : A -> M B) :
  no_attribute_error m -> (forall a, no_attribute_error (k a)) ->
  no_attribute_error (bind m k).
Proof.
  intros Hm Hk w. unfold bind. specialize (Hm w).
  destruct (m w) as [[a|x] w1]; cbn [fst] in *; [apply Hk | exact Hm].
Qed.

Lemma no_attribute_error_ret {A} (a : A) : no_attribute_error (mret a).
Proof. by intros w. Qed.

Lemma no_attribute_error_raise {A} (x : exn) :
  x <> AttributeError -> no_attribute_error (@raise A x).
Proof. intros Hx w. cbn. congruence. Qed.

Lemma no_attribute_error_gets {A} (f : world -> A) : no_attribute_error (gets f).
Proof. by intros w. Qed.

Lemma no_attribute_error_modify (f : world -> world) : no_attribute_error (modify f).
Proof. by intros w. Qed.

Lemma no_attribute_error_try_except {A} (body handler : M A) (caught : exn -> bool) :
  no_attribute_error body -> no_attribute_error handler ->
  no_attribute_error (try_except body caught handler).
Proof.
  intros Hb Hh w. unfold try_except. specialize (Hb w).
  destruct (body w) as [[a|x] w1]; cbn [fst] in *; [done|].
  destruct (caught x); [apply Hh | exact Hb].
Qed.

Lemma no_attribute_error_try_finally {A} (body : M A) (cleanup : M unit) :
  no_attribute_error body -> no_attribute_error cleanup ->
  no_attribute_error (try_finally body cleanup).
Proof.
  intros Hb Hc w. unfold try_finally. specialize (Hb w).
  destruct (body w) as [[a|x] w1]; cbn [fst] in *; specialize (Hc w1);
    destruct (cleanup w1) as [[[]|x'] w2]; cbn [fst exception] in *; congruence.
Qed.

Lemma no_attribute_error_transport_call (uid : Z) (r : reply) :
  no_attribute_error (transport_call uid r).
Proof. intros [? ? ? ? ? ? [|[] ?]]; done. Qed.

Lemma no_attribute_error_found (s : RoomSession) : no_attribute_error (attribute_of (Some s)).
Proof. by intros w. Qed.

Ltac no_attribute_error_step :=
  match goal with
  | |- no_attribute_error (bind _ _) => apply no_attribute_error_bind; [|intros ?]
  | |- no_attribute_error (mret _) => apply no_attribute_error_ret
  | |- no_attribute_error (raise _) => apply no_attribute_error_raise; discriminate
  | |- no_attribute_error (gets _) => apply no_attribute_error_gets
  | |- no_attribute_error (modify _) => apply no_attribute_error_modify
  | |- no_attribute_error (try_except _ _ _) => apply no_attribute_error_try_except
  | |- no_attribute_error (try_finally _ _) => apply no_attribute_error_try_finally
  | |- no_attribute_error (transport_call _ _) => apply no_attribute_error_transport_call
  | |- no_attribute_error (attribute_of (Some _)) => apply no_attribute_error_found
  | H : no_attribute_error ?m |- no_attribute_error ?m => exact H
  | |- no_attribute_error (match ?x with _ => _ end) => destruct x eqn:?
  end.

Ltac no_attribute_error_tac :=
  unfold update_session, reply_text, send_chat_action, call_groq_api_json,
    call_groq_api_text, mark_busy, mbind, M_bind;
  repeat no_attribute_error_step.

Lemma no_attribute_error_save : no_attribute_error save_sessions_to_file.
Proof. intros w. by rewrite save_sessions_to_file_run. Qed.

Lemma no_attribute_error_cleanup (uid : Z) : no_attribute_error (cleanup_session uid).
Proof.
  pose proof no_attribute_error_save. unfold cleanup_session. no_attribute_error_tac.
Qed.

Lemma RoomSession_for_user_raises (uid : Z) (d : kwargs) (x : exn) :
  RoomSession_for_user uid d = inl x -> x = TypeError.
Proof.
  unfold RoomSession_for_user, RoomSession_of_kwargs.
  repeat case_match; congruence.
Qed.

Lemma no_attribute_error_enter (e : env) (uid : Z) :
  no_attribute_error (enter_castle_task e uid).
Proof.
  pose proof no_attribute_error_save.
  unfold enter_castle_task. no_attribute_error_tac.
  apply no_attribute_error_raise.
  match goal with
  | Hx : RoomSession_for_user _ _ = inl _ |- _ => apply RoomSession_for_user_raises in Hx as ->
  end.
  discriminate.
Qed.

Ltac as_no_attribute_error :=
  match goal with
  | |- exception (?m ?w).1 <> _ =>
      cut (no_attribute_error m); [intros Hm; apply Hm|]
  end.

Lemma no_attribute_error_hint (e : env) (uid : Z) (w : world) (s : RoomSession) :
  user_sessions w !! uid = Some s ->
  exception (hint_task e uid w).1 <> Some AttributeError.
Proof.
  intros Hs. unfold hint_task, lookup_session. unfold bind at 1. unfold gets. rewrite Hs.
  as_no_attribute_error. no_attribute_error_tac.
Qed.

Lemma no_attribute_error_submission (e : env) (uid : Z) (text : pystr) (w : world)
    (s : RoomSession) :
  user_sessions w !! uid = Some s ->
  exception (code_submission_task e uid text w).1 <> Some AttributeError.
Proof.
  intros Hs. unfold code_submission_task, lookup_session. unfold bind at 1. unfold gets.
  rewrite Hs. cbn zeta.
  pose proof no_attribute_error_save. pose proof (no_attribute_error_cleanup uid).
  as_no_attribute_error. no_attribute_error_tac.
Qed.

Lemma no_attribute_error_select_task (uid : Z) (text : pystr) :
  no_attribute_error (select_task uid text).
Proof.
  pose proof (no_attribute_error_cleanup uid).
  unfold select_task, lookup_session. no_attribute_error_tac.
Qed.

Lemma active_session (session : option RoomSession) :
  active session = true -> exists s, session = Some s /\ is_complete s = false.
Proof.
  destruct session as [s|]; [|done]. cbn. intros Hc. exists s.
  split; [done|]. by destruct (is_complete s).
Qed.

(** ** What a handler may do to the sessions *)

Section Relates.

Context (R : relation (gmap Z RoomSession)) `{!PreOrder R}.

Lemma relates_bind {A B} (m : M A) (k : A -> M B) :
  relates R m -> (forall a, relates R (k a)) -> relates R (bind m k).
Proof.
  intros Hm Hk w. unfold bind. specialize (Hm w). unfold world_after in *.
  destruct (m w) as [[a|x] w1]; cbn [snd] in *; [|done].
  etrans; [exact Hm | apply Hk].
Qed.

Lemma relates_ret {A} (a : A) : relates R (mret a).
Proof. intros w. reflexivity. Qed.

Lemma relates_raise {A} (x : exn) : relates R (@raise A x).
Proof. intros w. reflexivity. Qed.

Lemma relates_gets {A} (f : world -> A) : relates R (gets f).
Proof. intros w. reflexivity. Qed.

Lemma relates_modify (f : world -> world) :
  (forall w, R (user_sessions w) (user_sessions (f w))) -> relates R (modify f).
Proof. intros Hf w. apply Hf. Qed.

Lemma relates_try_except {A} (body handler : M A) (caught : exn -> bool) :
  relates R body -> relates R handler -> relates R (try_except body caught handler).
Proof.
  intros Hb Hh w. unfold try_except. specialize (Hb w). unfold world_after in *.
  destruct (body w) as [[a|x] w1]; cbn [snd] in *; [done|].
  destruct (caught x); cbn [snd]; [|done]. etrans; [exact Hb | apply Hh].
Qed.

Lemma relates_try_finally {A} (body : M A) (cleanup : M unit) :
  relates R body -> relates R cleanup -> relates R (try_finally body cleanup).
Proof.
  intros Hb Hc w. unfold try_finally. specialize (Hb w). unfold world_after in *.
  destruct (body w) as [[a|x] w1]; cbn [snd] in *; specialize (Hc w1);
    destruct (cleanup w1) as [[[]|x'] w2]; cbn [snd] in *; by etrans.
Qed.

Lemma relates_transport_call (uid : Z) (r : reply) : relates R (transport_call uid r).
Proof. intros [? ? ? ? ? ? [|[] ?]]; cbn; reflexivity. Qed.

Lemma relates_with_status (f : gmap Z bool -> gmap Z bool) : relates R (modify (with_status f)).
Proof. intros []. cbn. reflexivity. Qed.

Lemma relates_with_file (f : storage) : relates R (modify (with_file f)).
Proof. intros []. cbn. reflexivity. Qed.

Lemma relates_with_log (x : log_entry) : relates R (modify (with_log x)).
Proof. intros []. cbn. reflexivity. Qed.

Lemma relates_with_request (q : request) : relates R (modify (with_request q)).
Proof. intros []. cbn. reflexivity. Qed.

Lemma relates_with_sessions (f : gmap Z RoomSession -> gmap Z RoomSession) :
  (forall m, R m (f m)) -> relates R (modify (with_sessions f)).
Proof. intros Hf []. cbn. apply Hf. Qed.

End Relates.

Ltac relates_step :=
  match goal with
  | |- relates _ (bind _ _) => apply relates_bind; [apply _ | |intros ?]
  | |- relates _ (mret _) => apply relates_ret; apply _
  | |- relates _ (raise _) => apply relates_raise; apply _
  | |- relates _ (gets _) => apply relates_gets; apply _
  | |- relates _ (modify (with_status _)) => apply relates_with_status; apply _
  | |- relates _ (modify (with_file _)) => apply relates_with_file; apply _
  | |- relates _ (modify (with_log _)) => apply relates_with_log; apply _
  | |- relates _ (modify (with_request _)) => apply relates_with_request; apply _
  | |- relates _ (try_except _ _ _) => apply relates_try_except; [apply _ | |]
  | |- relates _ (try_finally _ _) => apply relates_try_finally; [apply _ | |]
  | |- relates _ (transport_call _ _) => apply relates_transport_call; apply _
  | H : relates ?R ?m |- relates ?R ?m => exact H
  | |- relates _ (match ?x with _ => _ end) => destruct x eqn:?
  end.

Ltac relates_tac :=
  unfold lookup_session, update_session, reply_text, send_chat_action, call_groq_api_json,
    call_groq_api_text, attribute_of, mark_busy, mbind, M_bind;
  repeat relates_step.

Lemma relates_save (R : relation (gmap Z RoomSession)) `{!PreOrder R} :
  relates R save_sessions_to_file.
Proof. unfold save_sessions_to_file, json_dump. relates_tac. Qed.

#[export] Instance touches_only_preorder (uid : Z) (keep : relation RoomSession)
    `{!PreOrder keep} : PreOrder (touches_only uid keep).
Proof.
  split.
  - intros m. split; [done|]. intros s' Hs'. by exists s'.
  - intros m1 m2 m3 [Hf12 Hk12] [Hf23 Hk23]. split.
    + intros u Hu. by rewrite Hf23, Hf12.
    + intros s3 Hs3. destruct (Hk23 s3 Hs3) as (s2 & Hs2 & H23).
      destruct (Hk12 s2 Hs2) as (s1 & Hs1 & H12).
      exists s1. split; [done|]. by etrans.
Qed.

Lemma touches_only_alter (uid : Z) (keep : relation RoomSession) (f : RoomSession -> RoomSession)
    (m : gmap Z RoomSession) :
  (forall s, keep s (f s)) -> touches_only uid keep m (alter f uid m).
Proof.
  intros Hf. split.
  - intros u Hu. by rewrite lookup_alter_ne.
  - intros s'. rewrite lookup_alter_eq.
    destruct (m !! uid) as [s|]; [|done]. intros [= <-]. by exists s.
Qed.

Lemma touches_only_delete (uid : Z) (keep : relation RoomSession) (m : gmap Z RoomSession) :
  touches_only uid keep m (delete uid m).
Proof.
  split.
  - intros u Hu. by rewrite lookup_delete_ne.
  - intros s'. by rewrite lookup_delete_eq.
Qed.

Lemma relates_cleanup (uid : Z) (keep : relation RoomSession) `{!PreOrder keep} :
  relates (touches_only uid keep) (cleanup_session uid).
Proof.
  pose proof (relates_save (touches_only uid keep)).
  unfold cleanup_session. relates_tac.
  apply relates_with_sessions. apply touches_only_delete.
Qed.

(** ** The completion flag *)

#[export] Instance same_flag_preorder : PreOrder same_flag.
Proof.
  split; [intros s; reflexivity|].
  intros s1 s2 s3 H12 H23. unfold same_flag in *. congruence.
Qed.

#[export] Instance keeps_incomplete_preorder : PreOrder keeps_incomplete.
Proof.
  split; [intros m Hm; exact Hm|].
  intros m1 m2 m3 H12 H23 H1. apply H23, H12, H1.
Qed.

Lemma relates_weaken (R R' : relation (gmap Z RoomSession)) {A} (m : M A) :
  (forall x y, R x y -> R' x y) -> relates R m -> relates R' m.
Proof. intros Hsub Hm w. apply Hsub, Hm. Qed.

Lemma same_flag_keeps_incomplete (uid : Z) (m m' : gmap Z RoomSession) :
  touches_only uid same_flag m m' -> keeps_incomplete m m'.
Proof.
  intros [Hframe Hkeep] Hinv u s' Hs'.
  destruct (decide (u = uid)) as [->|Hne].
  - destruct (Hkeep s' Hs') as (s & Hs & Hflag). rewrite Hflag. eauto.
  - rewrite Hframe in Hs' by done. eauto.
Qed.

(** An assignment to a field of the user's session. *)
Ltac relates_update :=
  match goal with
  | |- relates (touches_only _ _) (modify (with_sessions (alter _ _))) =>
      apply relates_with_sessions; intros ?; apply touches_only_alter; intros ?
  end.

Lemma relates_submission_same_flag (e : env) (uid : Z) (text : pystr) :
  relates (touches_only uid same_flag) (code_submission_task e uid text).
Proof.
  pose proof (relates_save (touches_only uid same_flag)).
  pose proof (relates_cleanup uid same_flag).
  unfold code_submission_task. cbn zeta.
  relates_tac; relates_update; reflexivity.
Qed.

Lemma relates_hint_same_flag (e : env) (uid : Z) :
  relates (touches_only uid same_flag) (hint_task e uid).
Proof. unfold hint_task. relates_tac. Qed.

Lemma relates_select_task_same_flag (uid : Z) (text : pystr) :
  relates (touches_only uid same_flag) (select_task uid text).
Proof.
  pose proof (relates_cleanup uid same_flag).
  unfold select_task. relates_tac.
Qed.

Lemma call_groq_api_json_bind {B} (e : env) (q : request) (k : api_json -> M B) :
  bind (call_groq_api_json e q) k =
  bind (modify (with_request q)) (fun _ => k (answer_json e)).
Proof. reflexivity. Qed.

Lemma RoomSession_for_user_flag (uid : Z) (d : kwargs) (session : RoomSession) :
  RoomSession_for_user uid d = inr session ->
  is_complete session = default false (get_is_complete d).
Proof.
  unfold RoomSession_for_user, RoomSession_of_kwargs.
  destruct (get_user_id d) eqn:Hu; [done|].
  destruct (has_other_key (KUserId uid :: d)); [done|].
  destruct (get_user_id (KUserId uid :: d)); [|done].
  intros [= <-]. reflexivity.
Qed.

Lemma relates_enter_keeps_incomplete (e : env) (uid : Z) :
  no_completion_key (answer_json e) ->
  relates keeps_incomplete (enter_castle_task e uid).
Proof.
  intros Hkey.
  pose proof (relates_save keeps_incomplete).
  unfold enter_castle_task, mbind, M_bind. rewrite call_groq_api_json_bind.
  relates_tac.
  apply relates_with_sessions. intros m Hinv u s.
  rewrite lookup_insert. destruct (decide (uid = u)) as [->|Hne]; [|apply Hinv].
  intros [= <-].
  match goal with
  | Hx : RoomSession_for_user _ _ = inr _ |- _ => rewrite (RoomSession_for_user_flag _ _ _ Hx)
  end.
  unfold answer_is_room, no_completion_key in *.
  destruct (answer_json e) as [| |d']; try done.
  destruct (has_room_keys d'); simplify_eq. by rewrite Hkey.
Qed.

Lemma relates_router_keeps_incomplete (e : env) (uid : Z) (text : pystr) :
  no_completion_key (answer_json e) ->
  relates keeps_incomplete (message_router e uid text).
Proof.
  intros Hkey.
  pose proof (relates_enter_keeps_incomplete e uid Hkey).
  pose proof (relates_weaken _ keeps_incomplete _ (same_flag_keeps_incomplete uid)
                (relates_hint_same_flag e uid)).
  pose proof (relates_weaken _ keeps_incomplete _ (same_flag_keeps_incomplete uid)
                (relates_select_task_same_flag uid text)).
  unfold message_router, run_gated. relates_tac.
  all: try (unfold run_task; relates_tac).
  apply (relates_weaken _ keeps_incomplete _ (same_flag_keeps_incomplete uid)
           (relates_submission_same_flag e uid _)).
Qed.

Lemma no_session_complete_startup (file : storage) : no_session_complete (startup file).
Proof. intros u s Hs. unfold startup in Hs. cbn [user_sessions] in Hs. by rewrite lookup_empty in Hs. Qed.

(** C9 as the code has it.  No assignment writes [is_complete]: a
    submission leaves the flag of every session it does not delete as it was,
    and the session that starting a game builds takes the flag from the
    generator's answer, [False] when the answer has no such key.  So as long
    as the answer carries no [is_complete] key, no event makes a session
    complete. *)
Theorem C9_completion_flag_only_from_answer
    (e : env) (uid : Z) (text : pystr) (w : world) :
  (forall u s',
     user_sessions (world_after (code_submission_task e uid text w)) !! u = Some s' ->
     exists s, user_sessions w !! u = Some s /\ is_complete s' = is_complete s) /\
  (forall d session,
     RoomSession_for_user uid d = inr session ->
     is_complete session = default false (get_is_complete d)) /\
  (no_completion_key (answer_json e) ->
   no_session_complete w ->
   no_session_complete (world_after (message_router e uid text w))).
Proof.
  split; [|split].
  - intros u s' Hs'.
    destruct (relates_submission_same_flag e uid text w) as [Hframe Hkeep].
    destruct (decide (u = uid)) as [->|Hne].
    + destruct (Hkeep s' Hs') as (s & Hs & Hflag). by exists s.
    + rewrite Hframe in Hs' by done. by exists s'.
  - apply RoomSession_for_user_flag.
  - intros Hkey Hinv. exact (relates_router_keeps_incomplete e uid text Hkey w Hinv).
Qed.

Lemma C9_completion_flag_witness :
  no_session_complete
    (world_after (message_router (scenario_env (ApiDict scenario_room)) 42 ENTER_CASTLE
                    (startup Missing))).
Proof.
  apply (C9_completion_flag_only_from_answer (scenario_env (ApiDict scenario_room)) 42
           ENTER_CASTLE (startup Missing)).
  - reflexivity.
  - apply no_session_complete_startup.
Defined.

(** C9 as stated does not hold: when the generator's answer carries the key
    [is_complete] with the value true, starting a game stores a session whose
    completion flag is set. *)
Lemma C9_answer_can_set_completion_flag : ~ completion_flag_never_set.
Proof.
  intros Hnever.
  specialize (Hnever
    (scenario_env (ApiDict (scenario_room ++ [KIsComplete true]))) 42 ENTER_CASTLE
    (startup Missing)).
  specialize (Hnever (no_session_complete_startup Missing) 42
    (mkRoomSession 42 1 (of_ascii "P2") (of_ascii "C2") (of_ascii "S2") 0 true)).
  assert (true = false) as Habs by (apply Hnever; by vm_compute).
  discriminate.
Qed.

(** ** The stage index *)

#[export] Instance same_stage_preorder : PreOrder same_stage.
Proof.
  split; [intros s; by split|].
  intros s1 s2 s3 [H12 H12'] [H23 H23']. split; congruence.
Qed.

#[export] Instance frame_preorder (uid : Z) : PreOrder (frame uid).
Proof.
  split; [by intros m u Hu|].
  intros m1 m2 m3 H12 H23 u Hu. by rewrite H23, H12.
Qed.

Lemma bind_modify {B} (f : world -> world) (k : unit -> M B) (w : world) :
  bind (modify f) k w = k tt (f w).
Proof. reflexivity. Qed.

Lemma relates_enter_frame (e : env) (uid : Z) : relates (frame uid) (enter_castle_task e uid).
Proof.
  pose proof (relates_save (frame uid)).
  unfold enter_castle_task. relates_tac.
  apply relates_with_sessions. intros m u Hu. by rewrite lookup_insert_ne.
Qed.

Lemma relates_hint_unchanged (e : env) (uid : Z) : relates eq (hint_task e uid).
Proof. unfold hint_task. relates_tac. Qed.

Lemma relates_select_task_same (uid : Z) (text : pystr) :
  relates (touches_only uid eq) (select_task uid text).
Proof.
  pose proof (relates_cleanup uid eq).
  unfold select_task. relates_tac.
Qed.

Lemma submission_stage (e : env) (uid : Z) (text : pystr) (w : world) (s : RoomSession) :
  user_sessions w !! uid = Some s ->
  touches_only uid
    (fun _ s' =>
       if decide (normalize_code text = normalize_code (correct_snippet s))
       then room_number s' = room_number s + 1 /\ attempts s' = 0
       else room_number s' = room_number s)
    (user_sessions w) (user_sessions (world_after (code_submission_task e uid text w))).
Proof.
  intros Hs.
  pose proof (relates_save (touches_only uid same_stage)).
  pose proof (relates_cleanup uid same_stage).
  unfold code_submission_task, lookup_session. unfold bind at 1. unfold gets. rewrite Hs.
  cbn zeta. unfold bind at 1. cbn [attribute_of mret M_ret].
  destruct (decide (normalize_code text = normalize_code (correct_snippet s))) as [Heq|Hne];
    unfold update_session, mbind, M_bind; rewrite ?bind_modify;
    match goal with
    | |- touches_only _ _ _ (user_sessions (world_after (?rest ?w1))) =>
        assert (relates (touches_only uid same_stage) rest) as Hrest
          by (relates_tac; relates_update; by split);
        destruct (Hrest w1) as [Hframe Hkeep]; clear Hrest
    end.
  - split.
    + intros u Hu. rewrite Hframe by done. destruct w. cbn.
      by rewrite !lookup_alter_ne.
    + intros s' Hs'. exists s. split; [done|].
      destruct (Hkeep s' Hs') as (s1 & Hs1 & Hroom & Hatt). rewrite Hroom, Hatt.
      destruct w. cbn in Hs1, Hs.
      rewrite !lookup_alter_eq, Hs in Hs1. by injection Hs1 as <-.
  - split.
    + intros u Hu. rewrite Hframe by done. destruct w. cbn.
      by rewrite !lookup_alter_ne.
    + intros s' Hs'. exists s. split; [done|].
      destruct (Hkeep s' Hs') as (s1 & Hs1 & Hroom & Hatt). rewrite Hroom.
      destruct w. cbn in Hs1, Hs.
      rewrite !lookup_alter_eq, Hs in Hs1. by injection Hs1 as <-.
Qed.

Lemma router_busy_sessions (e : env) (uid : Z) (text : pystr) (w : world) :
  is_busy uid w = true ->
  user_sessions (world_after (message_router e uid text w)) = user_sessions w.
Proof.
  intros Hb. rewrite (router_rejects_busy _ _ _ _ Hb).
  symmetry. apply (relates_transport_call eq).
Qed.

(** The sessions after an event that the gate lets through. *)
Lemma router_sessions (e : env) (uid : Z) (text : pystr) (w : world) :
  is_busy uid w = false ->
  user_sessions (world_after (message_router e uid text w)) =
  match select_task uid text w with
  | (Returned (Some t), w1) =>
      user_sessions (world_after (run_task e uid t (with_status <[uid := true]> w1)))
  | (_, w1) => user_sessions w1
  end.
Proof.
  intros Hb. rewrite (router_runs_selected _ _ _ _ Hb).
  destruct (select_task uid text w) as [[[t|]|x] w1]; try reflexivity.
  rewrite run_gated_unfold. unfold world_after.
  by destruct (run_task e uid t _) as [r [? ? ? ? ? ? ?]].
Qed.

Lemma router_stage_step (e : env) (uid : Z) (text : pystr) (w : world) (u : Z)
    (s s' : RoomSession) :
  user_sessions w !! u = Some s ->
  user_sessions (world_after (message_router e uid text w)) !! u = Some s' ->
  (is_complete s = false ->
     (uid = u /\ is_busy u w = false /\ free_text text /\
      normalize_code text = normalize_code (correct_snippet s) ->
        room_number s' = room_number s + 1 /\ attempts s' = 0) /\
     (~ (uid = u /\ is_busy u w = false /\ free_text text /\
         normalize_code text = normalize_code (correct_snippet s)) ->
        room_number s' = room_number s)) /\
  (is_complete s = true ->
     room_number s' = room_number s \/ (uid = u /\ text = ENTER_CASTLE)).
Proof.
  intros Hs Hs'.
  destruct (is_busy uid w) eqn:Hb.
  { rewrite router_busy_sessions in Hs' by exact Hb.
    assert (s' = s) as -> by congruence.
    split; [intros _; split|]; [|done|by left].
    intros (-> & Hfree & _). congruence. }
  rewrite (router_sessions _ _ _ _ Hb) in Hs'.
  destruct (relates_select_task_same uid text w) as [Hframe Hkeep]. unfold world_after in *.
  destruct (select_task uid text w) as [[[t|]|x] w1] eqn:Hsel; cbn [snd] in *.
  - pose proof (select_task_text _ _ _ _ _ Hsel) as Htext.
    apply select_task_dispatches in Hsel as [-> Hact].
    destruct t as [| |text'].
    + (* a new game *)
      destruct (decide (u = uid)) as [->|Hne].
      * rewrite Hs in Hact. cbn in Hact.
        split; [intros Hc; by rewrite Hc in Hact|]. intros _. by right.
      * pose proof (relates_enter_frame e uid (with_status <[uid := true]> w) u Hne) as Hf.
        cbn [run_task] in Hs'. unfold world_after in Hf. rewrite Hf in Hs'.
        assert (s' = s) as -> by (destruct w; cbn in *; congruence).
        split; [intros _; split|]; [|done|by left].
        intros (-> & _). done.
    + (* a hint *)
      pose proof (relates_hint_unchanged e uid (with_status <[uid := true]> w)) as Hf.
      cbn [run_task] in Hs'. unfold world_after in Hf. rewrite <- Hf in Hs'.
      assert (s' = s) as -> by (destruct w; cbn in *; congruence).
      split; [intros _; split|]; [|done|by left].
      intros (_ & _ & Hfree & _). subst text. by destruct Hfree as (_ & ? & _).
    + (* a submission *)
      destruct Htext as [-> Hfree].
      apply active_session in Hact as (s0 & Hs0 & Hc0).
      cbn [run_task] in Hs'.
      destruct (submission_stage e uid text (with_status <[uid := true]> w) s0) as [Hf Hk];
        [by destruct w|].
      destruct (decide (u = uid)) as [->|Hne].
      * assert (s0 = s) as -> by congruence.
        destruct (Hk s' Hs') as (_ & _ & Hstage).
        split; [intros _|intros Hc; congruence].
        destruct (decide (normalize_code text = normalize_code (correct_snippet s)))
          as [Heq|Hne]; split.
        -- intros _. exact Hstage.
        -- intros Hno. by destruct Hno.
        -- intros (_ & _ & _ & Heq). by destruct Hne.
        -- intros _. exact Hstage.
      * rewrite Hf in Hs' by done.
        assert (s' = s) as -> by (destruct w; cbn in *; congruence).
        split; [intros _; split|]; [|done|by left].
        intros (-> & _). done.
  - (* answered inline *)
    assert (s' = s) as ->.
    { destruct (decide (u = uid)) as [->|Hne].
      - destruct (Hkeep s' Hs') as (s0 & Hs0 & <-). congruence.
      - rewrite Hframe in Hs' by done. congruence. }
    split; [intros Hc; split|]; [|done|by left].
    intros (-> & _ & Hfree & _).
    rewrite (select_task_submission _ _ _ _ Hfree Hs Hc) in Hsel. discriminate.
  - (* the transport failed *)
    assert (s' = s) as ->.
    { destruct (decide (u = uid)) as [->|Hne].
      - destruct (Hkeep s' Hs') as (s0 & Hs0 & <-). congruence.
      - rewrite Hframe in Hs' by done. congruence. }
    split; [intros Hc; split|]; [|done|by left].
    intros (-> & _ & Hfree & _).
    rewrite (select_task_submission _ _ _ _ Hfree Hs Hc) in Hsel. discriminate.
Qed.

Lemma relates_start_unchanged (uid : Z) : relates eq (start_command uid).
Proof. unfold start_command. relates_tac. Qed.

Lemma relates_god_mode_unchanged (uid : Z) : relates eq (god_mode_command uid).
Proof. unfold god_mode_command. relates_tac. Qed.

Lemma stage_step (ev : event) (w : world) (u : Z) (s s' : RoomSession) :
  user_sessions w !! u = Some s ->
  user_sessions (handle ev w) !! u = Some s' ->
  (is_complete s = false ->
     (successful_submission u s ev w ->
        room_number s' = room_number s + 1 /\ attempts s' = 0) /\
     (~ successful_submission u s ev w -> room_number s' = room_number s)) /\
  (is_complete s = true ->
     room_number s' = room_number s \/
     (ev.1.2 = u /\ ev.2 = TextMessage ENTER_CASTLE)).
Proof.
  destruct ev as [[e uid] [text| |]]; unfold handle, successful_submission;
    cbn [fst snd handle_update]; intros Hs Hs'.
  - destruct (router_stage_step e uid text w u s s' Hs Hs') as [Hlive Hdone].
    split.
    + intros Hc. destruct (Hlive Hc) as [Hup Hsame]. split.
      * intros (Hu & Hb & text' & [= <-] & Hfree & Heq). by apply Hup.
      * intros Hno. apply Hsame. intros (Hu & Hb & Hfree & Heq).
        apply Hno. split; [done|]. split; [done|]. by exists text.
    + intros Hc. destruct (Hdone Hc) as [?|[-> ->]]; [by left | by right].
  - rewrite <- (relates_start_unchanged uid w) in Hs'.
    assert (s' = s) as -> by congruence.
    split; [intros _; split|]; [|done|by left].
    intros (_ & _ & text & ? & _). discriminate.
  - rewrite <- (relates_god_mode_unchanged uid w) in Hs'.
    assert (s' = s) as -> by congruence.
    split; [intros _; split|]; [|done|by left].
    intros (_ & _ & text & ? & _). discriminate.
Qed.

Lemma successful_submission_decided (u : Z) (s : RoomSession) (ev : event) (w : world) :
  successful_submission u s ev w \/ ~ successful_submission u s ev w.
Proof.
  destruct ev as [[e uid] [text| |]]; unfold successful_submission; cbn [fst snd].
  - destruct (decide (uid = u /\ is_busy u w = false /\
                      (text <> ENTER_CASTLE /\ text <> GET_HINT /\ text <> LEAVE_GAME
                       /\ text <> MY_PROGRESS) /\
                      normalize_code text = normalize_code (correct_snippet s)))
      as [(? & ? & ? & ?)|Hno].
    + left. split; [done|]. split; [done|]. by exists text.
    + right. intros (? & ? & text' & [= <-] & ? & ?). by apply Hno.
  - right. intros (_ & _ & text & ? & _). discriminate.
  - right. intros (_ & _ & text & ? & _). discriminate.
Qed.

(** C5. Take any event (a text message or a command) and any session that
    exists before and after it.  If the session is live (not marked
    complete), the event is a successful submission by its user exactly when
    the stage index goes up, and then it goes up by exactly one and the
    failed-attempt count is reset to 0; after every other event the stage
    index is what it was.  (A session marked complete keeps its stage index
    too, unless its user starts a new game, which replaces it by a new
    session.)  Hence along any run of events during which the session stays
    alive its stage index never decreases. *)
Theorem C5_stage_index_grows_only_by_successful_submission :
  (forall (ev : event) (w : world) (u : Z) (s s' : RoomSession),
     user_sessions w !! u = Some s ->
     user_sessions (handle ev w) !! u = Some s' ->
     (is_complete s = false ->
        (successful_submission u s ev w ->
           room_number s' = room_number s + 1 /\ attempts s' = 0) /\
        (~ successful_submission u s ev w -> room_number s' = room_number s)) /\
     (is_complete s = true ->
        room_number s' = room_number s \/
        (ev.1.2 = u /\ ev.2 = TextMessage ENTER_CASTLE))) /\
  (forall (u : Z) (evs : list event) (w : world),
     alive_throughout u evs w ->
     exists n n', stage u w = Some n /\ stage u (run evs w) = Some n' /\ n <= n').
Proof.
  split; [exact stage_step|].
  intros u evs. induction evs as [|ev rest IH]; intros w; cbn [alive_throughout run].
  - intros [Hact _]. apply active_session in Hact as (s & Hs & _).
    exists (room_number s), (room_number s). unfold stage. rewrite Hs. cbn. by repeat split.
  - intros [Hact Hrest].
    destruct (IH _ Hrest) as (n1 & n2 & Hn1 & Hn2 & Hle).
    apply active_session in Hact as (s & Hs & Hc).
    unfold stage in Hn1. destruct (user_sessions (handle ev w) !! u) as [s1|] eqn:Hs1; [|done].
    cbn in Hn1. injection Hn1 as <-.
    exists (room_number s), n2. unfold stage at 1. rewrite Hs. cbn.
    split; [done|]. split; [done|].
    destruct (stage_step ev w u s s1 Hs Hs1) as [Hlive _].
    destruct (Hlive Hc) as [Hup Hsame].
    destruct (successful_submission_decided u s ev w) as [Hyes|Hno].
    + destruct (Hup Hyes) as [Hroom _]. lia.
    + rewrite (Hsame Hno) in Hle. lia.
Qed.

Lemma C5_stage_index_witness :
  let evs := [ (scenario_env (ApiDict scenario_room), 42, TextMessage (of_ascii "S1"));
               (scenario_env ApiNone, 42, TextMessage (of_ascii "WRONG"));
               (scenario_env ApiNone, 42, GodModeCommand);
               (scenario_env ApiNone, 42, TextMessage MY_PROGRESS) ] in
  exists n n',
    stage 42 (scenario_world 1) = Some n /\
    stage 42 (run evs (scenario_world 1)) = Some n' /\ n <= n'.
Proof.
  cbn zeta.
  apply (proj2 C5_stage_index_grows_only_by_successful_submission).
  cbn [alive_throughout]. repeat split; by vm_compute.
Defined.

(** ** Sessions of the tasks in flight *)

Lemma touches_only_frame (uid : Z) (keep : relation RoomSession) (m m' : gmap Z RoomSession) :
  touches_only uid keep m m' -> frame uid m m'.
Proof. by intros [Hframe _]. Qed.

Lemma relates_run_task_frame (e : env) (uid : Z) (t : task) :
  relates (frame uid) (run_task e uid t).
Proof.
  destruct t as [| |text]; cbn [run_task].
  - apply relates_enter_frame.
  - exact (relates_weaken _ _ _ (touches_only_frame uid same_flag)
             (relates_hint_same_flag e uid)).
  - exact (relates_weaken _ _ _ (touches_only_frame uid same_flag)
             (relates_submission_same_flag e uid text)).
Qed.

Lemma relates_complete_frame (e : env) (uid : Z) (t : task) :
  relates (frame uid) (complete e uid t).
Proof.
  pose proof (relates_run_task_frame e uid t).
  unfold complete. relates_tac.
Qed.

Lemma relates_arrive_frame (uid : Z) (text : pystr) : relates (frame uid) (arrive uid text).
Proof.
  pose proof (relates_weaken _ _ _ (touches_only_frame uid same_flag)
                (relates_select_task_same_flag uid text)).
  unfold arrive. relates_tac.
Qed.

Lemma arrive_launches (uid : Z) (text : pystr) (w w' : world) (t : task) :
  arrive uid text w = (Returned (Some t), w') ->
  t <> EnterCastle ->
  active (user_sessions w' !! uid) = true.
Proof.
  unfold arrive. unfold_handler.
  destruct (is_busy uid w).
  - unfold transport_call. destruct (transport w) as [|[] ?]; discriminate.
  - destruct (select_task uid text w) as [[[t'|]|x] w1] eqn:Hsel; try discriminate.
    intros [= -> <-] Hne.
    apply select_task_dispatches in Hsel as [-> Hact].
    destruct w. cbn. by destruct t.
Qed.

Lemma arrive_busy_sessions (uid : Z) (text : pystr) (w : world) :
  is_busy uid w = true ->
  user_sessions (world_after (arrive uid text w)) = user_sessions w.
Proof.
  intros Hb. unfold arrive. unfold_handler. rewrite Hb.
  pose proof (relates_transport_call eq uid StillProcessing w) as Hsame.
  unfold world_after in *.
  by destruct (transport_call uid StillProcessing w) as [[[]|x] w1].
Qed.

Lemma in_flight_alive_step (sys sys' : system) :
  sys_step sys sys' -> gate_invariant sys -> in_flight_alive sys -> in_flight_alive sys'.
Proof.
  intros Hstep [Hnd Hflag] Halive.
  destruct Hstep as [uid text sys r w' Harr | e uid t before after sys r w' Hin Hcomp
                    | uid sys r w' Hcmd | uid sys r w' Hcmd];
    intros u t' Hu Hne; cbn [sys_world in_flight] in *.
  - apply elem_of_app in Hu as [Hu|Hu].
    + destruct r as [[t|]|x]; cbn in Hu; try by apply elem_of_nil in Hu.
      apply list_elem_of_singleton in Hu as [= -> ->].
      by apply (arrive_launches _ _ _ _ _ Harr).
    + destruct (decide (u = uid)) as [->|Hdiff].
      * assert (is_busy uid (sys_world sys) = true) as Hb.
        { apply Hflag. apply list_elem_of_fmap. by exists (uid, t'). }
        pose proof (arrive_busy_sessions uid text _ Hb) as Hsame.
        rewrite Harr in Hsame. unfold world_after in Hsame. cbn [snd] in Hsame.
        rewrite Hsame. by apply (Halive uid t').
      * pose proof (relates_arrive_frame uid text (sys_world sys) u Hdiff) as Hframe.
        rewrite Harr in Hframe. unfold world_after in Hframe. cbn [snd] in Hframe.
        rewrite Hframe. by apply (Halive u t').
  - assert (u <> uid) as Hdiff.
    { rewrite Hin, fmap_app, fmap_cons in Hnd. cbn in Hnd.
      apply NoDup_app in Hnd as (_ & Hsep & Ha). apply NoDup_cons in Ha as [Hnotin _].
      intros ->. apply elem_of_app in Hu as [Hu|Hu].
      - apply (Hsep uid); [apply list_elem_of_fmap; by exists (uid, t') | by left].
      - apply Hnotin. apply list_elem_of_fmap. by exists (uid, t'). }
    pose proof (relates_complete_frame e uid t (sys_world sys) u Hdiff) as Hframe.
    rewrite Hcomp in Hframe. unfold world_after in Hframe. cbn [snd] in Hframe.
    rewrite Hframe. apply (Halive u t'); [|done].
    rewrite Hin. apply elem_of_app in Hu as [Hu|Hu]; apply elem_of_app;
      [by left | right; by right].
  - pose proof (relates_start_unchanged uid (sys_world sys)) as Hsame.
    rewrite Hcmd in Hsame. unfold world_after in Hsame. cbn [snd] in Hsame.
    rewrite <- Hsame. by apply (Halive u t').
  - pose proof (relates_god_mode_unchanged uid (sys_world sys)) as Hsame.
    rewrite Hcmd in Hsame. unfold world_after in Hsame. cbn [snd] in Hsame.
    rewrite <- Hsame. by apply (Halive u t').
Qed.

Lemma in_flight_alive_run (sys0 sys : system) :
  rtc sys_step sys0 sys ->
  gate_invariant sys0 -> in_flight_alive sys0 -> in_flight_alive sys.
Proof.
  induction 1 as [sys|sys1 sys2 sys3 Hstep _ IH]; [done|].
  intros Hgate Halive. apply IH.
  - by eapply gate_invariant_step.
  - by eapply in_flight_alive_step.
Qed.

Lemma in_flight_alive_reachable (sys : system) : sys_reachable sys -> in_flight_alive sys.
Proof.
  intros (sys0 & Hinit & Hrun).
  eapply in_flight_alive_run; [exact Hrun | by apply gate_invariant_initial |].
  intros uid t Hin. destruct Hinit as [Hnil _]. rewrite Hnil in Hin.
  by apply elem_of_nil in Hin.
Qed.

Lemma complete_no_attribute_error (e : env) (uid : Z) (t : task) (w : world) :
  (t <> EnterCastle -> active (user_sessions w !! uid) = true) ->
  exception (complete e uid t w).1 <> Some AttributeError.
Proof.
  intros Hact. unfold complete, try_finally.
  assert (exception (run_task e uid t w).1 <> Some AttributeError) as Hrun.
  { destruct t as [| |text]; cbn [run_task].
    - apply no_attribute_error_enter.
    - destruct (active_session _ (Hact ltac:(done))) as (s & Hs & _).
      by apply (no_attribute_error_hint e uid w s).
    - destruct (active_session _ (Hact ltac:(done))) as (s & Hs & _).
      by apply (no_attribute_error_submission e uid text w s). }
  destruct (run_task e uid t w) as [[[]|x] w1]; cbn in *; [done|exact Hrun].
Qed.

(** C10. Whenever the router dispatches the hint task or the submission
    task, the task's own lookup of the user's session finds a session that is
    not complete, so no attribute is ever read on [None]: no event makes
    [message_router] raise the [AttributeError] of such a read.  The same
    holds when tasks of several users are in flight at once: the session of a
    dispatched hint or submission task is still there when the task runs. *)
Theorem C10_dispatched_tasks_find_their_session
    (e : env) (uid : Z) (text : pystr) (w : world) :
  (forall t w1,
     select_task uid text w = (Returned (Some t), w1) ->
     t <> EnterCastle ->
     exists s,
       (lookup_session uid (with_status <[uid := true]> w1)).1 = Returned (Some s) /\
       is_complete s = false) /\
  exception (message_router e uid text w).1 <> Some AttributeError /\
  (forall sys u t,
     sys_reachable sys -> (u, t) ∈ in_flight sys ->
     exception (complete e u t (sys_world sys)).1 <> Some AttributeError).
Proof.
  split; [|split].
  - intros t w1 Hsel Hne.
    apply select_task_dispatches in Hsel as [-> Hact].
    assert (active (user_sessions w !! uid) = true) as Ha by (by destruct t).
    apply active_session in Ha as (s & Hs & Hc).
    exists s. split; [|exact Hc].
    unfold lookup_session, gets. cbn [fst]. destruct w. cbn in *. by rewrite Hs.
  - destruct (is_busy uid w) eqn:Hb.
    + rewrite (router_rejects_busy _ _ _ _ Hb).
      apply no_attribute_error_transport_call.
    + rewrite (router_runs_selected _ _ _ _ Hb).
      pose proof (no_attribute_error_select_task uid text w) as Hsafe.
      destruct (select_task uid text w) as [[[t|]|x] w1] eqn:Hsel; cbn [fst] in *;
        [|done|exact Hsafe].
      rewrite run_gated_unfold.
      apply select_task_dispatches in Hsel as [-> Hact].
      destruct (run_task e uid t _) as [r w2] eqn:Hrun. cbn [fst].
      change r with ((r, w2).1). rewrite <- Hrun.
      destruct t as [| |text']; cbn [run_task].
      * apply no_attribute_error_enter.
      * apply active_session in Hact as (s & Hs & _).
        apply (no_attribute_error_hint e uid _ s). by destruct w.
      * apply active_session in Hact as (s & Hs & _).
        apply (no_attribute_error_submission e uid text' _ s). by destruct w.
  - intros sys u t Hreach Hin. apply complete_no_attribute_error.
    intros Hne. by apply (in_flight_alive_reachable sys Hreach u t).
Qed.

Lemma C10_dispatched_tasks_witness :
  exists s,
    (lookup_session 42 (with_status <[42 := true]> (scenario_world 1))).1 = Returned (Some s) /\
    is_complete s = false.
Proof.
  apply (proj1 (C10_dispatched_tasks_find_their_session (scenario_env ApiNone) 42 GET_HINT
                  (scenario_world 1)) Hint (scenario_world 1)).
  - reflexivity.
  - discriminate.
Defined.

(** * Further properties of the code *)

(** ** Normalisation, continued *)

Lemma remove_whitespace_app (a b : pystr) :
  remove_whitespace (a ++ b) = remove_whitespace a ++ remove_whitespace b.
Proof. unfold remove_whitespace. apply filter_app. Qed.

Lemma remove_whitespace_spaces (ws : pystr) :
  Forall (fun c => is_space c = true) ws <-> remove_whitespace ws = [].
Proof.
  unfold remove_whitespace. induction ws as [|c ws IH]; [by split|].
  rewrite filter_cons, Forall_cons. destruct (is_space c) eqn:Hc.
  - rewrite decide_False by discriminate. rewrite <- IH. tauto.
  - rewrite decide_True by reflexivity. split; [by intros [? _]|discriminate].
Qed.

Lemma remove_whitespace_no_space (code : pystr) :
  Forall (fun c => is_space c = false) (remove_whitespace code).
Proof.
  unfold remove_whitespace. apply Forall_forall. intros c Hc.
  by apply list_elem_of_filter in Hc as [Hc _].
Qed.

Lemma remove_whitespace_fixed (code : pystr) :
  Forall (fun c => is_space c = false) code -> remove_whitespace code = code.
Proof.
  unfold remove_whitespace. induction 1 as [|c code Hc _ IH]; [reflexivity|].
  rewrite filter_cons, decide_True by exact Hc. by rewrite IH.
Qed.

(** X1. [normalize_code] is idempotent, its result holds no whitespace code
    point, and the result is the empty string exactly for a text made of
    whitespace only (the empty text included). *)
Theorem normalize_code_idempotent (code : pystr) :
  normalize_code (normalize_code code) = normalize_code code /\
  Forall (fun c => is_space c = false) (normalize_code code) /\
  (normalize_code code = [] <-> Forall (fun c => is_space c = true) code).
Proof.
  rewrite !normalize_code_removes_whitespace. split; [|split].
  - apply remove_whitespace_fixed, remove_whitespace_no_space.
  - apply remove_whitespace_no_space.
  - symmetry. apply remove_whitespace_spaces.
Qed.

Lemma normalize_code_idempotent_witness :
  normalize_code (normalize_code (of_ascii " x = 1 ")) = normalize_code (of_ascii " x = 1 ").
Proof. apply (proj1 (normalize_code_idempotent (of_ascii " x = 1 "))). Defined.

(** X2. Whitespace put anywhere into a text does not change what
    [normalize_code] makes of it, and [normalize_code] of a concatenation is
    the concatenation of the normalised parts. *)
Theorem normalize_code_ignores_whitespace (a ws b : pystr) :
  Forall (fun c => is_space c = true) ws ->
  normalize_code (a ++ ws ++ b) = normalize_code (a ++ b) /\
  normalize_code (a ++ b) = normalize_code a ++ normalize_code b.
Proof.
  intros Hws. rewrite !normalize_code_removes_whitespace, !remove_whitespace_app.
  apply remove_whitespace_spaces in Hws. by rewrite Hws.
Qed.

Lemma normalize_code_ignores_whitespace_witness :
  normalize_code (of_ascii "x" ++ [32; 9; 10; 12288]%N ++ of_ascii "=1")
  = normalize_code (of_ascii "x" ++ of_ascii "=1").
Proof.
  apply (normalize_code_ignores_whitespace (of_ascii "x") [32; 9; 10; 12288]%N (of_ascii "=1")).
  repeat constructor.
Defined.

(** ** Components of the world that a computation leaves alone *)

Section Keeps.

Context {B : Type} (field : world -> B).

Lemma keeps_bind {A C} (m : M A) (k : A -> M C) :
  keeps field m -> (forall a, keeps field (k a)) -> keeps field (bind m k).
Proof.
  intros Hm Hk w. unfold bind. specialize (Hm w). unfold world_after in *.
  destruct (m w) as [[a|x] w1]; cbn [snd] in *; [|done].
  rewrite <- Hm. apply Hk.
Qed.

Lemma keeps_ret {A} (a : A) : keeps field (mret a).
Proof. by intros w. Qed.

Lemma keeps_raise {A} (x : exn) : keeps field (@raise A x).
Proof. by intros w. Qed.

Lemma keeps_gets {A} (f : world -> A) : keeps field (gets f).
Proof. by intros w. Qed.

Lemma keeps_modify (f : world -> world) :
  (forall w, field (f w) = field w) -> keeps field (modify f).
Proof. intros Hf w. apply Hf. Qed.

Lemma keeps_try_except {A} (body handler : M A) (caught : exn -> bool) :
  keeps field body -> keeps field handler -> keeps field (try_except body caught handler).
Proof.
  intros Hb Hh w. unfold try_except. specialize (Hb w). unfold world_after in *.
  destruct (body w) as [[a|x] w1]; cbn [snd] in *; [done|].
  destruct (caught x); cbn [snd]; [|done]. rewrite <- Hb. apply Hh.
Qed.

Lemma keeps_try_finally {A} (body : M A) (cleanup : M unit) :
  keeps field body -> keeps field cleanup -> keeps field (try_finally body cleanup).
Proof.
  intros Hb Hc w. unfold try_finally. specialize (Hb w). unfold world_after in *.
  destruct (body w) as [[a|x] w1]; cbn [snd] in *; specialize (Hc w1);
    unfold world_after in Hc;
    destruct (cleanup w1) as [[[]|x'] w2]; cbn [snd] in *; congruence.
Qed.

Lemma keeps_transport_call (uid : Z) (r : reply) :
  (forall u r w, field (with_sent u r w) = field w) ->
  (forall t w, field (with_transport t w) = field w) ->
  keeps field (transport_call uid r).
Proof.
  intros Hsent Htransport w. unfold transport_call, world_after.
  destruct (transport w) as [|[] rest]; cbn [snd];
    by rewrite ?Hsent, ?Htransport.
Qed.

End Keeps.

Ltac keeps_step :=
  match goal with
  | |- keeps _ (bind _ _) => apply keeps_bind; [|intros ?]
  | |- keeps _ (mret _) => apply keeps_ret
  | |- keeps _ (raise _) => apply keeps_raise
  | |- keeps _ (gets _) => apply keeps_gets
  | |- keeps _ (modify _) => apply keeps_modify; by intros []
  | |- keeps _ (try_except _ _ _) => apply keeps_try_except
  | |- keeps _ (try_finally _ _) => apply keeps_try_finally
  | |- keeps _ (transport_call _ _) => apply keeps_transport_call; by (intros; match goal with w : world |- _ => destruct w end)
  | H : keeps ?f ?m |- keeps ?f ?m => exact H
  | |- keeps _ (match ?x with _ => _ end) => destruct x
  end.

Ltac keeps_tac :=
  unfold lookup_session, update_session, reply_text, send_chat_action,
    call_groq_api_json, call_groq_api_text, attribute_of, mark_busy, mbind, M_bind;
  repeat keeps_step.

(** ** The branches of the router, button by button *)

Lemma select_task_enter (uid : Z) (w : world) :
  select_task uid ENTER_CASTLE w =
  match user_sessions w !! uid with
  | Some s =>
      if negb (is_complete s) then
        (reply_text uid WelcomeBack ;;
         reply_text uid (RoomMessage (room_number s) (description s) (buggy_snippet s)) ;;
         mret None) w
      else (Returned (Some EnterCastle), w)
  | None => (Returned (Some EnterCastle), w)
  end.
Proof.
  unfold select_task, lookup_session. unfold bind at 1. unfold gets.
  rewrite decide_True by reflexivity.
  by repeat case_match.
Qed.


Lemma select_task_leave (uid : Z) (w : world) :
  select_task uid LEAVE_GAME w =
  match user_sessions w !! uid with
  | Some _ => (cleanup_session uid ;; reply_text uid LeftCastle ;; mret None) w
  | None => (reply_text uid OutsideCastle ;; mret None) w
  end.
Proof.
  unfold select_task, lookup_session. unfold bind at 1. unfold gets.
  rewrite !(decide_False (P := LEAVE_GAME = _)) by discriminate.
  rewrite decide_True by reflexivity.
  by case_match.
Qed.


(** ** Starting a game *)

Lemma omap_cons_list {A C} (f : A -> option C) (x : A) (l : list A) :
  omap f (x :: l) = match f x with Some y => y :: omap f l | None => omap f l end.
Proof. reflexivity. Qed.

Lemma RoomSession_for_user_fits (uid : Z) (d : kwargs) :
  fits_session d -> RoomSession_for_user uid d = inr (session_from_answer uid d).
Proof.
  intros [Hother Huser].
  unfold RoomSession_for_user, RoomSession_of_kwargs. rewrite Huser.
  cbn [has_other_key existsb orb]. fold (has_other_key d). rewrite Hother.
  unfold get_user_id in *. rewrite omap_cons_list.
  apply last_None in Huser. rewrite Huser. reflexivity.
Qed.

Lemma RoomSession_for_user_misfit (uid : Z) (d : kwargs) :
  ~ fits_session d -> RoomSession_for_user uid d = inl TypeError.
Proof.
  intros Hno.
  unfold RoomSession_for_user, RoomSession_of_kwargs.
  destruct (get_user_id d) eqn:Huser; [reflexivity|].
  cbn [has_other_key existsb orb]. fold (has_other_key d).
  destruct (has_other_key d) eqn:Hother; [reflexivity|].
  destruct Hno. by split.
Qed.

Lemma enter_created (e : env) (uid : Z) (w : world) (d : kwargs) (session : RoomSession) :
  answer_is_room (answer_json e) = Some d ->
  RoomSession_for_user uid d = inr session ->
  transport w = [] ->
  enter_castle_task e uid w =
  (Returned tt,
   let sessions := <[uid := session]> (user_sessions w) in
   mkWorld sessions (user_processing_status w) (written_file sessions)
           (logged w ++ [save_report sessions])
           (sent w ++ [(uid, Typing);
                       (uid, RoomMessage (room_number session) (description session)
                                         (buggy_snippet session))])
           (requested w ++ [GenerateRoom 1]) []).
Proof.
  intros Hd Hsession Ht.
  unfold enter_castle_task. unfold_handler.
  rewrite transport_call_delivers by exact Ht.
  rewrite Hd, Hsession.
  rewrite save_sessions_to_file_run.
  rewrite transport_call_delivers by (destruct w; exact Ht).
  open_world w. rewrite <- app_assoc. reflexivity.
Qed.

Lemma enter_rejected (e : env) (uid : Z) (w : world) (d : kwargs) :
  answer_is_room (answer_json e) = Some d ->
  RoomSession_for_user uid d = inl TypeError ->
  transport w = [] ->
  enter_castle_task e uid w =
  (Raised TypeError,
   mkWorld (user_sessions w) (user_processing_status w) (session_file w) (logged w)
           (sent w ++ [(uid, Typing)]) (requested w ++ [GenerateRoom 1]) []).
Proof.
  intros Hd Hsession Ht.
  unfold enter_castle_task. unfold_handler.
  rewrite transport_call_delivers by exact Ht.
  rewrite Hd, Hsession.
  open_world w. reflexivity.
Qed.

Lemma enter_failed (e : env) (uid : Z) (w : world) :
  answer_is_room (answer_json e) = None ->
  transport w = [] ->
  enter_castle_task e uid w =
  (Returned tt,
   mkWorld (user_sessions w) (user_processing_status w) (session_file w)
           (logged w ++ [ErrorNoValidRoom])
           (sent w ++ [(uid, Typing); (uid, GateLocked)])
           (requested w ++ [GenerateRoom 1]) []).
Proof.
  intros Hd Ht.
  unfold enter_castle_task. unfold_handler.
  rewrite transport_call_delivers by exact Ht.
  rewrite Hd.
  rewrite transport_call_delivers by (destruct w; exact Ht).
  open_world w. rewrite <- app_assoc. reflexivity.
Qed.

Lemma router_starts_game (e : env) (uid : Z) (w : world) :
  is_busy uid w = false ->
  active (user_sessions w !! uid) = false ->
  message_router e uid ENTER_CASTLE w =
  match enter_castle_task e uid (with_status <[uid := true]> w) with
  | (r, w') => (r, with_status <[uid := false]> w')
  end.
Proof.
  intros Hb Hs.
  rewrite (router_runs_selected _ _ _ _ Hb), select_task_enter.
  destruct (user_sessions w !! uid) as [s|]; cbn [active] in Hs; rewrite ?Hs;
    by rewrite run_gated_unfold.
Qed.

(** X3. Starting a game (Scenario A).  For a user who is not busy and has
    no active session, when the generator answers a dict with the three room
    keys whose other keys, if any, name fields of the session other than
    [user_id], and the transport delivers: the router returns, stores for the
    user the session built from the answer (stage 1, no failed attempt and
    not complete unless the answer itself says otherwise), has asked the
    generator once, for room 1, shows the room, and leaves the user's flag
    cleared.  The mapping is saved: when every key and session of it can be
    written, a fresh process that loads the file finds the mapping; when one
    cannot (a text with a surrogate code point, as the answer may hold, or
    an integer of more than 4300 digits), the save fails, the file is left
    truncated and a fresh process starts empty. *)
Theorem start_session_stores_the_answer (e : env) (uid : Z) (w : world) (d : kwargs) :
  is_busy uid w = false ->
  active (user_sessions w !! uid) = false ->
  answer_json e = ApiDict d ->
  has_room_keys d = true ->
  fits_session d ->
  transport w = [] ->
  let r := message_router e uid ENTER_CASTLE w in
  let session := session_from_answer uid d in
  r.1 = Returned tt /\
  user_sessions (world_after r) = <[uid := session]> (user_sessions w) /\
  session_file (world_after r) = written_file (<[uid := session]> (user_sessions w)) /\
  requested (world_after r) = requested w ++ [GenerateRoom 1] /\
  sent (world_after r) =
    sent w ++ [(uid, Typing);
               (uid, RoomMessage (room_number session) (description session)
                                 (buggy_snippet session))] /\
  is_busy uid (world_after r) = false /\
  saved_or_lost (<[uid := session]> (user_sessions w)) (world_after r).
Proof.
  intros Hb Hs He Hkeys Hfits Ht. cbn zeta.
  rewrite (router_starts_game _ _ _ Hb Hs).
  rewrite (enter_created e uid _ d (session_from_answer uid d));
    [ | unfold answer_is_room; by rewrite He, Hkeys
      | by apply RoomSession_for_user_fits
      | by destruct w ].
  fields. repeat (split; [by destruct w|]).
  split; [unfold is_busy; fields; by rewrite lookup_insert_eq|].
  apply written_file_outcome. by destruct w.
Qed.

Lemma start_session_witness :
  let e := scenario_env (ApiDict [ KDescription (of_ascii "P1"); KBuggySnippet (of_ascii "C1");
                                   KCorrectSnippet (of_ascii "S1") ]) in
  let r := message_router e 42 ENTER_CASTLE (startup Missing) in
  user_sessions (world_after r) = {[ 42 := scenario_session 1 ]} /\
  requested (world_after r) = [GenerateRoom 1].
Proof.
  destruct (start_session_stores_the_answer
              (scenario_env (ApiDict [ KDescription (of_ascii "P1");
                                       KBuggySnippet (of_ascii "C1");
                                       KCorrectSnippet (of_ascii "S1") ]))
              42 (startup Missing)
              [ KDescription (of_ascii "P1"); KBuggySnippet (of_ascii "C1");
                KCorrectSnippet (of_ascii "S1") ])
    as (_ & Hm & _ & Hreq & _).
  - reflexivity.
  - reflexivity.
  - reflexivity.
  - reflexivity.
  - by split.
  - reflexivity.
  - cbn zeta. rewrite Hm, Hreq. split; reflexivity.
Defined.



(** X5. Starting a game with an answer that does not fit the dataclass.
    When the generator's dict has the three room keys and also a key that
    names no field of the session, or a [user_id] key, the construction of
    the session raises [TypeError]; the exception leaves the router, nothing
    is stored, written or logged, the user gets no message beyond the typing
    notice, and the user's flag is cleared. *)
Theorem start_session_rejects_stray_key (e : env) (uid : Z) (w : world) (d : kwargs) :
  is_busy uid w = false ->
  active (user_sessions w !! uid) = false ->
  answer_json e = ApiDict d ->
  has_room_keys d = true ->
  ~ fits_session d ->
  transport w = [] ->
  let r := message_router e uid ENTER_CASTLE w in
  r.1 = Raised TypeError /\
  user_sessions (world_after r) = user_sessions w /\
  session_file (world_after r) = session_file w /\
  logged (world_after r) = logged w /\
  sent (world_after r) = sent w ++ [(uid, Typing)] /\
  is_busy uid (world_after r) = false.
Proof.
  intros Hb Hs He Hkeys Hfits Ht. cbn zeta.
  rewrite (router_starts_game _ _ _ Hb Hs).
  rewrite (enter_rejected e uid _ d);
    [ | unfold answer_is_room; by rewrite He, Hkeys
      | by apply RoomSession_for_user_misfit
      | by destruct w ].
  fields. repeat split; try (destruct w; reflexivity).
  unfold is_busy. fields. by rewrite lookup_insert_eq.
Qed.

Lemma start_session_rejects_witness :
  let d := [ KDescription (of_ascii "P1"); KBuggySnippet (of_ascii "C1");
             KCorrectSnippet (of_ascii "S1"); KOther ] in
  let r := message_router (scenario_env (ApiDict d)) 42 ENTER_CASTLE (startup Missing) in
  r.1 = Raised TypeError /\ user_sessions (world_after r) = ∅.
Proof.
  destruct (start_session_rejects_stray_key
              (scenario_env (ApiDict [ KDescription (of_ascii "P1");
                                       KBuggySnippet (of_ascii "C1");
                                       KCorrectSnippet (of_ascii "S1"); KOther ]))
              42 (startup Missing)
              [ KDescription (of_ascii "P1"); KBuggySnippet (of_ascii "C1");
                KCorrectSnippet (of_ascii "S1"); KOther ])
    as (Hr & Hm & _).
  - reflexivity.
  - reflexivity.
  - reflexivity.
  - reflexivity.
  - intros [Hother _]. discriminate Hother.
  - reflexivity.
  - cbn zeta. rewrite Hr, Hm. split; reflexivity.
Defined.

(** ** Advancing to the next room *)

(** X6. A right answer below the final stage (Scenario B).  For a user who
    is not busy and holds an active session below stage 5, a free text that
    equals the stored solution up to whitespace, a generator answer that is
    a dict with the three room keys, and a transport that delivers: the
    router returns; the session keeps its user and its completion flag, is
    one stage further with no failed attempt, and carries the three texts of
    the answer, all replaced together; the generator was asked once, for the
    new stage; the user is shown the room-complete line and the new room;
    the flag is cleared.  Other keys of the answer are ignored.  The mapping
    is saved: when every key and session of it can be written, a fresh
    process that loads the file finds the mapping; when one cannot (a text
    with a surrogate code point, as the answer may hold, or an integer of
    more than 4300 digits), the save fails, the file is left truncated and a
    fresh process starts empty. *)
Theorem correct_submission_advances
    (e : env) (uid : Z) (text : pystr) (w : world) (s : RoomSession) (d : kwargs) :
  is_busy uid w = false ->
  user_sessions w !! uid = Some s ->
  is_complete s = false ->
  free_text text ->
  normalize_code text = normalize_code (correct_snippet s) ->
  room_number s < FINAL_ROOM ->
  answer_json e = ApiDict d ->
  has_room_keys d = true ->
  transport w = [] ->
  let r := message_router e uid text w in
  let room := room_number s + 1 in
  let session :=
    mkRoomSession (user_id s) room (default [] (get_description d))
                  (default [] (get_buggy_snippet d)) (default [] (get_correct_snippet d))
                  0 (is_complete s) in
  r.1 = Returned tt /\
  user_sessions (world_after r) = <[uid := session]> (user_sessions w) /\
  session_file (world_after r) = written_file (<[uid := session]> (user_sessions w)) /\
  requested (world_after r) = requested w ++ [GenerateRoom room] /\
  sent (world_after r) =
    sent w ++ [(uid, Typing); (uid, RoomComplete (choice e `mod` 10)%nat room);
               (uid, RoomMessage room (description session) (buggy_snippet session))] /\
  is_busy uid (world_after r) = false /\
  saved_or_lost (<[uid := session]> (user_sessions w)) (world_after r).
Proof.
  intros Hb Hs Hc Hfree Heq Hroom He Hkeys Ht. cbn zeta.
  rewrite (router_runs_selected _ _ _ _ Hb).
  rewrite (select_task_submission _ _ _ _ Hfree Hs Hc).
  rewrite run_gated_unfold. cbn [run_task].
  rewrite (submission_advance e uid text (with_status <[uid := true]> w) s d);
    [ | by destruct w | exact Heq | exact Hroom
      | unfold answer_is_room; by rewrite He, Hkeys | by destruct w ].
  fields. repeat (split; [by destruct w|]).
  split; [unfold is_busy; fields; by rewrite lookup_insert_eq|].
  apply written_file_outcome. by destruct w.
Qed.

Lemma correct_submission_advances_witness :
  let r := message_router (scenario_env (ApiDict scenario_room)) 42 (of_ascii "S1")
             (scenario_world 1) in
  user_sessions (world_after r) =
    {[ 42 := mkRoomSession 42 2 (of_ascii "P2") (of_ascii "C2") (of_ascii "S2") 0 false ]} /\
  requested (world_after r) = [GenerateRoom 2].
Proof.
  destruct (correct_submission_advances
              (scenario_env (ApiDict scenario_room)) 42 (of_ascii "S1")
              (scenario_world 1) (scenario_session 1) scenario_room)
    as (_ & Hm & _ & Hreq & _).
  - reflexivity.
  - reflexivity.
  - reflexivity.
  - repeat split; by vm_compute.
  - reflexivity.
  - reflexivity.
  - reflexivity.
  - reflexivity.
  - reflexivity.
  - cbn zeta. rewrite Hm, Hreq. split; [|reflexivity].
    apply insert_insert_eq.
Defined.

(** ** Events that are answered at once *)

Lemma router_inline (e : env) (uid : Z) (text : pystr) (w : world) (m : M unit) :
  is_busy uid w = false ->
  select_task uid text w = (m ;; mret None) w ->
  message_router e uid text w = m w.
Proof.
  intros Hb Hsel. rewrite (router_runs_selected _ _ _ _ Hb), Hsel.
  unfold mbind, M_bind, bind, mret, M_ret.
  by destruct (m w) as [[[]|x] w1].
Qed.


Lemma select_task_no_session (uid : Z) (text : pystr) (w : world) :
  active (user_sessions w !! uid) = false ->
  text <> ENTER_CASTLE ->
  (text = LEAVE_GAME -> user_sessions w !! uid = None) ->
  select_task uid text w = (reply_text uid (no_session_reply text) ;; mret None) w.
Proof.
  intros Hs Hne Hleave.
  unfold select_task, lookup_session, no_session_reply. unfold bind at 1. unfold gets.
  rewrite Hs. rewrite (decide_False (P := text = ENTER_CASTLE)) by exact Hne.
  destruct (user_sessions w !! uid) as [s|] eqn:Hlookup.
  - cbn [active] in Hs. apply negb_false_iff in Hs. rewrite Hs.
    repeat case_match; try reflexivity.
    match goal with Hl : text = LEAVE_GAME |- _ => by specialize (Hleave Hl) end.
  - by repeat case_match.
Qed.

(** Proves [keeps field m] for a handler [m] that is spelled out. *)
Ltac keeps_handler :=
  unfold run_gated, run_task, hint_task, god_mode_command, start_command;
  keeps_tac.

(** Turns a goal on the world after [m w] into [keeps field m]. *)
Ltac as_keeps :=
  match goal with
  | |- ?field (world_after (?m ?w)) = ?field ?w =>
      generalize w; change (keeps field m)
  end.




Lemma leave_run (e : env) (uid : Z) (w : world) :
  is_busy uid w = false ->
  transport w = [] ->
  message_router e uid LEAVE_GAME w =
  match user_sessions w !! uid with
  | Some _ =>
      (Returned tt,
       let sessions := delete uid (user_sessions w) in
       mkWorld sessions (user_processing_status w) (written_file sessions)
               (logged w ++ [save_report sessions; InfoCleanedUp uid])
               (sent w ++ [(uid, LeftCastle)]) (requested w) [])
  | None => (Returned tt, with_sent uid OutsideCastle w)
  end.
Proof.
  intros Hb Ht. pose proof (select_task_leave uid w) as Hsel.
  destruct (user_sessions w !! uid) as [s|] eqn:Hs.
  - rewrite (router_inline e uid _ w (cleanup_session uid ;; reply_text uid LeftCastle) Hb)
      by (rewrite Hsel; unfold mbind, M_bind, bind;
          by destruct (cleanup_session uid w) as [[[]|?] ?]).
    unfold mbind, M_bind, bind. rewrite cleanup_session_run.
    unfold reply_text. rewrite transport_call_delivers by (by destruct w).
    open_world w. by rewrite <- app_assoc.
  - rewrite (router_inline e uid _ w _ Hb Hsel).
    apply transport_call_delivers, Ht.
Qed.

(** X8. Leaving the game.  For a user who is not busy, with a transport
    that delivers, the leave button makes the router return with the user's
    entry removed from the mapping, whether or not the session was complete,
    and every other entry as it was; no call goes to the generator and no
    flag is written.  When there was an entry, the mapping without it is
    written to the file (a fresh process that loads the file finds no
    session for the user) and the user is told so; when there was none,
    nothing is written and the user is told to be outside.  A second leave
    changes neither mapping nor file and answers that the user is outside. *)
Theorem leave_game_deletes_session (e e' : env) (uid : Z) (w : world) :
  is_busy uid w = false ->
  transport w = [] ->
  let r := message_router e uid LEAVE_GAME w in
  let w' := world_after r in
  let again := world_after (message_router e' uid LEAVE_GAME w') in
  r.1 = Returned tt /\
  user_sessions w' = delete uid (user_sessions w) /\
  requested w' = requested w /\
  user_processing_status w' = user_processing_status w /\
  match user_sessions w !! uid with
  | Some _ =>
      session_file w' = written_file (delete uid (user_sessions w)) /\
      reloaded w' !! uid = None /\
      sent w' = sent w ++ [(uid, LeftCastle)]
  | None =>
      session_file w' = session_file w /\
      sent w' = sent w ++ [(uid, OutsideCastle)]
  end /\
  user_sessions again = user_sessions w' /\
  session_file again = session_file w' /\
  sent again = sent w' ++ [(uid, OutsideCastle)].
Proof.
  intros Hb Ht. cbn zeta.
  assert (is_busy uid (world_after (message_router e uid LEAVE_GAME w)) = false
          /\ transport (world_after (message_router e uid LEAVE_GAME w)) = []
          /\ user_sessions (world_after (message_router e uid LEAVE_GAME w)) !! uid = None)
    as (Hb' & Ht' & Hs').
  { rewrite (leave_run e uid w Hb Ht).
    destruct (user_sessions w !! uid) eqn:Hs; fields.
    - split; [exact Hb|]. split; [reflexivity|]. apply lookup_delete_eq.
    - destruct w. cbn in *. by rewrite Hs. }
  rewrite (leave_run e' uid _ Hb' Ht'), Hs'.
  rewrite (leave_run e uid w Hb Ht).
  destruct (user_sessions w !! uid) eqn:Hs; fields.
  - repeat split; try reflexivity.
    apply (reloaded_without _ (user_sessions w)). reflexivity.
  - repeat split; try (destruct w; reflexivity).
    destruct w. cbn in *. by rewrite delete_id.
Qed.

Lemma leave_game_witness :
  let w' := world_after (message_router (scenario_env ApiNone) 42 LEAVE_GAME
                           (scenario_world 3)) in
  user_sessions w' = ∅ /\ requested w' = [].
Proof.
  destruct (leave_game_deletes_session (scenario_env ApiNone) (scenario_env ApiNone) 42
              (scenario_world 3)) as (_ & Hm & Hreq & _).
  - reflexivity.
  - reflexivity.
  - cbn zeta. rewrite Hm, Hreq. split; [|reflexivity].
    apply delete_singleton_eq.
Defined.





(** X11. A user without an active session.  When the user has no session,
    or one that is marked complete, every text but the enter button (and,
    for a complete session, but the leave button, which deletes it) is
    answered without any effect on the state: whatever the transport does,
    and whether or not the user's flag is set, the session mapping, the
    session file, the log, the busy flags and the list of generator calls
    stay as they were.  For a user who is not busy, with a transport that
    delivers, the router returns after one message, which depends on the
    button pressed. *)
Theorem without_session_nothing_changes (e : env) (uid : Z) (text : pystr) (w : world) :
  active (user_sessions w !! uid) = false ->
  text <> ENTER_CASTLE ->
  (text = LEAVE_GAME -> user_sessions w !! uid = None) ->
  let r := message_router e uid text w in
  let w' := world_after r in
  user_sessions w' = user_sessions w /\
  session_file w' = session_file w /\
  logged w' = logged w /\
  requested w' = requested w /\
  user_processing_status w' = user_processing_status w /\
  (is_busy uid w = false -> transport w = [] ->
   r.1 = Returned tt /\ sent w' = sent w ++ [(uid, no_session_reply text)]).
Proof.
  intros Hs Hne Hleave. cbn zeta.
  assert (is_busy uid w = false ->
          message_router e uid text w = reply_text uid (no_session_reply text) w) as Hrun.
  { intros Hb. apply (router_inline _ _ _ _ _ Hb).
    by apply select_task_no_session. }
  assert (forall {B} (field : world -> B),
            (forall r, keeps field (reply_text uid r)) ->
            field (world_after (message_router e uid text w)) = field w) as Hkeeps.
  { intros B field Hreply.
    destruct (is_busy uid w) eqn:Hb.
    - rewrite (router_rejects_busy _ _ _ _ Hb). apply Hreply.
    - rewrite (Hrun eq_refl). apply Hreply. }
  repeat split; try (apply Hkeeps; intros r; keeps_handler).
  - rewrite Hrun by assumption. unfold reply_text.
    by rewrite transport_call_delivers.
  - rewrite Hrun by assumption. unfold reply_text.
    rewrite transport_call_delivers by assumption. by destruct w.
Qed.

Lemma without_session_witness :
  let w' := world_after (message_router (scenario_env ApiNone) 42 (of_ascii "print(1)")
                           (startup Missing)) in
  user_sessions w' = ∅ /\ sent w' = [(42, EchoLost)].
Proof.
  destruct (without_session_nothing_changes (scenario_env ApiNone) 42 (of_ascii "print(1)")
              (startup Missing)) as (Hm & _ & _ & _ & _ & Hrun).
  - reflexivity.
  - discriminate.
  - discriminate.
  - destruct Hrun as [_ Hsent]; [reflexivity | reflexivity |].
    cbn zeta. rewrite Hm, Hsent. split; reflexivity.
Defined.

(** ** One user's events and the other users *)

Lemma relates_router_frame (e : env) (uid : Z) (text : pystr) :
  relates (frame uid) (message_router e uid text).
Proof.
  intros w. rewrite router_is_arrive_then_complete.
  pose proof (relates_arrive_frame uid text).
  assert (forall t, relates (frame uid) (complete e uid t)) by (intros t; apply relates_complete_frame).
  revert w. change (relates (frame uid)
    (let* launched := arrive uid text in
     match launched with Some t => complete e uid t | None => mret tt end)).
  relates_tac. done.
Qed.

Lemma keeps_flag_of_other (uid u : Z) (b : bool) :
  u <> uid -> keeps (fun w => user_processing_status w !! u) (modify (with_status <[uid := b]>)).
Proof. intros Hne [? ? ? ? ? ? ?]. unfold world_after, modify. cbn. by rewrite lookup_insert_ne. Qed.

Lemma keeps_status_weaken {A B} (f : gmap Z bool -> B) (m : M A) :
  keeps_status m -> keeps (fun w => f (user_processing_status w)) m.
Proof. intros Hm w. cbn beta. by rewrite Hm. Qed.

Lemma handle_update_other_flags (e : env) (uid u : Z) (upd : update) :
  u <> uid -> keeps (fun w => user_processing_status w !! u) (handle_update e uid upd).
Proof.
  intros Hne.
  pose proof (keeps_flag_of_other uid u true Hne).
  pose proof (keeps_flag_of_other uid u false Hne).
  destruct upd as [text| |]; cbn [handle_update].
  - pose proof (keeps_status_weaken (fun m => m !! u) _ (keeps_status_select_task uid text)).
    unfold message_router, run_gated. keeps_tac.
    apply (keeps_status_weaken (fun m => m !! u)), keeps_status_run_task.
  - apply (keeps_status_weaken (fun m => m !! u)), keeps_status_start.
  - apply (keeps_status_weaken (fun m => m !! u)), keeps_status_god_mode.
Qed.

(** X12. Events of one user leave the other users alone.  Whatever the
    update is (a text or one of the two commands), whatever the generator
    answers and whatever the transport does, handling an event of one user
    changes neither the session nor the busy flag of any other user. *)
Theorem events_touch_only_their_user (ev : event) (w : world) (u : Z) :
  u <> ev.1.2 ->
  user_sessions (handle ev w) !! u = user_sessions w !! u /\
  user_processing_status (handle ev w) !! u = user_processing_status w !! u.
Proof.
  destruct ev as [[e uid] upd]. cbn [fst snd]. intros Hne. unfold handle. cbn [fst snd].
  split.
  - destruct upd as [text| |]; cbn [handle_update].
    + by apply (relates_router_frame e uid text w).
    + by rewrite <- (relates_start_unchanged uid w).
    + by rewrite <- (relates_god_mode_unchanged uid w).
  - exact (handle_update_other_flags e uid u upd Hne w).
Qed.

Lemma events_touch_only_their_user_witness :
  let ev := (scenario_env ApiNone, 7, TextMessage LEAVE_GAME) in
  user_sessions (handle ev (scenario_world 1)) !! 42 = Some (scenario_session 1).
Proof.
  destruct (events_touch_only_their_user
              (scenario_env ApiNone, 7, TextMessage LEAVE_GAME) (scenario_world 1) 42)
    as [Hm _].
  - discriminate.
  - cbn zeta. rewrite Hm. reflexivity.
Defined.

(** ** Calls of the generator *)

Lemma once_keeps {A} (m : M A) : keeps requested m -> asks_at_most_once m.
Proof. intros Hm w. left. apply Hm. Qed.

Lemma once_after {A C} (m : M A) (k : A -> M C) :
  keeps requested m -> (forall a, asks_at_most_once (k a)) -> asks_at_most_once (bind m k).
Proof.
  intros Hm Hk w. unfold bind. specialize (Hm w). unfold world_after in *.
  destruct (m w) as [[a|x] w1]; cbn [snd] in *; [|by left].
  rewrite <- Hm. apply Hk.
Qed.

Lemma once_then {A C} (m : M A) (k : A -> M C) :
  asks_at_most_once m -> (forall a, keeps requested (k a)) -> asks_at_most_once (bind m k).
Proof.
  intros Hm Hk w. unfold bind. specialize (Hm w). unfold world_after in *.
  destruct (m w) as [[a|x] w1]; cbn [snd] in *; [|exact Hm].
  specialize (Hk a w1). unfold world_after in Hk. by rewrite Hk.
Qed.

Lemma once_try_finally {A} (body : M A) (cleanup : M unit) :
  asks_at_most_once body -> keeps requested cleanup ->
  asks_at_most_once (try_finally body cleanup).
Proof.
  intros Hb Hc w. unfold try_finally. specialize (Hb w). unfold world_after in *.
  destruct (body w) as [[a|x] w1]; cbn [snd] in *; specialize (Hc w1);
    unfold world_after in Hc;
    destruct (cleanup w1) as [[[]|x'] w2]; cbn [snd] in *; by rewrite Hc.
Qed.

Lemma once_call_json (e : env) (q : request) : asks_at_most_once (call_groq_api_json e q).
Proof. intros w. right. exists q. by destruct w. Qed.

Lemma once_call_text (e : env) (q : request) : asks_at_most_once (call_groq_api_text e q).
Proof. intros w. right. exists q. by destruct w. Qed.

Lemma keeps_requested_save : keeps requested save_sessions_to_file.
Proof. unfold save_sessions_to_file, json_dump. keeps_tac. Qed.

Lemma keeps_requested_cleanup (uid : Z) : keeps requested (cleanup_session uid).
Proof. pose proof keeps_requested_save. unfold cleanup_session. keeps_tac. Qed.

Ltac once_step :=
  match goal with
  | |- asks_at_most_once (bind (call_groq_api_json _ _) _) =>
      apply once_then; [apply once_call_json | intros ?; solve [keeps_tac]]
  | |- asks_at_most_once (bind (call_groq_api_text _ _) _) =>
      apply once_then; [apply once_call_text | intros ?; solve [keeps_tac]]
  | |- asks_at_most_once (bind _ _) => apply once_after; [solve [keeps_tac] | intros ?]
  | |- asks_at_most_once (try_finally _ _) => apply once_try_finally; [ | solve [keeps_tac]]
  | |- asks_at_most_once (match ?x with _ => _ end) => destruct x
  | |- asks_at_most_once _ => apply once_keeps; solve [keeps_tac]
  end.

Lemma once_run_task (e : env) (uid : Z) (t : task) : asks_at_most_once (run_task e uid t).
Proof.
  pose proof keeps_requested_save. pose proof (keeps_requested_cleanup uid).
  destruct t; cbn [run_task].
  - unfold enter_castle_task, mbind, M_bind. repeat once_step.
  - unfold hint_task, mbind, M_bind. repeat once_step.
  - unfold code_submission_task, mbind, M_bind. cbn zeta. repeat once_step.
Qed.

Lemma keeps_requested_select_task (uid : Z) (text : pystr) :
  keeps requested (select_task uid text).
Proof. pose proof (keeps_requested_cleanup uid). unfold select_task. keeps_tac. Qed.

(** X13. One event, one call of the generator at most.  Whatever the
    update, the state, the generator's answer and the transport, handling
    one event adds no call or exactly one call to the calls made to the
    generator: a failed generation is never tried again.  No call is made
    for a command, nor for a text of a user whose flag is set. *)
Theorem one_generator_call_per_event (ev : event) (w : world) :
  (requested (handle ev w) = requested w \/
   exists q, requested (handle ev w) = requested w ++ [q]) /\
  ((is_busy ev.1.2 w = true \/ ev.2 = StartCommand \/ ev.2 = GodModeCommand) ->
   requested (handle ev w) = requested w).
Proof.
  destruct ev as [[e uid] upd]. unfold handle. cbn [fst snd].
  pose proof (keeps_requested_select_task uid) as Hsel.
  split.
  - revert w. change (asks_at_most_once (handle_update e uid upd)).
    destruct upd as [text| |]; cbn [handle_update].
    + specialize (Hsel text). pose proof (once_run_task e uid) as Hrun.
      unfold message_router, run_gated, mbind, M_bind.
      repeat once_step. apply Hrun.
    + apply once_keeps. keeps_handler.
    + apply once_keeps. keeps_handler.
  - intros [Hb | [-> | ->]]; cbn [handle_update].
    + destruct upd as [text| |]; cbn [handle_update].
      * rewrite (router_rejects_busy _ _ _ _ Hb). as_keeps. keeps_handler.
      * as_keeps. keeps_handler.
      * as_keeps. keeps_handler.
    + as_keeps. keeps_handler.
    + as_keeps. keeps_handler.
Qed.

Lemma one_generator_call_witness :
  requested (handle (scenario_env ApiNone, 42, GodModeCommand) (scenario_world 1)) = [].
Proof.
  destruct (one_generator_call_per_event
              (scenario_env ApiNone, 42, GodModeCommand) (scenario_world 1)) as [_ Hnone].
  rewrite Hnone; [reflexivity|]. right. right. reflexivity.
Defined.

(** ** The file follows the mapping *)

Lemma settled_bind {A C} (m : M A) (k : A -> M C) :
  settled m -> (forall a, settled (k a)) -> settled (bind m k).
Proof.
  intros Hm Hk w Ht. unfold bind. specialize (Hm w Ht). unfold world_after in *.
  destruct (m w) as [[a|x] w1]; cbn [snd] in *; [|exact Hm].
  destruct Hm as [Ht1 H1]. specialize (Hk a w1 Ht1). unfold world_after in Hk.
  destruct (k a w1) as [r w2]; cbn [snd] in *.
  destruct Hk as [Ht2 H2]. split; [exact Ht2|].
  destruct H1 as [[Hs1 Hf1]|Hf1], H2 as [[Hs2 Hf2]|Hf2].
  - left. split; congruence.
  - by right.
  - right. congruence.
  - by right.
Qed.

Lemma settled_ret {A} (a : A) : settled (mret a).
Proof. intros w Ht. split; [exact Ht|]. by left. Qed.

Lemma settled_raise {A} (x : exn) : settled (@raise A x).
Proof. intros w Ht. split; [exact Ht|]. by left. Qed.

Lemma settled_gets {A} (f : world -> A) : settled (gets f).
Proof. intros w Ht. split; [exact Ht|]. by left. Qed.

Lemma settled_modify (f : world -> world) :
  (forall w, transport (f w) = transport w /\ user_sessions (f w) = user_sessions w /\
             session_file (f w) = session_file w) ->
  settled (modify f).
Proof.
  intros Hf w Ht. destruct (Hf w) as (H1 & H2 & H3). unfold world_after, modify. cbn [snd].
  split; [congruence|]. by left.
Qed.

Lemma settled_transport_call (uid : Z) (r : reply) : settled (transport_call uid r).
Proof.
  intros w Ht. rewrite (transport_call_delivers _ _ _ Ht).
  destruct w. cbn in *. split; [exact Ht|]. by left.
Qed.

Lemma settled_try_finally {A} (body : M A) (cleanup : M unit) :
  settled body -> settled cleanup -> settled (try_finally body cleanup).
Proof.
  intros Hb Hc w Ht.
  pose proof (settled_bind body (fun _ => cleanup) Hb (fun _ => Hc) w Ht) as Hseq.
  unfold try_finally, bind, world_after in *.
  specialize (Hb w Ht). unfold world_after in Hb.
  destruct (body w) as [[a|x] w1]; cbn [snd] in *.
  - by destruct (cleanup w1) as [[[]|x'] w2].
  - destruct Hb as [Ht1 H1]. specialize (Hc w1 Ht1). unfold world_after in Hc.
    destruct (cleanup w1) as [[[]|x'] w2]; cbn [snd] in *;
      (destruct Hc as [Ht2 H2]; split; [exact Ht2|];
       destruct H1 as [[Hs1 Hf1]|Hf1], H2 as [[Hs2 Hf2]|Hf2];
       [left; split; congruence | by right | right; congruence | by right]).
Qed.

Ltac settled_step :=
  match goal with
  | |- settled (bind _ _) => apply settled_bind; [|intros ?]
  | |- settled (mret _) => apply settled_ret
  | |- settled (raise _) => apply settled_raise
  | |- settled (gets _) => apply settled_gets
  | |- settled (modify _) => apply settled_modify; by intros []
  | |- settled (try_finally _ _) => apply settled_try_finally
  | |- settled (transport_call _ _) => apply settled_transport_call
  | H : settled ?m |- settled ?m => exact H
  | |- settled (match ?x with _ => _ end) => destruct x
  end.

Ltac settled_tac :=
  unfold lookup_session, reply_text, send_chat_action,
    call_groq_api_json, call_groq_api_text, attribute_of, mark_busy, mbind, M_bind;
  repeat settled_step.

Lemma settled_cleanup (uid : Z) : settled (cleanup_session uid).
Proof.
  intros w Ht. rewrite cleanup_session_run. fields.
  split; [by destruct w|]. right. by destruct w.
Qed.

Lemma settled_enter (e : env) (uid : Z) : settled (enter_castle_task e uid).
Proof.
  intros w Ht.
  destruct (answer_is_room (answer_json e)) as [d|] eqn:Hd.
  - destruct (RoomSession_for_user uid d) as [x|session] eqn:Hsession.
    + rewrite (RoomSession_for_user_raises _ _ _ Hsession) in Hsession.
      rewrite (enter_rejected e uid w d Hd Hsession Ht). fields.
      split; [reflexivity|]. by left.
    + rewrite (enter_created e uid w d session Hd Hsession Ht). fields.
      split; [reflexivity|]. by right.
  - rewrite (enter_failed e uid w Hd Ht). fields.
    split; [reflexivity|]. by left.
Qed.

Lemma settled_hint (e : env) (uid : Z) : settled (hint_task e uid).
Proof. unfold hint_task. settled_tac. Qed.

Lemma settled_submission (e : env) (uid : Z) (text : pystr) :
  settled (code_submission_task e uid text).
Proof.
  intros w Ht.
  destruct (user_sessions w !! uid) as [s|] eqn:Hs.
  - destruct (decide (normalize_code text = normalize_code (correct_snippet s))) as [Heq|Hne].
    + destruct (decide (room_number s < FINAL_ROOM)) as [Hroom|Hroom].
      * destruct (answer_is_room (answer_json e)) as [d|] eqn:Hd.
        -- rewrite (submission_advance e uid text w s d Hs Heq Hroom Hd Ht). fields.
           split; [reflexivity|]. by right.
        -- rewrite (submission_collapse e uid text w s Hs Heq Hroom Hd Ht). fields.
           split; [reflexivity|]. by right.
      * rewrite (submission_victory e uid text w s Hs Heq ltac:(lia) Ht). fields.
        split; [reflexivity|]. by right.
    + rewrite (submission_incorrect e uid text w s Hs Hne Ht). fields.
      split; [reflexivity|]. by right.
  - assert (code_submission_task e uid text w = (Raised AttributeError, w)) as ->
      by (unfold code_submission_task; unfold_handler; by rewrite Hs).
    split; [exact Ht|]. by left.
Qed.

Lemma settled_handle_update (e : env) (uid : Z) (upd : update) :
  settled (handle_update e uid upd).
Proof.
  pose proof (settled_cleanup uid).
  destruct upd as [text| |]; cbn [handle_update].
  - unfold message_router, run_gated, select_task. settled_tac.
    all: match goal with
         | |- settled (run_task _ _ ?t) =>
             destruct t; cbn [run_task];
             [apply settled_enter | apply settled_hint | apply settled_submission]
         end.
  - unfold start_command. settled_tac.
  - unfold god_mode_command. settled_tac.
Qed.

Lemma settled_run (evs : list event) (w : world) :
  transport w = [] ->
  transport (run evs w) = [] /\
  ((user_sessions (run evs w) = user_sessions w /\ session_file (run evs w) = session_file w) \/
   session_file (run evs w) = written_file (user_sessions (run evs w))).
Proof.
  revert w. induction evs as [|[[e uid] upd] evs IH]; intros w Ht; cbn [run].
  - split; [exact Ht|]. by left.
  - destruct (settled_handle_update e uid upd w Ht) as [Ht1 H1].
    change (world_after (handle_update e uid upd w)) with (handle (e, uid, upd) w) in Ht1, H1.
    destruct (IH _ Ht1) as [Ht2 H2]. split; [exact Ht2|].
    destruct H1 as [[Hs1 Hf1]|Hf1], H2 as [[Hs2 Hf2]|Hf2].
    + left. split; congruence.
    + by right.
    + right. congruence.
    + by right.
Qed.

(** X14. What is in memory is on disk.  Along every run of events with a
    transport that delivers, the run either leaves the session mapping and
    the session file alone or ends with a save of the mapping it holds: no
    handler returns, or raises, between a change of the mapping and the
    save that follows it.  So if a restart would have found the mapping
    before the run, a restart after the run finds the mapping the process
    holds then, provided every key and session of that mapping can be
    written (texts without surrogate code point, integers of 4300 digits at
    most); if one cannot and the run has changed mapping or file, the file
    is left truncated and a restart starts empty. *)
Theorem restart_after_run_finds_the_sessions (evs : list event) (w : world) :
  transport w = [] ->
  ((user_sessions (run evs w) = user_sessions w /\ session_file (run evs w) = session_file w) \/
   (session_file (run evs w) = written_file (user_sessions (run evs w)) /\
    saved_or_lost (user_sessions (run evs w)) (run evs w))) /\
  (durable w -> all_writable (user_sessions (run evs w)) -> durable (run evs w)).
Proof.
  intros Ht. destruct (settled_run evs w Ht) as [_ Hrun]. split.
  - destruct Hrun as [Hsame|Hf]; [by left|right].
    split; [exact Hf | by apply written_file_outcome].
  - intros Hw Hwritable. unfold durable in *.
    destruct Hrun as [[Hs Hf]|Hf].
    + unfold reloaded in *. by rewrite Hf, Hs.
    + rewrite (reloaded_written _ _ Hf).
      by rewrite (proj1 (all_writable_writable _) Hwritable).
Qed.

Lemma restart_after_run_witness :
  let e := scenario_env (ApiDict scenario_room) in
  durable (run [ (e, 42, TextMessage ENTER_CASTLE); (e, 42, TextMessage (of_ascii "WRONG"));
                 (e, 7, TextMessage ENTER_CASTLE); (e, 42, TextMessage (of_ascii "S2")) ]
               (startup Missing)).
Proof.
  apply restart_after_run_finds_the_sessions.
  - reflexivity.
  - reflexivity.
  - apply all_writable_writable. by vm_compute.
Defined.

(** ** Sessions and their users *)

#[export] Instance same_user_preorder : PreOrder same_user.
Proof.
  split; [intros s; reflexivity|].
  intros s1 s2 s3 H12 H23. unfold same_user in *. congruence.
Qed.

#[export] Instance keeps_owned_preorder : PreOrder keeps_owned.
Proof.
  split; [intros m Hm; exact Hm|].
  intros m1 m2 m3 H12 H23 H1. apply H23, H12, H1.
Qed.

Lemma same_user_keeps_owned (uid : Z) (m m' : gmap Z RoomSession) :
  touches_only uid same_user m m' -> keeps_owned m m'.
Proof.
  intros [Hframe Hkeep] Hinv u s' Hs'.
  destruct (decide (u = uid)) as [->|Hne].
  - destruct (Hkeep s' Hs') as (s & Hs & Huser). rewrite Huser. eauto.
  - rewrite Hframe in Hs' by done. eauto.
Qed.

Lemma relates_run_task_same_user (e : env) (uid : Z) (t : task) :
  t <> EnterCastle -> relates (touches_only uid same_user) (run_task e uid t).
Proof.
  pose proof (relates_save (touches_only uid same_user)).
  pose proof (relates_cleanup uid same_user).
  destruct t; cbn [run_task]; [done| |]; intros _.
  - unfold hint_task. relates_tac.
  - unfold code_submission_task. cbn zeta.
    relates_tac; relates_update; reflexivity.
Qed.

Lemma RoomSession_for_user_owner (uid : Z) (d : kwargs) (session : RoomSession) :
  RoomSession_for_user uid d = inr session -> user_id session = uid.
Proof.
  intros Hsession.
  destruct (decide (fits_session d)) as [Hfits|Hfits].
  - rewrite (RoomSession_for_user_fits _ _ Hfits) in Hsession. by injection Hsession as <-.
  - by rewrite (RoomSession_for_user_misfit _ _ Hfits) in Hsession.
Qed.

Lemma relates_enter_owned (e : env) (uid : Z) : relates keeps_owned (enter_castle_task e uid).
Proof.
  pose proof (relates_save keeps_owned).
  unfold enter_castle_task. relates_tac.
  apply relates_with_sessions. intros m Hinv u s.
  rewrite lookup_insert. destruct (decide (uid = u)) as [->|Hne]; [|apply Hinv].
  intros [= <-]. by eapply RoomSession_for_user_owner.
Qed.

Lemma relates_handle_update_owned (e : env) (uid : Z) (upd : update) :
  relates keeps_owned (handle_update e uid upd).
Proof.
  destruct upd as [text| |]; cbn [handle_update].
  - pose proof (relates_enter_owned e uid).
    assert (relates keeps_owned (select_task uid text)).
    { apply (relates_weaken _ _ _ (same_user_keeps_owned uid)).
      pose proof (relates_cleanup uid same_user).
      unfold select_task. relates_tac. }
    unfold message_router, run_gated. relates_tac.
    match goal with
    | |- relates _ (run_task _ _ ?t) =>
        destruct t; [assumption| |];
        by apply (relates_weaken _ _ _ (same_user_keeps_owned uid)),
                 relates_run_task_same_user
    end.
  - apply (relates_weaken eq); [by intros ? ? ->|]. apply relates_start_unchanged.
  - apply (relates_weaken eq); [by intros ? ? ->|]. apply relates_god_mode_unchanged.
Qed.

(** X15. The key of a session is its user.  If every session of the
    mapping is stored under the user id it carries, this is still so after
    any run of events, whatever the generator answers and the transport
    does: a new session is built for the sender of the event and stored
    under the sender's id, and no assignment writes [user_id]. *)
Theorem sessions_stay_with_their_user (evs : list event) (w : world) :
  owned (user_sessions w) -> owned (user_sessions (run evs w)).
Proof.
  revert w. induction evs as [|[[e uid] upd] evs IH]; intros w Hw; cbn [run]; [exact Hw|].
  apply IH. exact (relates_handle_update_owned e uid upd w Hw).
Qed.

Lemma sessions_stay_with_their_user_witness :
  let e := scenario_env (ApiDict scenario_room) in
  owned (user_sessions (run [ (e, 7, TextMessage ENTER_CASTLE);
                              (e, 42, TextMessage (of_ascii "S1")) ] (scenario_world 1))).
Proof.
  apply sessions_stay_with_their_user.
  intros u s. unfold scenario_world. cbn [user_sessions].
  rewrite lookup_singleton_Some. by intros [<- <-].
Defined.

(** ** Stage and attempts stay in range *)

Lemma all_in_bounds_insert (m : gmap Z RoomSession) (u : Z) (s : RoomSession) :
  all_in_bounds m -> in_bounds s -> all_in_bounds (<[u := s]> m).
Proof.
  intros Hm Hs u' s'. rewrite lookup_insert.
  destruct (decide (u = u')); [by intros [= <-] | apply Hm].
Qed.

Lemma all_in_bounds_delete (m : gmap Z RoomSession) (u : Z) :
  all_in_bounds m -> all_in_bounds (delete u m).
Proof.
  intros Hm u' s'. rewrite lookup_delete.
  destruct (decide (u = u')); [done | apply Hm].
Qed.

Lemma all_in_bounds_touched (uid : Z) (m m' : gmap Z RoomSession) :
  touches_only uid eq m m' -> all_in_bounds m -> all_in_bounds m'.
Proof.
  intros [Hframe Hkeep] Hm u s' Hs'.
  destruct (decide (u = uid)) as [->|Hne].
  - destruct (Hkeep s' Hs') as (s & Hs & <-). by apply (Hm uid).
  - rewrite Hframe in Hs' by done. by apply (Hm u).
Qed.

Lemma RoomSession_for_user_stage (uid : Z) (d : kwargs) (session : RoomSession) :
  RoomSession_for_user uid d = inr session ->
  room_number session = default 1 (get_room_number d) /\
  attempts session = default 0 (get_attempts d).
Proof.
  intros Hsession.
  destruct (decide (fits_session d)) as [Hfits|Hfits].
  - rewrite (RoomSession_for_user_fits _ _ Hfits) in Hsession. by injection Hsession as <-.
  - by rewrite (RoomSession_for_user_misfit _ _ Hfits) in Hsession.
Qed.

Lemma bounds_run_task (e : env) (uid : Z) (t : task) (w : world) :
  transport w = [] ->
  match t with
  | EnterCastle => True
  | Hint | CodeSubmission _ => active (user_sessions w !! uid) = true
  end ->
  answer_in_bounds (answer_json e) ->
  all_in_bounds (user_sessions w) ->
  all_in_bounds (user_sessions (world_after (run_task e uid t w))).
Proof.
  intros Ht Hactive Hanswer Hw. destruct t as [| |text]; cbn [run_task].
  - destruct (answer_is_room (answer_json e)) as [d|] eqn:Hd.
    + destruct (RoomSession_for_user uid d) as [x|session] eqn:Hsession.
      * rewrite (RoomSession_for_user_raises _ _ _ Hsession) in Hsession.
        by rewrite (enter_rejected e uid w d Hd Hsession Ht).
      * rewrite (enter_created e uid w d session Hd Hsession Ht). fields.
        apply all_in_bounds_insert; [exact Hw|].
        destruct (RoomSession_for_user_stage _ _ _ Hsession) as [Hroom Hattempts].
        unfold in_bounds. rewrite Hroom, Hattempts.
        unfold answer_is_room, answer_in_bounds in *.
        destruct (answer_json e) as [| |d']; try done.
        destruct (has_room_keys d'); by simplify_eq.
    + by rewrite (enter_failed e uid w Hd Ht).
  - by rewrite <- (relates_hint_unchanged e uid w).
  - destruct (active_session _ Hactive) as (s & Hs & _).
    pose proof (Hw uid s Hs) as [[Hlow Hhigh] Hattempts].
    destruct (decide (normalize_code text = normalize_code (correct_snippet s))) as [Heq|Hne].
    + destruct (decide (room_number s < FINAL_ROOM)) as [Hroom|Hroom].
      * destruct (answer_is_room (answer_json e)) as [d|] eqn:Hd.
        -- rewrite (submission_advance e uid text w s d Hs Heq Hroom Hd Ht). fields.
           apply all_in_bounds_insert; [exact Hw|].
           unfold in_bounds. cbn. lia.
        -- rewrite (submission_collapse e uid text w s Hs Heq Hroom Hd Ht). fields.
           by apply all_in_bounds_delete.
      * rewrite (submission_victory e uid text w s Hs Heq ltac:(lia) Ht). fields.
        by apply all_in_bounds_delete.
    + rewrite (submission_incorrect e uid text w s Hs Hne Ht). fields.
      apply all_in_bounds_insert; [exact Hw|].
      unfold in_bounds. cbn. lia.
Qed.

Lemma bounds_step (e : env) (uid : Z) (upd : update) (w : world) :
  transport w = [] ->
  answer_in_bounds (answer_json e) ->
  all_in_bounds (user_sessions w) ->
  all_in_bounds (user_sessions (world_after (handle_update e uid upd w))).
Proof.
  intros Ht Hanswer Hw. destruct upd as [text| |]; cbn [handle_update].
  - destruct (is_busy uid w) eqn:Hb.
    + by rewrite (router_busy_sessions _ _ _ _ Hb).
    + rewrite (router_sessions _ _ _ _ Hb).
      pose proof (relates_select_task_same uid text w) as Hsel.
      unfold world_after in Hsel.
      destruct (select_task uid text w) as [[[t|]|x] w1] eqn:Hrun; cbn [snd] in Hsel.
      * destruct (select_task_dispatches _ _ _ _ _ Hrun) as [-> Hactive].
        apply bounds_run_task; try done; try (by destruct w).
        destruct t; try done; by destruct w.
      * by apply (all_in_bounds_touched uid _ _ Hsel).
      * by apply (all_in_bounds_touched uid _ _ Hsel).
  - by rewrite <- (relates_start_unchanged uid w).
  - by rewrite <- (relates_god_mode_unchanged uid w).
Qed.

(** X16. Stage and attempts stay in range.  Along a run of events with a
    transport that delivers and generator answers that name no stage
    outside 1 to 5 and no negative count of attempts (answers without these
    keys are of this kind), if every session has its stage among 1 to 5 and
    a count of failed attempts that is not negative, the same holds after
    the run: a session that would pass stage 5 is deleted instead. *)
Theorem stage_and_attempts_stay_in_range (evs : list event) (w : world) :
  transport w = [] ->
  Forall (fun ev : event => answer_in_bounds (answer_json ev.1.1)) evs ->
  all_in_bounds (user_sessions w) ->
  all_in_bounds (user_sessions (run evs w)).
Proof.
  intros Ht Hevs. revert w Ht.
  induction Hevs as [|[[e uid] upd] evs Hev _ IH]; intros w Ht Hw; cbn [run]; [exact Hw|].
  apply IH.
  - apply (settled_handle_update e uid upd w Ht).
  - by apply bounds_step.
Qed.

Lemma stage_and_attempts_witness :
  let e := scenario_env (ApiDict scenario_room) in
  all_in_bounds (user_sessions (run [ (e, 42, TextMessage (of_ascii "S1"));
                                      (e, 42, TextMessage (of_ascii "WRONG")) ]
                                    (scenario_world 5))).
Proof.
  apply stage_and_attempts_stay_in_range.
  - reflexivity.
  - repeat (apply Forall_cons; split); try apply Forall_nil; repeat split; by vm_compute.
  - intros u s. unfold scenario_world. cbn [user_sessions].
    rewrite lookup_singleton_Some. intros [<- <-]. repeat split; by vm_compute.
Defined.

(** ** The two commands *)

(** X17. The commands only answer.  Whatever the state and the transport
    do, and whether or not the user's flag is set, [/start] and [/godmode]
    leave the session mapping, the session file, the log, the busy flags and
    the list of generator calls as they were.  With a transport that
    delivers, [/start] sends the welcome text, and [/godmode] sends the
    stored solution of the user's active session, or the notice that the
    user is not in the castle when there is no session or it is complete. *)
Theorem commands_only_answer (e : env) (uid : Z) (upd : update) (w : world) :
  upd = StartCommand \/ upd = GodModeCommand ->
  let w' := handle (e, uid, upd) w in
  user_sessions w' = user_sessions w /\
  session_file w' = session_file w /\
  logged w' = logged w /\
  requested w' = requested w /\
  user_processing_status w' = user_processing_status w /\
  (transport w = [] ->
   sent w' = sent w ++ [(uid, match upd with
                              | GodModeCommand => god_mode_reply (user_sessions w !! uid)
                              | _ => Welcome
                              end)]).
Proof.
  intros Hupd. cbn zeta. unfold handle. cbn [fst snd].
  assert (handle_update e uid upd w =
          reply_text uid match upd with
                         | GodModeCommand => god_mode_reply (user_sessions w !! uid)
                         | _ => Welcome
                         end w) as ->.
  { destruct Hupd as [-> | ->]; cbn [handle_update]; [reflexivity|].
    unfold god_mode_command, lookup_session, god_mode_reply, bind, gets.
    by repeat case_match. }
  generalize (match upd with
              | GodModeCommand => god_mode_reply (user_sessions w !! uid)
              | _ => Welcome
              end).
  intros r.
  repeat split; try (as_keeps; keeps_handler).
  intros Ht. unfold reply_text. rewrite transport_call_delivers by exact Ht. by destruct w.
Qed.

Lemma commands_only_answer_witness :
  sent (handle (scenario_env ApiNone, 42, GodModeCommand) (scenario_world 2))
  = [(42, GodModeAnswer (of_ascii "S1"))].
Proof.
  destruct (commands_only_answer (scenario_env ApiNone) 42 GodModeCommand (scenario_world 2))
    as (_ & _ & _ & _ & _ & Hsent).
  - by right.
  - cbn zeta in Hsent. rewrite Hsent; reflexivity.
Defined.

(** X18. What [/godmode] reveals is accepted.  For a user who is not busy
    and holds an active session whose stored solution is not the text of a
    button: after [/godmode], sending the stored solution as a message is a
    right answer, whatever the generator answers and the transport does;
    afterwards the user's session is one stage further with no failed
    attempt, or it is gone. *)
Theorem god_mode_answer_is_accepted (e e' : env) (uid : Z) (w : world) (s : RoomSession) :
  is_busy uid w = false ->
  user_sessions w !! uid = Some s ->
  is_complete s = false ->
  free_text (correct_snippet s) ->
  let revealed := handle (e, uid, GodModeCommand) w in
  let submitted := handle (e', uid, TextMessage (correct_snippet s)) revealed in
  user_sessions submitted !! uid = None \/
  exists s', user_sessions submitted !! uid = Some s' /\
             room_number s' = room_number s + 1 /\ attempts s' = 0.
Proof.
  intros Hb Hs Hc Hfree. cbn zeta. unfold handle. cbn [fst snd handle_update].
  pose proof (relates_god_mode_unchanged uid w) as Hm.
  pose proof (keeps_status_god_mode uid w) as Hflags.
  set (w1 := world_after (god_mode_command uid w)) in *.
  assert (user_sessions w1 !! uid = Some s) as Hs1 by (by rewrite <- Hm).
  assert (is_busy uid w1 = false) as Hb1 by (by rewrite (is_busy_same_status _ _ _ Hflags)).
  destruct (user_sessions (world_after (message_router e' uid (correct_snippet s) w1)) !! uid)
    as [s'|] eqn:Hs'; [right|by left].
  exists s'. split; [reflexivity|].
  destruct (router_stage_step e' uid (correct_snippet s) w1 uid s s' Hs1 Hs') as [Hactive _].
  destruct (Hactive Hc) as [Hright _]. by apply Hright.
Qed.

Lemma god_mode_answer_witness :
  let e := scenario_env (ApiDict scenario_room) in
  stage 42 (handle (e, 42, TextMessage (of_ascii "S1"))
              (handle (e, 42, GodModeCommand) (scenario_world 1))) = Some 2.
Proof.
  destruct (god_mode_answer_is_accepted
              (scenario_env (ApiDict scenario_room)) (scenario_env (ApiDict scenario_room))
              42 (scenario_world 1) (scenario_session 1))
    as [Hgone | (s' & Hs' & Hroom & _)].
  - reflexivity.
  - reflexivity.
  - reflexivity.
  - repeat split; by vm_compute.
  - by vm_compute in Hgone.
  - cbn zeta. unfold stage.
    change (correct_snippet (scenario_session 1)) with (of_ascii "S1") in Hs'.
    rewrite Hs'. cbn [fmap option_fmap option_map]. by rewrite Hroom.
Defined.

(** ** A row of wrong answers *)

Lemma router_incorrect (e : env) (uid : Z) (text : pystr) (w : world) (s : RoomSession) :
  is_busy uid w = false ->
  user_sessions w !! uid = Some s ->
  is_complete s = false ->
  free_text text ->
  normalize_code text <> normalize_code (correct_snippet s) ->
  transport w = [] ->
  let w' := world_after (message_router e uid text w) in
  user_sessions w' = <[uid := failed_once s]> (user_sessions w) /\
  sent w' = sent w ++ [(uid, StillBugged)] /\
  requested w' = requested w /\
  is_busy uid w' = false /\
  transport w' = [].
Proof.
  intros Hb Hs Hc Hfree Hne Ht. cbn zeta.
  rewrite (router_runs_selected _ _ _ _ Hb).
  rewrite (select_task_submission _ _ _ _ Hfree Hs Hc).
  rewrite run_gated_unfold. cbn [run_task].
  rewrite (submission_incorrect e uid text (with_status <[uid := true]> w) s);
    [ | by destruct w | exact Hne | by destruct w ].
  fields. repeat split; try (destruct w; reflexivity).
  unfold is_busy. fields. by rewrite lookup_insert_eq.
Qed.

(** X19. Wrong answers add up.  For a user who is not busy and holds an
    active session, with a transport that delivers: a run of events that are
    all free texts of this user, none equal to the stored solution up to
    whitespace, leaves every other session as it was and the user's session
    the same but for the count of failed attempts, which has grown by the
    number of events; each event is answered with the notice that the bug
    is still there, and the generator is never called. *)
Theorem wrong_answers_add_up (uid : Z) (evs : list event) (w : world) (s : RoomSession) :
  is_busy uid w = false ->
  user_sessions w !! uid = Some s ->
  is_complete s = false ->
  transport w = [] ->
  Forall (wrong_answer uid s) evs ->
  user_sessions (run evs w) =
    <[uid := set_attempts (attempts s + Z.of_nat (length evs)) s]> (user_sessions w) /\
  sent (run evs w) = sent w ++ replicate (length evs) (uid, StillBugged) /\
  requested (run evs w) = requested w.
Proof.
  intros Hb Hs Hc Ht Hevs. revert w s Hb Hs Hc Ht Hevs.
  induction evs as [|[[e u] upd] evs IH]; intros w s Hb Hs Hc Ht Hevs; cbn [run length].
  - cbn [replicate]. rewrite app_nil_r, Z.add_0_r. repeat split.
    symmetry. apply insert_id. rewrite Hs. by destruct s.
  - apply Forall_cons in Hevs as [(Hu & text & Hupd & Hfree & Hne) Hrest].
    cbn [fst snd] in Hu, Hupd. subst u upd.
    destruct (router_incorrect e uid text w s Hb Hs Hc Hfree Hne Ht)
      as (Hm1 & Hsent1 & Hreq1 & Hb1 & Ht1).
    change (world_after (message_router e uid text w))
      with (handle (e, uid, TextMessage text) w) in *.
    destruct (IH (handle (e, uid, TextMessage text) w) (failed_once s))
      as (Hm & Hsent & Hreq); try assumption.
    + rewrite Hm1. apply lookup_insert_eq.
    + rewrite Hm, Hsent, Hreq, Hm1, Hsent1, Hreq1, insert_insert_eq.
      repeat split.
      * f_equal. unfold failed_once, set_attempts. cbn. f_equal. lia.
      * cbn [replicate]. by rewrite <- app_assoc.
Qed.

Lemma wrong_answers_witness :
  let e := scenario_env ApiNone in
  user_sessions (run [ (e, 42, TextMessage (of_ascii "WRONG"));
                       (e, 42, TextMessage (of_ascii "s1")) ] (scenario_world 3))
  = {[ 42 := set_attempts 2 (scenario_session 3) ]}.
Proof.
  destruct (wrong_answers_add_up 42
              [ (scenario_env ApiNone, 42, TextMessage (of_ascii "WRONG"));
                (scenario_env ApiNone, 42, TextMessage (of_ascii "s1")) ]
              (scenario_world 3) (scenario_session 3)) as (Hm & _).
  - reflexivity.
  - reflexivity.
  - reflexivity.
  - reflexivity.
  - repeat (apply Forall_cons; split); try (by apply Forall_nil);
      (split; [reflexivity|]; eexists; split; [reflexivity|]; repeat split; by vm_compute).
  - cbn zeta. rewrite Hm. apply insert_insert_eq.
Defined.

(** ** Loading a file that holds a JSON object *)

Lemma load_items_run (items : list (pystr * file_entry)) (w : world) :
  (if forallb loadable items
   then (load_items items w).1 = Returned tt
   else (load_items items w).1 = Raised TypeError \/ (load_items items w).1 = Raised ValueError) /\
  logged (load_items items w).2 = logged w.
Proof.
  revert w. induction items as [|[uid session_data] items IH]; intros w; [by split|].
  cbn [load_items forallb]. unfold loadable at 1. cbn [fst snd].
  unfold session_of_entry, int_of_key, RoomSession_of_kwargs.
  unfold bind, mbind, M_bind, bind, raise, mret, M_ret, modify.
  destruct session_data as [|d]; [split; [by left|done]|].
  destruct (has_other_key d); cbn [negb andb]; [split; [by left|done]|].
  destruct (get_user_id d) as [k|]; [|split; [by left|done]].
  rewrite bool_decide_true by done. cbn [andb].
  destruct (py_int uid) as [key|]; [|split; [by right|done]].
  rewrite bool_decide_true by done. cbn [andb].
  match goal with
  | |- context [load_items items ?w1] => destruct (IH w1) as [Hr Hlog]
  end.
  split; [exact Hr|]. rewrite Hlog. by destruct w.
Qed.

Lemma load_object_run (members : list (pystr * file_entry)) :
  load_sessions_from_file (startup (JsonObject members)) =
  if forallb (fun member : pystr * file_entry => entry_readable member.2) members
  then match load_items (dict_items members) (startup (JsonObject members)) with
       | (Returned _, w1) =>
           (Returned tt, with_log (InfoLoaded (size (user_sessions w1))) w1)
       | (Raised x, w1) =>
           if match x with FileNotFoundError | JSONDecodeError => true | _ => false end
           then (Returned tt, with_sessions (fun _ => ∅) (with_log ErrorLoadFailed w1))
           else (Raised x, w1)
       end
  else (Raised ValueError, startup (JsonObject members)).
Proof.
  unfold load_sessions_from_file, try_except, mbind, M_bind, bind, gets, modify, json_load.
  cbn [path_exists startup session_file].
  destruct (forallb _ members); [|reflexivity].
  by destruct (load_items (dict_items members) _) as [[[]|x] w1].
Qed.

(** X20. When the bot starts on a file that holds a JSON object.
    [load_sessions_from_file] returns exactly when no integer of a session
    dict in the file has more than 4300 digits and every member of the
    object (a repeated key counted once, with its last value) has a dict as
    value whose keys all name fields of the session, [user_id] among them,
    and a key that [int] reads: optional whitespace around, an optional
    sign, and decimal digits of any script, single underscores allowed
    between them, 4300 digits at most.  It then logs the number of sessions
    loaded.  Otherwise it raises TypeError or ValueError, which its [except]
    clause does not catch, and logs nothing: the exception leaves [main]. *)
Theorem load_returns_iff_members_convert (members : list (pystr * file_entry)) :
  let r := load_sessions_from_file (startup (JsonObject members)) in
  returned r =
    forallb (fun member : pystr * file_entry => entry_readable member.2) members
    && forallb loadable (dict_items members) /\
  (returned r = true ->
   logged (world_after r) = [InfoLoaded (size (user_sessions (world_after r)))]) /\
  (returned r = false ->
   (r.1 = Raised TypeError \/ r.1 = Raised ValueError) /\ logged (world_after r) = []).
Proof.
  cbn zeta. rewrite load_object_run.
  destruct (forallb _ members); cbn [andb].
  2: { unfold returned, world_after. cbn [fst snd startup logged].
       split; [reflexivity|]. split; [done|]. intros _. split; [by right | reflexivity]. }
  destruct (load_items_run (dict_items members) (startup (JsonObject members))) as [Hr Hlog].
  unfold returned, world_after.
  destruct (load_items (dict_items members) _) as [[[]|x] w1]; cbn [fst snd] in *.
  - destruct (forallb loadable _); [|by destruct Hr].
    split; [reflexivity|]. split; [|done]. intros _.
    destruct w1. cbn in *. by rewrite Hlog.
  - destruct (forallb loadable _); [done|].
    assert (x = TypeError \/ x = ValueError) as Hx by (destruct Hr as [[=]|[=]]; auto).
    assert ((match x with FileNotFoundError | JSONDecodeError => true | _ => false end) = false)
      as -> by (by destruct Hx as [-> | ->]).
    cbn [fst snd]. split; [reflexivity|]. split; [done|]. intros _.
    split; [by destruct Hx as [-> | ->]; auto|exact Hlog].
Qed.

Lemma load_returns_witness :
  let r := load_sessions_from_file
             (startup (JsonObject [ (of_ascii "42", EntryDict (asdict (scenario_session 2)));
                                    (of_ascii "7", EntryDict [KRoomNumber 3]) ])) in
  r.1 = Raised TypeError /\ logged (world_after r) = [].
Proof.
  pose proof (load_returns_iff_members_convert
                [ (of_ascii "42", EntryDict (asdict (scenario_session 2)));
                  (of_ascii "7", EntryDict [KRoomNumber 3]) ]) as (_ & _ & Hfail).
  cbn zeta in *. destruct Hfail as [[Hr | Hr] Hlog].
  - reflexivity.
  - split; [exact Hr | exact Hlog].
  - by vm_compute in Hr.
Defined.

(** ** The content gateway *)

Section GatewayProperties.

Import Gateway.

Context {float : Type} (float_is_zero : float -> bool).
Context (loads : pystr -> error + json float).

Lemma dict_lookup_some_truthy (key : pystr) (members : list (pystr * json float))
    (v : json float) :
  dict_lookup key members = Some v -> truthy float_is_zero (JDict members) = true.
Proof. by destruct members. Qed.

(** X21. When [call_groq_api] returns a value.  The result is a value other
    than [None] exactly when the service answered with a success status and
    a body that decodes to a dict whose ["choices"] is a list, not empty,
    whose first element is a dict whose ["message"] is a dict with a
    ["content"] key, and, with [expect_json], the content is a string that
    [json.loads] decodes to that value, or, without, the content is that
    value.  Then nothing is logged.  In every other case the result is
    [None]: no exception of the exchange or of the decoding leaves the
    function, and one line at most is logged. *)
Theorem call_groq_api_returns_a_value_only_for_the_expected_shape
    (expect_json : bool) (x : exchange float) (v : json float) :
  v <> JNull ->
  ((call_groq_api float_is_zero loads expect_json x).2 = v <->
   exists members choice rest message content,
     x = Answered true (inr (JDict members)) /\
     dict_lookup (of_ascii "choices") members = Some (JList (JDict choice :: rest)) /\
     dict_lookup (of_ascii "message") choice = Some (JDict message) /\
     dict_lookup (of_ascii "content") message = Some content /\
     if expect_json then exists s, content = JStr s /\ loads s = inr v else content = v) /\
  ((call_groq_api float_is_zero loads expect_json x).2 = v ->
   (call_groq_api float_is_zero loads expect_json x).1 = []) /\
  (length (call_groq_api float_is_zero loads expect_json x).1 <= 1)%nat.
Proof.
  intros Hv. split; [split|split].
  - unfold call_groq_api, attempt, and_then, get, item, first, json_loads.
    intros Hr.
    repeat (case_match; simplify_eq; cbn [fst snd negb default] in * );
      try done;
      repeat eexists; try eassumption; try reflexivity.
    all: by destruct success.
  - intros (members & choice & rest & message & content & -> & Hchoices & Hmessage & Hcontent
            & Hv').
    unfold call_groq_api, attempt, and_then, get, item, first. cbn [negb].
    rewrite Hchoices. cbn [default from_option id truthy negb].
    rewrite Hmessage. cbn [default from_option id].
    rewrite (dict_lookup_some_truthy _ _ _ Hcontent). cbn [negb]. rewrite Hcontent.
    destruct expect_json.
    + destruct Hv' as (s & -> & Hs). unfold json_loads. by rewrite Hs.
    + by subst.
  - unfold call_groq_api, attempt, and_then, get, item, first, json_loads.
    intros Hr.
    repeat (case_match; simplify_eq; cbn [fst snd negb default] in * ); done.
  - unfold call_groq_api, attempt, and_then, get, item, first, json_loads.
    repeat (case_match; simplify_eq; cbn [fst snd negb default length] in * ); lia.
Qed.

End GatewayProperties.

Lemma call_groq_api_witness :
  let loads := fun s : pystr =>
    if decide (s = of_ascii "{}") then inr (Gateway.JDict []) else inl Gateway.JSONDecodeError in
  let body :=
    Gateway.JDict
      [ (of_ascii "choices",
         Gateway.JList
           [ Gateway.JDict
               [ (of_ascii "message",
                  Gateway.JDict [ (of_ascii "content", Gateway.JStr (of_ascii "{}")) ]) ] ]) ] in
  (Gateway.call_groq_api (fun _ : unit => false) loads true
     (Gateway.Answered true (inr body))).2 = Gateway.JDict [].
Proof.
  cbn zeta.
  apply (call_groq_api_returns_a_value_only_for_the_expected_shape (fun _ : unit => false)).
  - discriminate.
  - do 5 eexists. split; [reflexivity|]. split; [reflexivity|]. split; [reflexivity|].
    split; [reflexivity|]. eexists. split; reflexivity.
Defined.

(** ** Events handled one after the other *)

(** X22. No flag outlives its event.  When events are handled one after
    the other, each to its end, and no flag is set at the start, no flag is
    set after the run, whatever the generator answers and the transport
    does, and whichever handlers raise: every event of such a run finds its
    user not busy, so none is turned away by the gate. *)
Theorem sequential_runs_leave_no_flag_set (evs : list event) (w : world) :
  (forall u, is_busy u w = false) ->
  forall u, is_busy u (run evs w) = false.
Proof.
  revert w. induction evs as [|[[e uid] upd] evs IH]; intros w Hw; cbn [run]; [exact Hw|].
  apply IH. intros u. unfold handle. cbn [fst snd].
  destruct (decide (u = uid)) as [->|Hne].
  - destruct upd as [text| |]; cbn [handle_update].
    + apply router_releases_flag, Hw.
    + rewrite (is_busy_same_status _ _ _ (keeps_status_start uid w)). apply Hw.
    + rewrite (is_busy_same_status _ _ _ (keeps_status_god_mode uid w)). apply Hw.
  - pose proof (handle_update_other_flags e uid u upd Hne w) as Hflag. cbn beta in Hflag.
    unfold is_busy. rewrite Hflag. apply Hw.
Qed.

Lemma sequential_runs_witness :
  let e := scenario_env ApiNone in
  is_busy 42 (run [ (e, 42, TextMessage (of_ascii "S1")); (e, 7, TextMessage ENTER_CASTLE) ]
                  (with_transport [false; false] (scenario_world 1))) = false.
Proof.
  apply sequential_runs_leave_no_flag_set.
  intros u. reflexivity.
Defined.

(** ** When the transport fails in the middle of a submission *)

Lemma transport_call_fails (uid : Z) (r : reply) (w : world) (rest : list bool) :
  transport w = false :: rest ->
  transport_call uid r w = (Raised TransportError, with_transport rest w).
Proof. unfold transport_call. by intros ->. Qed.


(** X23. A victory message that cannot be delivered.  The victory message
    is sent before the session is deleted.  For a user who is not busy and
    holds an active session at the final stage, a right answer, and a
    transport whose next call fails: the router raises the transport's
    exception; the session is not deleted but stays in memory one stage
    further, beyond the final stage, with no failed attempt; file, log and
    outbox are as before, no generator call is made and the flag is
    cleared.  If the transport delivers from then on, the same answer sent
    again is answered with the victory message and deletes the session. *)
Theorem victory_message_that_fails
    (e e' : env) (uid : Z) (text : pystr) (w : world) (s : RoomSession) (rest : list bool) :
  is_busy uid w = false ->
  user_sessions w !! uid = Some s ->
  is_complete s = false ->
  FINAL_ROOM <= room_number s ->
  free_text text ->
  normalize_code text = normalize_code (correct_snippet s) ->
  transport w = false :: rest ->
  let r := message_router e uid text w in
  let w' := world_after r in
  let again := world_after (message_router e' uid text w') in
  r.1 = Raised TransportError /\
  user_sessions w' = <[uid := next_room s]> (user_sessions w) /\
  session_file w' = session_file w /\
  logged w' = logged w /\
  sent w' = sent w /\
  requested w' = requested w /\
  is_busy uid w' = false /\
  (rest = [] ->
   sent again = sent w ++ [(uid, Victory)] /\
   user_sessions again = delete uid (user_sessions w)).
Proof.
  intros Hb Hs Hc Hroom Hfree Heq Ht. cbn zeta.
  assert (message_router e uid text w =
          (Raised TransportError,
           mkWorld (<[uid := next_room s]> (user_sessions w))
                   (<[uid := false]> (<[uid := true]> (user_processing_status w)))
                   (session_file w) (logged w) (sent w) (requested w) rest)) as Hrun.
  { rewrite (router_runs_selected _ _ _ _ Hb).
    rewrite (select_task_submission _ _ _ _ Hfree Hs Hc).
    rewrite run_gated_unfold. cbn [run_task].
    unfold code_submission_task. unfold_handler.
    assert (user_sessions (with_status <[uid := true]> w) !! uid = Some s) as ->
      by (by destruct w).
    cbn [attribute_of mret M_ret].
    rewrite decide_True by exact Heq.
    replace (FINAL_ROOM <? room_number s + 1) with true by (symmetry; apply Z.ltb_lt; lia).
    rewrite (transport_call_fails _ _ _ rest) by (by destruct w).
    open_world w.
    rewrite (alter_found _ _ _ _ Hs).
    rewrite (alter_found _ _ _ _ (lookup_insert_eq _ _ _)), insert_insert_eq.
    reflexivity. }
  rewrite Hrun. fields. repeat (split; [reflexivity|]).
  split; [unfold is_busy; fields; by rewrite lookup_insert_eq|].
  intros ->.
  rewrite router_runs_selected by (unfold is_busy; fields; by rewrite lookup_insert_eq).
  rewrite (select_task_submission uid text _ (next_room s) Hfree)
    by (fields; first [apply lookup_insert_eq | exact Hc]).
  rewrite run_gated_unfold. cbn [run_task].
  rewrite (submission_victory e' uid text _ (next_room s));
    [ | fields; apply lookup_insert_eq | exact Heq | cbn; lia | reflexivity ].
  fields. split; [reflexivity|]. apply delete_insert_eq.
Qed.

Lemma victory_message_that_fails_witness :
  let w := with_transport [false] (scenario_world 5) in
  stage 42 (world_after (message_router (scenario_env ApiNone) 42 (of_ascii "S1") w)) = Some 6.
Proof.
  destruct (victory_message_that_fails (scenario_env ApiNone) (scenario_env ApiNone) 42
              (of_ascii "S1") (with_transport [false] (scenario_world 5))
              (scenario_session 5) []) as (_ & Hm & _).
  - reflexivity.
  - reflexivity.
  - reflexivity.
  - reflexivity.
  - repeat split; by vm_compute.
  - reflexivity.
  - reflexivity.
  - cbn zeta. unfold stage. rewrite Hm. by rewrite lookup_insert_eq.
Defined.


